(** * Phaneron: the producer registry and the FFmpeg ingest pipeline

    A shallow embedding of [src/producer/producer.ts] (the producer
    registry) and [src/producer/ffmpegProducer.ts] (stream discovery,
    filter-graph set-up, pixel-format selection and the stages of the
    redioactive pipeline), of [src/config.ts] (video formats and consumer
    configuration) and of [src/AMCP/basicCmds.ts] (the basic AMCP
    commands), followed by the properties proved about them.

    Conventions.
    - A JavaScript [number] that the code only compares or copies (stream
      indexes, presentation timestamps, sample rates) is a [Z].
    - [undefined]/[null] is [None].
    - A call that may throw returns a [Result]; the capability objects of
      beamcoder, nodencl and the [process/] readers are not part of this
      repository's sources, so whether one of their calls throws is read
      from an [Externals] record.
    - Console output of [initialise] and [setPaused] is not modelled; the
      diagnostics of [createSource] and of the demux stage are.
    - The channels the AMCP commands address ([src/channel.ts]) are not
      part of these sources either: their methods are those of a class
      [Channel.Ops], each acting on the state of its own channel. *)

From Stdlib Require Import ZArith String Ascii List Bool Lia.
From stdpp Require Import base option list gmap strings pretty.

Local Open Scope Z_scope.
Local Open Scope string_scope.
Local Open Scope list_scope.

(** ** Errors and fallible calls *)

(** The classes of thrown values the code distinguishes with [instanceof]:
    [InvalidProducerError] (declared in producer.ts), the plain [Error]
    raised by [initialise] for an unsupported pixel format, the [TypeError]
    the runtime raises on a property read of [undefined], and errors that
    come out of a foreign library. *)
Inductive ErrorClass : Type :=
| InvalidProducerErrorClass
| PlainErrorClass
| TypeErrorClass
| ForeignErrorClass.

Record JsError : Type := mkJsError {
  err_class : ErrorClass;
  err_name : string;
  err_message : string
}.

(** [err instanceof InvalidProducerError] *)
Definition instanceof_InvalidProducerError (e : JsError) : bool :=
  match err_class e with
  | InvalidProducerErrorClass => true
  | _ => false
  end.

(** [Error.prototype.toString]: the name, a colon and the message, or
    whichever of the two is not empty. *)
Definition error_toString (e : JsError) : string :=
  if String.eqb (err_message e) "" then err_name e
  else if String.eqb (err_name e) "" then err_message e
  else err_name e +:+ ": " +:+ err_message e.

(** [new InvalidProducerError(message)]; the constructor sets [name]. *)
Definition InvalidProducerError (message : string) : JsError :=
  mkJsError InvalidProducerErrorClass "InvalidProducerError" message.

(** [new Error(message)] *)
Definition PlainError (message : string) : JsError :=
  mkJsError PlainErrorClass "Error" message.

(** The error of reading property [prop] of [undefined]. *)
Definition TypeError_undefined (prop : string) : JsError :=
  mkJsError TypeErrorClass "TypeError"
    ("Cannot read property '" +:+ prop +:+ "' of undefined").

(** An error thrown by a library outside the repository: never an
    [InvalidProducerError], which only producer code constructs. *)
Definition ForeignError (name message : string) : JsError :=
  mkJsError ForeignErrorClass name message.

Inductive Result (A : Type) : Type :=
| Ok (a : A)
| Throw (e : JsError).
Arguments Ok {A} a.
Arguments Throw {A} e.

Definition rbind {A B : Type} (r : Result A) (k : A -> Result B) : Result B :=
  match r with
  | Ok a => k a
  | Throw e => Throw e
  end.

(** [try { r } catch (err) { h err }] *)
Definition try_catch {A : Type} (r : Result A) (h : JsError -> Result A) : Result A :=
  match r with
  | Ok a => Ok a
  | Throw e => h e
  end.

(** stdpp's monad notations ([x ← c; k] and [c;; k]) are used for the
    sequencing of fallible calls. *)
#[global] Instance result_ret : MRet Result := fun _ a => Ok a.
#[global] Instance result_bind : MBind Result := fun _ _ k r => rbind r k.

(** The completion of a call into a library outside the repository: it
    returns a value or throws an error of the library's own, given by its
    name and message. *)
Inductive Foreign (A : Type) : Type :=
| Returns (a : A)
| Throws (name message : string).
Arguments Returns {A} a.
Arguments Throws {A} name message.

Definition external {A : Type} (c : Foreign A) : Result A :=
  match c with
  | Returns a => Ok a
  | Throws n m => Throw (ForeignError n m)
  end.

(** ** Load parameters and channel properties (chanLayer.ts, as used here) *)

Record LoadParams : Type := mkLoadParams {
  url : string;
  seek : option Z
}.

Record ChanProperties : Type := mkChanProperties {
  videoTimebase : Z * Z
}.

(** ** The producer registry (producer.ts) *)

Module Registry.
Section Registry.

(** The type of producer objects the registered factories build. *)
Context {Producer : Type}.

(** One registered factory, seen from [createSource]: the candidate is
    built with [createProducer] and [initialise]d, inside one [try]. The
    result is the initialised producer or the value thrown. *)
Definition ProducerFactory : Type := LoadParams -> ChanProperties -> Result Producer.

(** What a call of [createSource] leaves behind: its completion (the
    producer, [null], or the error thrown to the caller), the last value of
    its local [producerErr], the positions of the factories it invoked, in
    invocation order, and the console lines. *)
Record SourceRun : Type := mkSourceRun {
  completion : Result (option Producer);
  recorded : string;
  invoked : list nat;
  console : list string
}.

(** [`${params}`] of a plain object. *)
Definition params_toString (params : LoadParams) : string := "[object Object]".

(** The [for (const f of this.producerFactories)] loop from position [i]
    on, with [producerErr] and the positions invoked so far. *)
Fixpoint createSource_from (fs : list ProducerFactory) (i : nat)
    (producerErr : string) (seen : list nat)
    (params : LoadParams) (chanProperties : ChanProperties) : SourceRun :=
  match fs with
  | [] =>
      mkSourceRun (Ok None) producerErr seen
        ((if String.eqb producerErr "" then [] else [producerErr]) ++
         ["Failed to find producer for params: '" +:+ params_toString params +:+ "'"])
  | f :: fs' =>
      match f params chanProperties with
      | Ok producer => mkSourceRun (Ok (Some producer)) producerErr (seen ++ [i]) []
      | Throw err =>
          if negb (instanceof_InvalidProducerError err)
          then mkSourceRun (Throw err) (err_message err) (seen ++ [i]) []
          else createSource_from fs' (S i) (err_message err) (seen ++ [i])
                 params chanProperties
      end
  end.

Definition createSource (producerFactories : list ProducerFactory)
    (params : LoadParams) (chanProperties : ChanProperties) : SourceRun :=
  createSource_from producerFactories 0 "" [] params chanProperties.

End Registry.
End Registry.

(** ** beamcoder's data, as the producer reads it *)

Module CodecPar.
Record t : Type := mk {
  codec_type : string;
  channel_layout : string;
  sample_rate : Z;
  format : string;
  width : Z;
  height : Z;
  sample_aspect_ratio : Z * Z
}.
End CodecPar.

Module Stream.
Record t : Type := mk {
  index : Z;
  codecpar : CodecPar.t;
  time_base : Z * Z;
  discard : string
}.

(** [s.discard = v] *)
Definition set_discard (v : string) (s : t) : t :=
  mk (index s) (codecpar s) (time_base s) v.
End Stream.

Module Packet.
Record t : Type := mk {
  stream_index : Z;
  pts : Z
}.
End Packet.

(** A node Buffer as the producer makes them: [Buffer.alloc(n)], which
    holds [n] zero bytes. *)
Inductive Buffer : Type :=
| Buffer_alloc (n : Z).

Definition Buffer_bytes (b : Buffer) : list Byte.byte :=
  match b with
  | Buffer_alloc n => repeat Byte.x00 (Z.to_nat n)
  end.

Module Frame.
Record t : Type := mk {
  nb_samples : Z;
  format : string;
  pts : Z;
  sample_rate : Z;
  channels : Z;
  channel_layout : string;
  data : list Buffer
}.
End Frame.


(** A demuxer: the streams it discovered and the packets [read] has not
    returned yet; [read] yields [null] once they are used up. *)
Record Demuxer : Type := mkDemuxer {
  streams : list Stream.t;
  unread : list Packet.t
}.

Definition Demuxer_read (d : Demuxer) : option Packet.t * Demuxer :=
  match unread d with
  | [] => (None, d)
  | p :: rest => (Some p, mkDemuxer (streams d) rest)
  end.

Record Decoder : Type := mkDecoder {
  decoder_stream_index : Z
}.

(** ** Filter graph options (the argument of beamcoder's [filterer]) *)

Record AudioInputParam : Type := mkAudioInputParam {
  ain_name : string;
  ain_timeBase : Z * Z;
  ain_sampleRate : Z;
  ain_sampleFormat : string;
  (** [undefined] when [audChanNames[i]] is read out of range *)
  ain_channelLayout : option string
}.

Record AudioOutputParam : Type := mkAudioOutputParam {
  aout_name : string;
  aout_sampleRate : Z;
  aout_sampleFormat : string;
  aout_channelLayout : string
}.

Record VideoInputParam : Type := mkVideoInputParam {
  vin_timeBase : Z * Z;
  vin_width : Z;
  vin_height : Z;
  vin_pixelFormat : string;
  vin_pixelAspect : Z * Z
}.

Inductive FiltererOptions : Type :=
| AudioFilterer (inputParams : list AudioInputParam)
    (outputParams : list AudioOutputParam) (filterSpec : string)
| VideoFilterer (inputParams : list VideoInputParam)
    (outputPixelFormats : list string) (filterSpec : string).

Record Filterer : Type := mkFilterer {
  filterer_options : FiltererOptions
}.

(** ** The GPU loaders of process/ *)

Inductive Reader : Type :=
| yuv422p8Reader (width height : Z)
| yuv422p10Reader (width height : Z)
| v210Reader (width height : Z)
| rgba8Reader (width height : Z)
| bgra8Reader (width height : Z).

Record ToRGBA : Type := mkToRGBA {
  colSpecRead : string;
  colSpecWrite : string;
  reader : Reader
}.

Record Yadif : Type := mkYadif {
  yadif_width : Z;
  yadif_height : Z;
  yadif_mode : string;
  yadif_tff : string;
  yadif_deint : string
}.

(** ** Calls into beamcoder and the GPU layer made by [initialise] *)

Record Externals : Type := mkExternals {
  (** [demuxer(url)] *)
  ext_demuxer : string -> Foreign Demuxer;
  (** [demuxer.seek({ time })]: the packets left to read from the new
      position *)
  ext_seek : Demuxer -> Z -> Foreign (list Packet.t);
  (** [decoder({ demuxer, stream_index })] *)
  ext_decoder : Z -> Foreign Decoder;
  (** [filterer(options)] *)
  ext_filterer : FiltererOptions -> Foreign Filterer;
  (** [toRGBA.init()] *)
  ext_toRGBA_init : ToRGBA -> Foreign unit;
  (** [yadif.init()] *)
  ext_yadif_init : Yadif -> Foreign unit
}.

(** ** Stream discovery (initialise, the [forEach] over [demuxer.streams]) *)

Definition numAudChannels : nat := 8.
Definition numVidChannels : nat := 1.

(** The locals the loop fills, and [visited]: the streams of the demuxer in
    order, as the loop leaves them (its [discard] assignment applied). *)
Record Discovery : Type := mkDiscovery {
  audioStreams : list Stream.t;
  videoStreams : list Stream.t;
  audioIndexes : list Z;
  videoIndexes : list Z;
  decoders : gmap Z Decoder;
  visited : list Stream.t
}.

Definition Discovery_empty : Discovery := mkDiscovery [] [] [] [] ∅ [].

Definition discover_step (ext : Externals) (d : Discovery) (s : Stream.t)
    : Result Discovery :=
  if String.eqb (CodecPar.codec_type (Stream.codecpar s)) "audio"
     && (length (audioStreams d) <? numAudChannels)%nat
  then
    let s' := Stream.set_discard "default" s in
    dec ← external (ext_decoder ext (Stream.index s));
    Ok (mkDiscovery (audioStreams d ++ [s']) (videoStreams d)
          (audioIndexes d ++ [Stream.index s]) (videoIndexes d)
          (<[Stream.index s := dec]> (decoders d)) (visited d ++ [s']))
  else if String.eqb (CodecPar.codec_type (Stream.codecpar s)) "video"
     && (length (videoStreams d) <? numVidChannels)%nat
  then
    let s' := Stream.set_discard "default" s in
    dec ← external (ext_decoder ext (Stream.index s));
    Ok (mkDiscovery (audioStreams d) (videoStreams d ++ [s'])
          (audioIndexes d) (videoIndexes d ++ [Stream.index s])
          (<[Stream.index s := dec]> (decoders d)) (visited d ++ [s']))
  else
    Ok (mkDiscovery (audioStreams d) (videoStreams d)
          (audioIndexes d) (videoIndexes d) (decoders d)
          (visited d ++ [Stream.set_discard "all" s])).

Fixpoint discover_from (ext : Externals) (d : Discovery) (ss : list Stream.t)
    : Result Discovery :=
  match ss with
  | [] => Ok d
  | s :: ss' => d' ← discover_step ext d s; discover_from ext d' ss'
  end.

Definition discover (ext : Externals) (ss : list Stream.t) : Result Discovery :=
  discover_from ext Discovery_empty ss.

(** ** The audio path set up by [initialise] *)

(** [`${numAudChannels}c`] *)
Definition audLayout : string := pretty numAudChannels +:+ "c".

Definition audChanNames : list string :=
  ["FL"; "FR"; "FC"; "SL"; "SR"; "LFE"; "BL"; "BR"].

(** [audioStreams.every((s) => s.codecpar.channel_layout === 'mono')] *)
Definition allMono (audioStreams : list Stream.t) : bool :=
  forallb (fun s => String.eqb (CodecPar.channel_layout (Stream.codecpar s)) "mono")
    audioStreams.

(** The callback of [audioStreams.map((_s, i) => ...)]. *)
Definition audio_inParam (audioStreams : list Stream.t) (audStream : Stream.t)
    (i : nat) (_s : Stream.t) : AudioInputParam :=
  mkAudioInputParam
    ("in" +:+ pretty i +:+ ":a")
    (Stream.time_base audStream)
    (CodecPar.sample_rate (Stream.codecpar audStream))
    (CodecPar.format (Stream.codecpar audStream))
    (if allMono audioStreams then audChanNames !! i
     else Some (CodecPar.channel_layout (Stream.codecpar audStream))).

Definition audio_inParams (audioStreams : list Stream.t) (audStream : Stream.t)
    : list AudioInputParam :=
  imap (audio_inParam audioStreams audStream) audioStreams.

(** [inStr], to which the same callback appends [`[in${i}:a]`]. *)
Definition audio_inStr (audioStreams : list Stream.t) : string :=
  foldl (fun acc i => acc +:+ "[in" +:+ pretty i +:+ ":a]") ""
    (seq 0 (length audioStreams)).

Definition audio_outputParams : list AudioOutputParam :=
  [mkAudioOutputParam "out0:a" 48000 "s32" audLayout].

(** The options of the merging filter graph (at least one audio stream). *)
Definition merge_filterer_options (audioStreams : list Stream.t)
    (audStream : Stream.t) : FiltererOptions :=
  AudioFilterer (audio_inParams audioStreams audStream) audio_outputParams
    (audio_inStr audioStreams +:+ " amerge=inputs=" +:+ pretty (length audioStreams)
       +:+ ", asetnsamples=n=1024:p=1 [out0:a]").

(** The silent frame template built when there is no audio stream. *)
Definition make_silentFrame : Frame.t :=
  Frame.mk 1024 "s32" 0 48000 (Z.of_nat numAudChannels) audLayout
    [Buffer_alloc (1024 * Z.of_nat numAudChannels * 4)].

Arguments make_silentFrame : simpl never.

(** The options of the filter graph the silent frame is run through. *)
Definition silence_filterer_options : FiltererOptions :=
  AudioFilterer
    [mkAudioInputParam "in0:a" (1, 48000) 48000 "s32" (Some audLayout)]
    audio_outputParams
    "[in0:a] asetpts=N/SR/TB [out0:a]".

Arguments silence_filterer_options : simpl never.

(** ** The video path set up by [initialise] *)

(** [hay.includes(needle)] on strings. *)
Fixpoint includes (hay needle : string) : bool :=
  String.prefix needle hay ||
  match hay with
  | EmptyString => false
  | String _ rest => includes rest needle
  end.

Definition new_ToRGBA (r : Reader) : ToRGBA := mkToRGBA "709" "709" r.

(** The [switch (vidStream.codecpar.format)]: the converter chosen and the
    value [filterOutputFormat] has after it, or the error thrown. *)
Definition select_loader (width height : Z) (format : string)
    : Result (ToRGBA * string) :=
  if String.eqb format "yuv422p" then
    Ok (new_ToRGBA (yuv422p8Reader width height), format)
  else if String.eqb format "yuv422p10le" then
    Ok (new_ToRGBA (yuv422p10Reader width height), format)
  else if String.eqb format "v210" then
    Ok (new_ToRGBA (v210Reader width height), format)
  else if String.eqb format "rgba" then
    Ok (new_ToRGBA (rgba8Reader width height), format)
  else if String.eqb format "bgra" then
    Ok (new_ToRGBA (bgra8Reader width height), format)
  else if includes format "yuv" then
    Ok (new_ToRGBA (yuv422p10Reader width height), "yuv422p10le")
  else if includes format "rgb" then
    Ok (new_ToRGBA (rgba8Reader width height), "rgba")
  else
    Throw (PlainError
      ("Unsupported video format '" +:+ format +:+ "' from FFmpeg decoder")).

(** [`${n / 2}`] for an integer [n] small enough to print without an
    exponent: halving is exact, and an odd [n] prints with [.5]. *)
Definition half_toString (n : Z) : string :=
  if Z.even n then pretty (n / 2)%Z
  else (if (n <? 0)%Z then "-" else "") +:+ pretty (Z.abs n / 2)%Z +:+ ".5".

(** [`fps=fps=${chanTb[1] / 2}/${chanTb[0]}`] *)
Definition fps_filterSpec (chanTb : Z * Z) : string :=
  "fps=fps=" +:+ half_toString (snd chanTb) +:+ "/" +:+ pretty (fst chanTb).

Definition video_filterer_options (vidStream : Stream.t)
    (filterOutputFormat : string) (chanTb : Z * Z) : FiltererOptions :=
  VideoFilterer
    [mkVideoInputParam (Stream.time_base vidStream)
       (CodecPar.width (Stream.codecpar vidStream))
       (CodecPar.height (Stream.codecpar vidStream))
       (CodecPar.format (Stream.codecpar vidStream))
       (CodecPar.sample_aspect_ratio (Stream.codecpar vidStream))]
    [filterOutputFormat]
    (fps_filterSpec chanTb).

Definition new_Yadif (width height : Z) : Yadif :=
  mkYadif width height "send_field" "tff" "all".

(** ** The producer object *)

(** The stages of the redioactive graph, named as in [initialise]. *)
Inductive Stage : Type :=
| stage_demux
| stage_fork
| stage_silence
| stage_audPacketFilter
| stage_audDecode
| stage_audFilter
| stage_vidPacketFilter
| stage_vidDecode
| stage_vidFilter
| stage_vidLoader
| stage_vidProcess
| stage_vidDeint.

(** The locals of [initialise] that the stage functions close over. *)
Record Closure : Type := mkClosure {
  discovery : Discovery;
  silentFrame : option Frame.t;
  audFilterer : option Filterer;
  toRGBA : option ToRGBA;
  filterOutputFormat : string;
  vidFilterer : Filterer;
  yadif : option Yadif
}.

(** The fields of an [FFmpegProducer]; [closure] stands for the scope the
    stage functions were created in, [None] before [initialise] completes.
    A pipe ([audSource], [vidSource]) is given by its chain of stages. *)
Record FFmpegProducer : Type := mkFFmpegProducer {
  loadParams : LoadParams;
  demuxer : option Demuxer;
  audSource : option (list Stage);
  vidSource : option (list Stage);
  running : bool;
  paused : bool;
  closure : option Closure
}.

(** [new FFmpegProducer(loadParams, context)], which is all that
    [FFmpegProducerFactory.createProducer] does. *)
Definition createProducer (params : LoadParams) : FFmpegProducer :=
  mkFFmpegProducer params None None None true false None.

(** Truthiness of an optional number: defined and not zero. *)
Definition number_truthy (n : option Z) : bool :=
  match n with
  | Some z => negb (z =? 0)%Z
  | None => false
  end.

(** The video half of [initialise], from [const vidStream = videoStreams[0]]
    on. Reading [vidStream.codecpar] of an absent stream raises the
    runtime's TypeError (its message is the engine's, given here as Node 12
    words it). *)
Definition initialise_video (ext : Externals) (this : FFmpegProducer)
    (chanProperties : ChanProperties) (dmx : Demuxer) (d : Discovery)
    (silentFrame : option Frame.t) (audFilterer : Filterer)
    : Result FFmpegProducer :=
  match videoStreams d !! 0%nat with
  | None => Throw (TypeError_undefined "codecpar")
  | Some vidStream =>
      let width := CodecPar.width (Stream.codecpar vidStream) in
      let height := CodecPar.height (Stream.codecpar vidStream) in
      '(toRGBA, filterOutputFormat) ←
        select_loader width height (CodecPar.format (Stream.codecpar vidStream));
      external (ext_toRGBA_init ext toRGBA);;
      vidFilterer ← external (ext_filterer ext
        (video_filterer_options vidStream filterOutputFormat
           (videoTimebase chanProperties)));
      let yadif := new_Yadif width height in
      external (ext_yadif_init ext yadif);;
      Ok (mkFFmpegProducer (loadParams this) (Some dmx)
            (Some (if (0 <? length (audioStreams d))%nat
                   then [stage_demux; stage_fork; stage_audPacketFilter;
                         stage_audDecode; stage_audFilter]
                   else [stage_silence; stage_audFilter]))
            (Some [stage_demux; stage_fork; stage_vidPacketFilter;
                   stage_vidDecode; stage_vidFilter; stage_vidLoader;
                   stage_vidProcess; stage_vidDeint])
            (running this) (paused this)
            (Some (mkClosure d silentFrame (Some audFilterer) (Some toRGBA)
                     filterOutputFormat vidFilterer (Some yadif))))
  end.

(** The first half of [initialise], up to the audio filter graph: the
    demuxer (its streams as the discovery loop left them), what the loop
    found, the silent frame if one was made, and the audio filter graph. *)
Definition initialise_audio (ext : Externals) (this : FFmpegProducer)
    : Result (Demuxer * Discovery * option Frame.t * Filterer) :=
  dmx ← try_catch (external (ext_demuxer ext (url (loadParams this))))
          (fun err => Throw (InvalidProducerError (error_toString err)));
  rest ← (if number_truthy (seek (loadParams this))
          then external (ext_seek ext dmx (default 0%Z (seek (loadParams this))))
          else Ok (unread dmx));
  d ← discover ext (streams dmx);
  let dmx := mkDemuxer (visited d) rest in
  match audioStreams d !! 0%nat with
  | Some audStream =>
      audFilterer ← external (ext_filterer ext
        (merge_filterer_options (audioStreams d) audStream));
      Ok (dmx, d, None, audFilterer)
  | None =>
      let silentFrame := make_silentFrame in
      audFilterer ← external (ext_filterer ext silence_filterer_options);
      Ok (dmx, d, Some silentFrame, audFilterer)
  end.

(** [FFmpegProducer.initialise]: the producer as the call leaves it, or
    the error it throws. *)
Definition initialise (ext : Externals) (this : FFmpegProducer)
    (chanProperties : ChanProperties) : Result FFmpegProducer :=
  '(dmx, d, silentFrame, audFilterer) ← initialise_audio ext this;
  initialise_video ext this chanProperties dmx d silentFrame audFilterer.

Definition getSourceAudio (this : FFmpegProducer) : option (list Stage) :=
  audSource this.

Definition getSourceVideo (this : FFmpegProducer) : option (list Stage) :=
  vidSource this.

Definition setPaused (pause : bool) (this : FFmpegProducer) : FFmpegProducer :=
  mkFFmpegProducer (loadParams this) (demuxer this) (audSource this)
    (vidSource this) (running this) pause (closure this).

Definition release (this : FFmpegProducer) : FFmpegProducer :=
  mkFFmpegProducer (loadParams this) (demuxer this) (audSource this)
    (vidSource this) false (paused this) (closure this).

(** The factory as the registry sees it: [createProducer] then
    [initialise]. *)
Definition FFmpegProducerFactory (ext : Externals)
    : @Registry.ProducerFactory FFmpegProducer :=
  fun params chanProperties => initialise ext (createProducer params) chanProperties.

(** A factory of one producer class, seen as a factory of the [Producer]
    interface type [Q]. *)
Definition as_Producer {P Q : Type} (inj : P -> Q)
    (f : @Registry.ProducerFactory P) : @Registry.ProducerFactory Q :=
  fun params chanProperties =>
    match f params chanProperties with
    | Ok p => Ok (inj p)
    | Throw e => Throw e
    end.

(** The producers of the registry: those of the Macadam factory, whose
    class [M] is outside these sources, and FFmpeg producers. *)
Inductive AnyProducer (M : Type) : Type :=
| Macadam (m : M)
| FFmpeg (p : FFmpegProducer).
Arguments Macadam {M} m.
Arguments FFmpeg {M} p.

(** [producerFactories] as the constructor of [ProducerRegistry] fills it:
    the Macadam factory, then the FFmpeg factory. *)
Definition ProducerRegistry {M : Type} (macadam : @Registry.ProducerFactory M)
    (ext : Externals) : list (@Registry.ProducerFactory (AnyProducer M)) :=
  [as_Producer Macadam macadam; as_Producer FFmpeg (FFmpegProducerFactory ext)].

(** ** The stages of the pipeline *)

(** What a redioactive generator or valve hands on: a value, [nil] (nothing
    this time) or [end] (the terminal marker). *)
Inductive Redio (A : Type) : Type :=
| value (a : A)
| redio_nil
| redio_end.
Arguments value {A} a.
Arguments redio_nil {A}.
Arguments redio_end {A}.

(** What a stage declared [oneToMany] sends downstream for one return
    value: the elements of a returned array, nothing for [nil]. *)
Definition forwarded {A : Type} (r : Redio (list A)) : list A :=
  match r with
  | value l => l
  | _ => []
  end.

(** [indexes.includes(i)] on an array of numbers. *)
Definition array_includes (indexes : list Z) (i : Z) : bool :=
  existsb (Z.eqb i) indexes.

(** *** demux *)

(** The locals of one call of the [demux] generator. *)
Record DemuxLocals : Type := mkDemuxLocals {
  lastAudTimestamp : option Z;
  lastVidTimestamp : option Z;
  packets : list Packet.t;
  doBreak : bool
}.

Definition DemuxLocals_init : DemuxLocals := mkDemuxLocals None None [] false.

(** The body of [if (packet)] up to the two [packets.push(packet)]. *)
Definition demux_packet (audioIndexes videoIndexes : list Z)
    (l : DemuxLocals) (packet : Packet.t) : DemuxLocals :=
  if array_includes audioIndexes (Packet.stream_index packet) then
    if negb (number_truthy (lastAudTimestamp l)) then
      mkDemuxLocals (Some (Packet.pts packet)) (lastVidTimestamp l)
        (packets l ++ [packet]) (doBreak l)
    else if negb (bool_decide (Some (Packet.pts packet) = lastAudTimestamp l)) then
      mkDemuxLocals (lastAudTimestamp l) (lastVidTimestamp l)
        (packets l ++ [packet]) true
    else
      mkDemuxLocals (lastAudTimestamp l) (lastVidTimestamp l)
        (packets l ++ [packet]) (doBreak l)
  else if array_includes videoIndexes (Packet.stream_index packet) then
    if negb (number_truthy (lastVidTimestamp l)) then
      mkDemuxLocals (lastAudTimestamp l) (Some (Packet.pts packet))
        (packets l ++ [packet]) (doBreak l)
    else if negb (bool_decide (Some (Packet.pts packet) = lastVidTimestamp l)) then
      mkDemuxLocals (lastAudTimestamp l) (lastVidTimestamp l)
        (packets l ++ [packet]) true
    else
      mkDemuxLocals (lastAudTimestamp l) (lastVidTimestamp l)
        (packets l ++ [packet]) (doBreak l)
  else l.

(** The test that ends the [do ... while (!doneSet)] loop with a batch;
    [expected] is [audioStreams.length + videoStreams.length]. *)
Definition demux_done (expected : nat) (l : DemuxLocals) : bool :=
  doBreak l || (length (packets l) =? expected)%nat.

Definition mismatch_message (sent expected : nat) : string :=
  "Timestamp mismatch - sending " +:+ pretty sent +:+ " packets, "
    +:+ pretty expected +:+ " expected".

(** One run of a generator: what it returns, the packets its demuxer has
    still to deliver, and the console lines it wrote. *)
Record DemuxRun : Type := mkDemuxRun {
  demux_result : Redio (list Packet.t);
  demux_unread : list Packet.t;
  demux_console : list string
}.

(** The [do ... while (!doneSet)] loop over the packets the demuxer still
    holds: each iteration reads one; a read past the last one yields
    [null]. *)
Fixpoint demux_loop (audioIndexes videoIndexes : list Z) (expected : nat)
    (l : DemuxLocals) (src : list Packet.t) : DemuxRun :=
  match src with
  | [] => mkDemuxRun redio_end [] []
  | packet :: rest =>
      let l' := demux_packet audioIndexes videoIndexes l packet in
      if demux_done expected l' then
        mkDemuxRun (value (packets l')) rest
          (if doBreak l'
           then [mismatch_message (length (packets l')) expected]
           else [])
      else demux_loop audioIndexes videoIndexes expected l' rest
  end.

(** The [demux] generator: one call, on the producer [this]. *)
Definition demux (d : Discovery) (this : FFmpegProducer)
    : Redio (list Packet.t) * FFmpegProducer * list string :=
  match demuxer this with
  | Some dmx =>
      if running this then
        let r := demux_loop (audioIndexes d) (videoIndexes d)
                   (length (audioStreams d) + length (videoStreams d))%nat
                   DemuxLocals_init (unread dmx) in
        (demux_result r,
         mkFFmpegProducer (loadParams this)
           (Some (mkDemuxer (streams dmx) (demux_unread r)))
           (audSource this) (vidSource this) (running this) (paused this)
           (closure this),
         demux_console r)
      else
        (redio_end,
         mkFFmpegProducer (loadParams this) None (audSource this)
           (vidSource this) (running this) (paused this) (closure this),
         [])
  | None =>
      (redio_end,
       mkFFmpegProducer (loadParams this) None (audSource this)
         (vidSource this) (running this) (paused this) (closure this),
       [])
  end.

(** *** The packet filters at the head of each leg *)

Definition audPacketFilter (d : Discovery) (packets : Redio (list Packet.t))
    : Redio (list Packet.t) :=
  match packets with
  | value ps =>
      value (filter (fun p => Is_true (array_includes (audioIndexes d) (Packet.stream_index p))) ps)
  | other => other
  end.

Definition vidPacketFilter (d : Discovery) (packets : Redio (list Packet.t))
    : Redio (list Packet.t) :=
  match packets with
  | value ps =>
      value (filter (fun p => Is_true (array_includes (videoIndexes d) (Packet.stream_index p))) ps)
  | other => other
  end.

(** *** The audio leg of a source without audio streams *)

Record AudioChannel : Type := mkAudioChannel {
  name : string;
  frames : list (option Frame.t)
}.

(** The [silence] generator: one call, on the producer [this]. *)
Definition silence (cl : Closure) (this : FFmpegProducer)
    : Redio (list AudioChannel) * FFmpegProducer * list string :=
  (value [mkAudioChannel "in0:a" [silentFrame cl]], this, []).

(** A running audio filter graph: [filter] takes the channel groups and
    gives the frames of its one output ([ff[0].frames]) and the graph's
    next state. Its behaviour is beamcoder's. *)
Class AudioFilterGraph (G : Type) : Type :=
  graph_filter : G -> list AudioChannel -> G * list Frame.t.

(** What [audFilter] returns: a redioactive value of frames, or, were
    [audFilterer] null, its argument unchanged ([frames as RedioEnd]). *)
Inductive AudFilterReturn : Type :=
| aud_filtered (r : Redio (list Frame.t))
| aud_unfiltered (frames : list AudioChannel).

Definition audFilter {G : Type} `{AudioFilterGraph G} (audFilterer : option G)
    (frames : Redio (list AudioChannel)) : AudFilterReturn * option G :=
  match frames, audFilterer with
  | value fr, Some g =>
      let '(g', ff0) := graph_filter g fr in
      (aud_filtered (if (0 <? length ff0)%nat then value ff0 else redio_nil), Some g')
  | value fr, None => (aud_unfiltered fr, None)
  | redio_nil, _ => (aud_filtered redio_nil, audFilterer)
  | redio_end, _ => (aud_filtered redio_end, audFilterer)
  end.

(** One pull of [redio(silence).valve(audFilter, { oneToMany: true })]:
    the generator is called and its value goes through the valve. *)
Definition silent_leg_pull {G : Type} `{AudioFilterGraph G} (cl : Closure)
    (this : FFmpegProducer) (audFilterer : option G)
    : AudFilterReturn * option G * FFmpegProducer :=
  let '(v, this', _) := silence cl this in
  let '(r, g') := audFilter audFilterer v in
  (r, g', this').

(** *** vidDeint *)

Record OpenCLBuffer : Type := mkOpenCLBuffer {
  buffer_id : nat;
  timestamp : Z
}.

(** A running deinterlacer: [processFrame] gives the buffers it appends to
    the output list it is handed, and its next state. Its behaviour is that
    of process/yadif. *)
Class Deinterlacer (Y : Type) : Type :=
  processFrame : Y -> OpenCLBuffer -> Y * list OpenCLBuffer.

(** The state [vidDeint] acts on: the [yadif] local ([None] once set to
    [null]), the buffers [release()]d so far, oldest first, and the number
    of [yadif.release()] calls made. *)
Record DeintState (Y : Type) : Type := mkDeintState {
  deint_yadif : option Y;
  deint_released : list OpenCLBuffer;
  deint_yadif_releases : nat
}.
Arguments mkDeintState {Y} _ _ _.
Arguments deint_yadif {Y} _.
Arguments deint_released {Y} _.
Arguments deint_yadif_releases {Y} _.

(** The buffers [yadif?.processFrame(frame, yadifDests, ...)] leaves in
    the initially empty [yadifDests], and the deinterlacer afterwards. *)
Definition deint_process {Y : Type} `{Deinterlacer Y} (yadif : option Y)
    (frame : OpenCLBuffer) : option Y * list OpenCLBuffer :=
  match yadif with
  | Some y => let '(y', yadifDests) := processFrame y frame in (Some y', yadifDests)
  | None => (None, [])
  end.

Definition is_Some_b {A : Type} (o : option A) : bool :=
  match o with
  | Some _ => true
  | None => false
  end.

Definition vidDeint {Y : Type} `{Deinterlacer Y} (s : DeintState Y)
    (frame : Redio OpenCLBuffer) : Redio (list OpenCLBuffer) * DeintState Y :=
  match frame with
  | value frame =>
      let '(yadif', yadifDests) := deint_process (deint_yadif s) frame in
      (if (1 <? length yadifDests)%nat then value yadifDests else redio_nil,
       mkDeintState yadif' (deint_released s ++ [frame]) (deint_yadif_releases s))
  | redio_nil =>
      (redio_nil,
       mkDeintState None (deint_released s)
         (deint_yadif_releases s + (if is_Some_b (deint_yadif s) then 1 else 0))%nat)
  | redio_end =>
      (redio_end,
       mkDeintState None (deint_released s)
         (deint_yadif_releases s + (if is_Some_b (deint_yadif s) then 1 else 0))%nat)
  end.

(** *** audDecode and vidDecode *)

(** The error of reading property [prop] of [null]. *)
Definition TypeError_null (prop : string) : JsError :=
  mkJsError TypeErrorClass "TypeError"
    ("Cannot read property '" +:+ prop +:+ "' of null").

(** What the decoders do is beamcoder's: [decode] gives the frames of a
    packet or throws, and may change the state [W] of the codecs. *)
Class CodecLibrary (W : Type) : Type :=
  codec_decode : W -> Decoder -> Packet.t -> W * Foreign (list Frame.t).

(** [packets.map((p) => (decoders.get(p.stream_index) as Decoder).decode(p))]:
    the decode calls made, oldest first, each with its completion. A
    packet without a decoder in the map throws out of the [map] at once, a
    decode that fails does not. *)
Fixpoint start_decodes {W : Type} `{CodecLibrary W} (decoders : gmap Z Decoder)
    (w : W) (packets : list Packet.t) : W * Result (list (Foreign (list Frame.t))) :=
  match packets with
  | [] => (w, Ok [])
  | p :: rest =>
      match decoders !! Packet.stream_index p with
      | None => (w, Throw (TypeError_undefined "decode"))
      | Some dec =>
          let '(w1, r) := codec_decode w dec p in
          let '(w2, started) := start_decodes decoders w1 rest in
          (w2, match started with
               | Ok rs => Ok (r :: rs)
               | Throw e => Throw e
               end)
      end
  end.

(** [await Promise.all(promises)]: the values, or the failure of the
    promise that failed first, the promises being taken to settle in the
    order of the array. *)
Fixpoint Promise_all {A : Type} (promises : list (Foreign A)) : Result (list A) :=
  match promises with
  | [] => Ok []
  | c :: rest =>
      a ← external c;
      as_ ← Promise_all rest;
      Ok (a :: as_)
  end.

Definition audDecode {W : Type} `{CodecLibrary W} (d : Discovery) (w : W)
    (packets : Redio (list Packet.t)) : W * Result (Redio (list AudioChannel)) :=
  match packets with
  | value ps =>
      let '(w', started) := start_decodes (decoders d) w ps in
      (w',
       promises ← started;
       frames ← Promise_all promises;
       Ok (value (imap (fun i f => mkAudioChannel ("in" +:+ pretty i +:+ ":a") (Some <$> f))
                    frames)))
  | redio_nil => (w, Ok redio_nil)
  | redio_end => (w, Ok redio_end)
  end.

Definition vidDecode {W : Type} `{CodecLibrary W} (d : Discovery) (w : W)
    (packets : Redio (list Packet.t)) : W * Result (Redio (list Frame.t)) :=
  match packets with
  | value ps =>
      match ps !! 0%nat with
      | None => (w, Throw (TypeError_undefined "stream_index"))
      | Some p0 =>
          match decoders d !! Packet.stream_index p0 with
          | None => (w, Throw (TypeError_undefined "decode"))
          | Some dec =>
              let '(w', r) := codec_decode w dec p0 in
              (w',
               frm ← external r;
               Ok (if (0 <? length frm)%nat then value frm else redio_nil))
          end
      end
  | redio_nil => (w, Ok redio_nil)
  | redio_end => (w, Ok redio_end)
  end.

(** *** vidLoader and vidProcess *)

(** The colour converter of process/io ([ToRGBA]) at work: the buffers it
    makes and the state [T] it keeps are nodencl's, and each call
    completes or throws. [loadFrame] and [convert_processFrame] stand for
    the call and the wait for its queue that follows it. *)
Class ColourConverter (T : Type) : Type := {
  createSources : T -> Foreign (T * list OpenCLBuffer);
  loadFrame : T -> list Buffer -> list OpenCLBuffer -> Foreign T;
  createDest : T -> Z -> Z -> Foreign (T * OpenCLBuffer);
  convert_processFrame : T -> list OpenCLBuffer -> OpenCLBuffer -> Foreign T
}.

(** The state the two stages act on: the [toRGBA] local ([None] once set
    to [null]) and the buffers [release()]d so far, oldest first. *)
Record ConvState (T : Type) : Type := mkConvState {
  conv_toRGBA : option T;
  conv_released : list OpenCLBuffer
}.
Arguments mkConvState {T} _ _.
Arguments conv_toRGBA {T} _.
Arguments conv_released {T} _.

(** [s.timestamp = t] *)
Definition set_timestamp (t : Z) (s : OpenCLBuffer) : OpenCLBuffer :=
  mkOpenCLBuffer (buffer_id s) t.

Definition vidLoader {T : Type} `{ColourConverter T} (st : ConvState T)
    (frame : Redio Frame.t) : Result (Redio (list OpenCLBuffer) * ConvState T) :=
  match frame with
  | value frame =>
      match conv_toRGBA st with
      | None => Throw (TypeError_null "createSources")
      | Some convert =>
          '(convert, clSources) ← external (createSources convert);
          let clSources := set_timestamp (Frame.pts frame) <$> clSources in
          convert ← external (loadFrame convert (Frame.data frame) clSources);
          Ok (value clSources, mkConvState (Some convert) (conv_released st))
      end
  | redio_nil => Ok (redio_nil, st)
  | redio_end => Ok (redio_end, st)
  end.

Definition vidProcess {T : Type} `{ColourConverter T} (width height : Z)
    (st : ConvState T) (clSources : Redio (list OpenCLBuffer))
    : Result (Redio OpenCLBuffer * ConvState T) :=
  match clSources with
  | value clSources =>
      match conv_toRGBA st with
      | None => Throw (TypeError_null "createDest")
      | Some convert =>
          '(convert, clDest) ← external (createDest convert width height);
          match clSources !! 0%nat with
          | None => Throw (TypeError_undefined "timestamp")
          | Some s0 =>
              let clDest := set_timestamp (timestamp s0) clDest in
              convert ← external (convert_processFrame convert clSources clDest);
              Ok (value clDest,
                  mkConvState (Some convert) (conv_released st ++ clSources))
          end
      end
  | redio_nil => Ok (redio_nil, mkConvState None (conv_released st))
  | redio_end => Ok (redio_end, mkConvState None (conv_released st))
  end.

(** ** Static configuration (config.ts) *)

Module VideoFormat.
Record t : Type := mk {
  name : string;
  fields : Z;
  width : Z;
  height : Z;
  squareWidth : Z;
  squareHeight : Z;
  timescale : Z;
  duration : Z;
  audioSampleRate : Z
}.
End VideoFormat.

Module VideoFormats.

(** The [formats] map as the constructor fills it. *)
Definition new : gmap string VideoFormat.t :=
  <["1080p5000" := VideoFormat.mk "1080p5000" 1 1920 1080 1920 1080 50 1 48000]>
    (<["1080i5000" := VideoFormat.mk "1080i5000" 2 1920 1080 1920 1080 50 1 48000]> ∅).

Definition get (formats : gmap string VideoFormat.t) (name : string)
    : Result VideoFormat.t :=
  match formats !! name with
  | Some format => Ok format
  | None => Throw (PlainError ("Video format " +:+ name +:+ " not found"))
  end.

End VideoFormats.

(** The values of a device configuration object. *)
Inductive JsValue : Type :=
| JsString (s : string)
| JsNumber (n : Z)
| JsBoolean (b : bool).

(** [Object.assign(target, source)] on objects as maps from keys to
    values: the keys of [source] are set on [target]. *)
Definition Object_assign (target source : gmap string JsValue) : gmap string JsValue :=
  source ∪ target.

Definition decklinkDefaults : gmap string JsValue :=
  list_to_map
    [("name", JsString "decklink"); ("deviceIndex", JsNumber 1);
     ("keyDeviceIndex", JsNumber 0); ("embeddedAudio", JsBoolean false);
     ("latency", JsString "normal"); ("keyer", JsString "external");
     ("keyOnly", JsBoolean false); ("bufferDepth", JsNumber 3)].

Module ConsumerConfig.
Record t : Type := mk {
  format : VideoFormat.t;
  device : gmap string JsValue
}.
End ConsumerConfig.

Module Config.

Record t : Type := mk {
  videoFormats : gmap string VideoFormat.t;
  consumers : list ConsumerConfig.t
}.

(** One element of the [consumers] literal: they differ in [deviceIndex]
    only. [{ ...decklinkDefaults }] is a fresh copy of the defaults. *)
Definition consumer (videoFormats : gmap string VideoFormat.t) (deviceIndex : Z)
    : Result ConsumerConfig.t :=
  format ← VideoFormats.get videoFormats "1080i5000";
  Ok (ConsumerConfig.mk format
        (Object_assign decklinkDefaults
           (list_to_map [("deviceIndex", JsNumber deviceIndex);
                         ("embeddedAudio", JsBoolean true)]))).

(** The constructor. *)
Definition new : Result t :=
  let videoFormats := VideoFormats.new in
  c1 ← consumer videoFormats 1;
  c2 ← consumer videoFormats 2;
  c3 ← consumer videoFormats 3;
  c4 ← consumer videoFormats 4;
  Ok (mk videoFormats [c1; c2; c3; c4]).

End Config.

(** ** The basic AMCP commands (AMCP/basicCmds.ts) *)

Module ChanLayer.
Record t : Type := mk {
  valid : bool;
  channel : Z;
  layer : Z
}.
End ChanLayer.

(** JavaScript numbers as the commands make them: from a literal, or from
    a string by unary plus, whose conversion (StringToNumber) is the
    language's. *)
Class NumberOps (N : Type) : Type := {
  number_of_Z : Z -> N;
  NaN : N;
  StringToNumber : string -> N
}.

(** [+v] for [v] a string or [undefined]. *)
Definition unary_plus {N : Type} `{NumberOps N} (v : option string) : N :=
  match v with
  | Some s => StringToNumber s
  | None => NaN
  end.

(** The load parameters as the commands build them; a field left out of
    the object literal is [None]. *)
Module CmdLoadParams.
Record t (N : Type) : Type := mk {
  url : option string;
  channel : option N;
  loop : option bool;
  autoPlay : option bool;
  seek : option N
}.
Arguments mk {N} _ _ _ _ _.
Arguments url {N} _.
Arguments channel {N} _.
Arguments loop {N} _.
Arguments autoPlay {N} _.
Arguments seek {N} _.
End CmdLoadParams.

(** The methods of [Channel] (channel.ts) the commands call, on a channel
    in state [C]: each completes with its value and the channel's next
    state, or throws. *)
Module Channel.
Class Ops (N C : Type) : Type := {
  loadSource : C -> Z -> CmdLoadParams.t N -> bool -> Foreign (bool * C);
  play : C -> Z -> Foreign (bool * C);
  pause : C -> Z -> Foreign C;
  resume : C -> Z -> Foreign C;
  stop : C -> Z -> Foreign C;
  clear : C -> Z -> Foreign C
}.
End Channel.

(** [Array.prototype.find] with a callback that may assign to a variable
    it captures, of value [s]: the element found, and the variable
    afterwards. *)
Fixpoint Array_find {A V : Type} (callback : V -> A -> nat -> V * bool) (s : V)
    (l : list A) (i : nat) : option A * V :=
  match l with
  | [] => (None, s)
  | x :: rest =>
      let '(s', found) := callback s x i in
      if found then (Some x, s') else Array_find callback s' rest (S i)
  end.

Module BasicCmds.
Section BasicCmds.

Context {N C : Type} `{NumberOps N} `{Channel.Ops N C}.

(** [this.channels[i]] for an integer [i]. *)
Definition channel_at (channels : list C) (i : Z) : option C :=
  if (i <? 0)%Z then None else channels !! Z.to_nat i.

(** [this.channels[chanLay.channel - 1].m(...)]: the method [m] of name
    [prop] called on the addressed channel, which the call may change. *)
Definition on_channel {A : Type} (channels : list C) (chanLay : ChanLayer.t)
    (prop : string) (m : C -> Foreign (A * C)) : Result (A * list C) :=
  match channel_at channels (ChanLayer.channel chanLay - 1) with
  | None => Throw (TypeError_undefined prop)
  | Some c =>
      '(a, c') ← external (m c);
      Ok (a, <[Z.to_nat (ChanLayer.channel chanLay - 1) := c']> channels)
  end.

(** A method whose result the command does not use. *)
Definition returning_unit (m : C -> Foreign C) (c : C) : Foreign (unit * C) :=
  match m c with
  | Returns c' => Returns (tt, c')
  | Throws n msg => Throws n msg
  end.

Definition loadbg (channels : list C) (chanLay : ChanLayer.t) (params : list string)
    : Result (bool * list C) :=
  if negb (ChanLayer.valid chanLay) then Ok (false, channels)
  else
    let curParam := 0%nat in
    let clip := params !! 0%nat in
    let channel :=
      if bool_decide (clip = Some "DECKLINK")
      then unary_plus (params !! (curParam + 1)%nat)
      else number_of_Z 0 in
    let loop :=
      is_Some_b (fst (Array_find (fun s param _ => (s, String.eqb param "LOOP"))
                        tt params 0)) in
    let autoPlay :=
      is_Some_b (fst (Array_find (fun s param _ => (s, String.eqb param "AUTO"))
                        tt params 0)) in
    let '(found, curParam) :=
      Array_find (fun _ param i => (i, String.eqb param "SEEK")) curParam params 0 in
    let seek :=
      if is_Some_b found then unary_plus (params !! (curParam + 1)%nat)
      else number_of_Z 0 in
    let loadParams :=
      CmdLoadParams.mk clip (Some channel) (Some loop) (Some autoPlay) (Some seek) in
    on_channel channels chanLay "loadSource"
      (fun c => Channel.loadSource c (ChanLayer.layer chanLay) loadParams false).

Definition load (channels : list C) (chanLay : ChanLayer.t) (params : list string)
    : Result (bool * list C) :=
  if negb (ChanLayer.valid chanLay) then Ok (false, channels)
  else
    on_channel channels chanLay "loadSource"
      (fun c => Channel.loadSource c (ChanLayer.layer chanLay)
                  (CmdLoadParams.mk (params !! 0%nat) None None None None) true).

Definition play (channels : list C) (chanLay : ChanLayer.t) (params : list string)
    : Result (bool * list C) :=
  if negb (ChanLayer.valid chanLay) then Ok (false, channels)
  else
    channels ← (if negb (length params =? 0)%nat
                then '(_, channels') ← loadbg channels chanLay params; Ok channels'
                else Ok channels);
    on_channel channels chanLay "play"
      (fun c => Channel.play c (ChanLayer.layer chanLay)).

Definition pause (channels : list C) (chanLay : ChanLayer.t) (_params : list string)
    : Result (bool * list C) :=
  if negb (ChanLayer.valid chanLay) then Ok (false, channels)
  else
    '(_, channels') ← on_channel channels chanLay "pause"
      (returning_unit (fun c => Channel.pause c (ChanLayer.layer chanLay)));
    Ok (true, channels').

Definition resume (channels : list C) (chanLay : ChanLayer.t) (_params : list string)
    : Result (bool * list C) :=
  if negb (ChanLayer.valid chanLay) then Ok (false, channels)
  else
    '(_, channels') ← on_channel channels chanLay "resume"
      (returning_unit (fun c => Channel.resume c (ChanLayer.layer chanLay)));
    Ok (true, channels').

Definition stop (channels : list C) (chanLay : ChanLayer.t) (_params : list string)
    : Result (bool * list C) :=
  if negb (ChanLayer.valid chanLay) then Ok (false, channels)
  else
    '(_, channels') ← on_channel channels chanLay "stop"
      (returning_unit (fun c => Channel.stop c (ChanLayer.layer chanLay)));
    Ok (true, channels').

Definition clear (channels : list C) (chanLay : ChanLayer.t) (_params : list string)
    : Result (bool * list C) :=
  if negb (ChanLayer.valid chanLay) then Ok (false, channels)
  else
    '(_, channels') ← on_channel channels chanLay "clear"
      (returning_unit (fun c => Channel.clear c (ChanLayer.layer chanLay)));
    Ok (true, channels').

(** [list().entries]: the command names with the methods bound to them. *)
Definition entries
    : list (string * (list C -> ChanLayer.t -> list string -> Result (bool * list C))) :=
  [("LOADBG", loadbg); ("LOAD", load); ("PLAY", play); ("PAUSE", pause);
   ("RESUME", resume); ("STOP", stop); ("CLEAR", clear)].

End BasicCmds.
End BasicCmds.

(** * Vocabulary of the statements *)

(** ** The registry *)

(** [g] fails on the input with the not-recognized error [e]. *)
Definition not_recognized {Producer : Type} (params : LoadParams)
    (chanProperties : ChanProperties)
    (g : @Registry.ProducerFactory Producer) (e : JsError) : Prop :=
  g params chanProperties = Throw e /\ instanceof_InvalidProducerError e = true.

(** [producerErr] after the errors [errs] were caught in turn. *)
Definition last_message (errs : list JsError) (producerErr : string) : string :=
  List.last (map err_message errs) producerErr.

(** ** Stream discovery *)

Definition is_audio (s : Stream.t) : bool :=
  String.eqb (CodecPar.codec_type (Stream.codecpar s)) "audio".

Definition is_video (s : Stream.t) : bool :=
  String.eqb (CodecPar.codec_type (Stream.codecpar s)) "video".

(** The audio streams a source offers for selection: its first eight. *)
Definition first_audio (ss : list Stream.t) : list Stream.t :=
  take numAudChannels (filter (fun s => Is_true (is_audio s)) ss).

(** The video streams a source offers for selection: its first one. *)
Definition first_video (ss : list Stream.t) : list Stream.t :=
  take numVidChannels (filter (fun s => Is_true (is_video s)) ss).

(** The stream [s] at position [i] of [ss] is one of the first eight audio
    streams or the first video stream of [ss]. *)
Definition selected_at (ss : list Stream.t) (i : nat) (s : Stream.t) : bool :=
  (is_audio s &&
   (length (filter (fun s => Is_true (is_audio s)) (take i ss)) <? numAudChannels)%nat)
  || (is_video s &&
      (length (filter (fun s => Is_true (is_video s)) (take i ss)) <? numVidChannels)%nat).

(** What [discard] is set to for it. *)
Definition discard_label (ss : list Stream.t) (i : nat) (s : Stream.t) : string :=
  if selected_at ss i s then "default" else "all".

(** What the loop has established once it has gone through [done]. *)
Record discovered (ext : Externals) (done : list Stream.t) (d : Discovery)
    : Prop := mkDiscovered {
  disc_audio : audioStreams d = Stream.set_discard "default" <$> first_audio done;
  disc_video : videoStreams d = Stream.set_discard "default" <$> first_video done;
  disc_aidx : audioIndexes d = Stream.index <$> first_audio done;
  disc_vidx : videoIndexes d = Stream.index <$> first_video done;
  disc_dom : dom (decoders d) =@{gset Z} list_to_set (audioIndexes d ++ videoIndexes d);
  disc_dec : forall i dec, decoders d !! i = Some dec -> ext_decoder ext i = Returns dec;
  disc_len : length (visited d) = length done;
  disc_visited : forall i s, done !! i = Some s ->
    visited d !! i = Some (Stream.set_discard (discard_label done i s) s)
}.

(** ** Pixel formats *)

(** The formats with a case of their own in the [switch]. *)
Definition native_formats : list string :=
  ["yuv422p"; "yuv422p10le"; "v210"; "rgba"; "bgra"].

(** The reader [select_loader] pairs with a native format. *)
Definition native_reader (width height : Z) (format : string) : option Reader :=
  if String.eqb format "yuv422p" then Some (yuv422p8Reader width height)
  else if String.eqb format "yuv422p10le" then Some (yuv422p10Reader width height)
  else if String.eqb format "v210" then Some (v210Reader width height)
  else if String.eqb format "rgba" then Some (rgba8Reader width height)
  else if String.eqb format "bgra" then Some (bgra8Reader width height)
  else None.

(** The error of the [default] case for a format of neither family. *)
Definition unsupported_format_error (format : string) : JsError :=
  PlainError ("Unsupported video format '" +:+ format +:+ "' from FFmpeg decoder").

(** ** The demux stage *)

(** The packet is one of a selected stream. *)
Definition selected_packet (audioIndexes videoIndexes : list Z) (p : Packet.t)
    : bool :=
  array_includes audioIndexes (Packet.stream_index p)
  || array_includes videoIndexes (Packet.stream_index p).

(** The locals after the packets [pre] have been read in turn. *)
Definition scan (audioIndexes videoIndexes : list Z) (l : DemuxLocals)
    (pre : list Packet.t) : DemuxLocals :=
  foldl (demux_packet audioIndexes videoIndexes) l pre.

(** The packet's timestamp differs from the timestamp recorded for its
    leg, one being recorded when the variable holds a non-zero number. *)
Definition timestamp_mismatch (audioIndexes videoIndexes : list Z)
    (l : DemuxLocals) (p : Packet.t) : bool :=
  if array_includes audioIndexes (Packet.stream_index p) then
    number_truthy (lastAudTimestamp l)
    && negb (bool_decide (Some (Packet.pts p) = lastAudTimestamp l))
  else if array_includes videoIndexes (Packet.stream_index p) then
    number_truthy (lastVidTimestamp l)
    && negb (bool_decide (Some (Packet.pts p) = lastVidTimestamp l))
  else false.

(** No read within [pre] ends the loop that starts from [l]. *)
Definition quiet (audioIndexes videoIndexes : list Z) (expected : nat)
    (l : DemuxLocals) (pre : list Packet.t) : Prop :=
  forall pre1 q post1, pre = pre1 ++ q :: post1 ->
    demux_done expected (scan audioIndexes videoIndexes l (pre1 ++ [q])) = false.

(** The batch holds exactly one packet of each selected stream. *)
Definition one_packet_per_stream (d : Discovery) (batch : list Packet.t) : Prop :=
  forall i, i ∈ audioIndexes d ++ videoIndexes d ->
    length (filter (fun p => Packet.stream_index p = i) batch) = 1%nat.

(** ** The deinterlace stage *)

(** The stage hands on every buffer the deinterlacer appended for
    [frame]. *)
Definition forwards_all_appended {Y : Type} `{Deinterlacer Y} (y : Y)
    (s : DeintState Y) (frame : OpenCLBuffer) : Prop :=
  forwarded (fst (vidDeint s (value frame))) = snd (processFrame y frame).

(** What was discovered for the producer [p], as its stage functions see
    it. *)
Definition discovery_of (p : FFmpegProducer) : Discovery :=
  match closure p with
  | Some cl => discovery cl
  | None => Discovery_empty
  end.

(** [n] calls of the [demux] generator in a row, as the pipe that pulls
    from it makes them: what they returned, oldest first, and the producer
    afterwards. *)
Fixpoint demux_calls (n : nat) (d : Discovery) (this : FFmpegProducer)
    : list (Redio (list Packet.t)) * FFmpegProducer :=
  match n with
  | O => ([], this)
  | S n' =>
      let '(r, this', _) := demux d this in
      let '(rs, this'') := demux_calls n' d this' in
      (r :: rs, this'')
  end.

(** A timestamp is recorded only together with a packet. *)
Definition recorded_with_packet (l : DemuxLocals) : Prop :=
  number_truthy (lastAudTimestamp l) = true \/ number_truthy (lastVidTimestamp l) = true ->
  (1 <= length (packets l))%nat.

(** The packets of [pre] that the loop takes for the audio leg, and those
    it takes for the video leg: it tests the audio indexes first. *)
Definition audio_leg (audioIndexes : list Z) (pre : list Packet.t) : list Packet.t :=
  filter (fun p => Is_true (array_includes audioIndexes (Packet.stream_index p))) pre.

Definition video_leg (audioIndexes videoIndexes : list Z) (pre : list Packet.t)
    : list Packet.t :=
  filter (fun p => Is_true (negb (array_includes audioIndexes (Packet.stream_index p))
                            && array_includes videoIndexes (Packet.stream_index p)))
    pre.

(** The timestamp on record for a leg once its packets [leg] were read in
    this call: that of the first of them whose timestamp is not 0; failing
    that 0, or nothing when the leg had no packet. *)
Definition recorded_timestamp (leg : list Packet.t) : option Z :=
  match filter (fun p => Packet.pts p <> 0) leg with
  | p :: _ => Some (Packet.pts p)
  | [] => match leg with
          | [] => None
          | _ :: _ => Some 0
          end
  end.

(** The timestamp of [p] differs from the first timestamp other than 0
    among the packets [leg] of its leg read before it. *)
Definition leg_mismatch (leg : list Packet.t) (p : Packet.t) : bool :=
  match filter (fun q => Packet.pts q <> 0) leg with
  | q :: _ => negb (Packet.pts p =? Packet.pts q)%Z
  | [] => false
  end.

(** The packet [p], read after the packets [pre] of this call, is a
    timestamp mismatch. *)
Definition mismatch_after (audioIndexes videoIndexes : list Z) (pre : list Packet.t)
    (p : Packet.t) : bool :=
  if array_includes audioIndexes (Packet.stream_index p)
  then leg_mismatch (audio_leg audioIndexes pre) p
  else if array_includes videoIndexes (Packet.stream_index p)
  then leg_mismatch (video_leg audioIndexes videoIndexes pre) p
  else false.

(** The state of the codecs once the packets [ps] were handed in turn to
    the decoders the map holds for their streams. *)
Fixpoint codecs_after {W : Type} `{CodecLibrary W} (decoders : gmap Z Decoder)
    (w : W) (ps : list Packet.t) : W :=
  match ps with
  | [] => w
  | p :: rest =>
      match decoders !! Packet.stream_index p with
      | Some dec => codecs_after decoders (fst (codec_decode w dec p)) rest
      | None => w
      end
  end.

(** ** The AMCP commands *)

(** The load parameters LOADBG makes of the words of a command, read off
    the words. *)
Definition loadbg_words {N : Type} `{NumberOps N} (params : list string)
    : CmdLoadParams.t N :=
  CmdLoadParams.mk
    (params !! 0%nat)
    (Some (if bool_decide (params !! 0%nat = Some "DECKLINK")
           then unary_plus (params !! 1%nat) else number_of_Z 0))
    (Some (bool_decide ("LOOP" ∈ params)))
    (Some (bool_decide ("AUTO" ∈ params)))
    (Some (match list_find (fun p => p = "SEEK") params with
           | Some (i, _) => unary_plus (params !! S i)
           | None => number_of_Z 0
           end)).

(** * Example inputs *)

(** Streams as a demuxer describes them. *)
Definition audio_stream (i : Z) (layout : string) : Stream.t :=
  Stream.mk i (CodecPar.mk "audio" layout 48000 "fltp" 0 0 (0, 1)) (1, 48000) "default".

Definition video_stream (i : Z) (format : string) : Stream.t :=
  Stream.mk i (CodecPar.mk "video" "" 0 format 1920 1080 (1, 1)) (1, 25) "default".

Definition subtitle_stream (i : Z) : Stream.t :=
  Stream.mk i (CodecPar.mk "subtitle" "" 0 "" 0 0 (0, 1)) (1, 1000) "default".

(** Externals that open every locator as the demuxer [dmx] and whose other
    calls all return. *)
Definition returning (dmx : Demuxer) : Externals :=
  mkExternals (fun _ => Returns dmx) (fun d _ => Returns (unread d))
    (fun i => Returns (mkDecoder i)) (fun o => Returns (mkFilterer o))
    (fun _ => Returns tt) (fun _ => Returns tt).

(** Externals whose demuxer opens nothing. *)
Definition unopenable : Externals :=
  mkExternals (fun _ => Throws "Error" "Problem opening input format")
    (fun d _ => Returns (unread d))
    (fun i => Returns (mkDecoder i)) (fun o => Returns (mkFilterer o))
    (fun _ => Returns tt) (fun _ => Returns tt).

Definition clip_params : LoadParams := mkLoadParams "clip.mxf" None.
Definition pal : ChanProperties := mkChanProperties (1, 50).

(** A clip with a video stream and two mono audio streams, and its first
    packets. *)
Definition stereo_clip : Demuxer :=
  mkDemuxer [video_stream 0 "yuv422p10le"; audio_stream 1 "mono"; audio_stream 2 "mono"]
    [Packet.mk 1 0; Packet.mk 2 1024; Packet.mk 0 0; Packet.mk 1 1024].

(** A clip with one audio stream and no video stream. *)
Definition audio_only_clip : Demuxer :=
  mkDemuxer [audio_stream 0 "stereo"] [Packet.mk 0 0].

(** A clip whose video stream has a pixel format of neither family. *)
Definition gray_clip : Demuxer :=
  mkDemuxer [video_stream 0 "gray"; audio_stream 1 "stereo"] [].

(** A clip with a video stream and no audio stream. *)
Definition mute_clip : Demuxer :=
  mkDemuxer [video_stream 0 "yuv420p"] [Packet.mk 0 0; Packet.mk 0 1].

(** Three factories of a registry whose producers are numbers. *)
Definition device_absent : @Registry.ProducerFactory nat :=
  fun _ _ => Throw (InvalidProducerError "no such device").

Definition opens_as (n : nat) : @Registry.ProducerFactory nat :=
  fun _ _ => Ok n.

Definition breaks : @Registry.ProducerFactory nat :=
  fun _ _ => Throw (PlainError "out of memory").

(** Nine audio streams, two video streams and a subtitle stream. *)
Definition twelve_streams : list Stream.t :=
  [audio_stream 0 "mono"; audio_stream 1 "mono"; subtitle_stream 2;
   video_stream 3 "yuv420p"; audio_stream 4 "mono"; audio_stream 5 "mono";
   video_stream 6 "yuv420p"; audio_stream 7 "mono"; audio_stream 8 "mono";
   audio_stream 9 "mono"; audio_stream 10 "mono"; audio_stream 11 "mono"].

(** The producer [initialise] makes of the clip [dmx], all external calls
    returning. *)
Definition initialised (dmx : Demuxer) : FFmpegProducer :=
  match initialise (returning dmx) (createProducer clip_params) pal with
  | Ok p => p
  | Throw _ => createProducer clip_params
  end.

(** A clip with a video stream (index 0) and one audio stream (index 1). *)
Definition av_clip (unread : list Packet.t) : Demuxer :=
  mkDemuxer [video_stream 0 "yuv422p"; audio_stream 1 "stereo"] unread.

(** One audio and one video stream; two audio packets with the same
    timestamp come first. *)
Definition repeated_audio : FFmpegProducer :=
  initialised (av_clip [Packet.mk 1 5; Packet.mk 1 5]).

(** The same streams; the first audio packet has timestamp 0. *)
Definition zero_start_audio : FFmpegProducer :=
  initialised (av_clip [Packet.mk 1 0; Packet.mk 1 1024]).

(** Two audio streams and a video stream; an audio packet and a video
    packet with different timestamps, then nothing. *)
Definition offset_legs : FFmpegProducer :=
  initialised (mkDemuxer (streams stereo_clip) [Packet.mk 1 5; Packet.mk 0 7]).

(** A deinterlacer in field-output mode, as far as its output count goes:
    it holds the previous buffer and, once it has one, appends the two
    fields of the buffer it is given. *)
#[local] Instance field_pairs : Deinterlacer (option OpenCLBuffer) :=
  fun prev frame =>
    (Some frame,
     match prev with
     | None => []
     | Some _ =>
         [mkOpenCLBuffer (2 * buffer_id frame) (timestamp frame);
          mkOpenCLBuffer (2 * buffer_id frame + 1) (timestamp frame)]
     end).

(** A deinterlacer in frame-output mode: one buffer out per buffer in. *)
#[local] Instance frame_rate : Deinterlacer unit :=
  fun _ frame => (tt, [mkOpenCLBuffer (S (buffer_id frame)) (timestamp frame)]).

(** The graph [[in0:a] asetpts=N/SR/TB [out0:a]] at time base 1/48000:
    frames pass through, stamped with the number of samples that went
    before them. The state is that number. *)
#[local] Instance asetpts : AudioFilterGraph Z :=
  fun n channels =>
    foldl (fun '(n, out) f =>
             match f with
             | Some f =>
                 ((n + Frame.nb_samples f)%Z,
                  out ++ [Frame.mk (Frame.nb_samples f) (Frame.format f) n
                            (Frame.sample_rate f) (Frame.channels f)
                            (Frame.channel_layout f) (Frame.data f)])
             | None => (n, out)
             end)
      (n, []) (concat (frames <$> channels)).

(** What the stage functions of a producer close over (the closure of a
    producer that was not initialised is of no interest). *)
Definition closure_of (p : FFmpegProducer) : Closure :=
  match closure p with
  | Some cl => cl
  | None =>
      mkClosure Discovery_empty None None None ""
        (mkFilterer silence_filterer_options) None
  end.

(** A codec library whose decoders make one frame of each packet, stamped
    with the packet's timestamp, and refuse a packet with a negative
    timestamp. The state counts the calls. *)
#[local] Instance frame_per_packet : CodecLibrary nat :=
  fun calls _ p =>
    (S calls,
     if (Packet.pts p <? 0)%Z
     then Throws "Error" "Invalid data found when processing input"
     else Returns [Frame.mk 1024 "fltp" (Packet.pts p) 48000 2 "stereo" []]).

(** One audio packet of each of the two audio streams of [stereo_clip],
    with different timestamps: the batch [demux] sends on the mismatch. *)
Definition audio_only_batch : list Packet.t := [Packet.mk 1 5; Packet.mk 2 7].

(** Numbers as integers, with [None] for NaN; the strings of decimal
    digits convert. *)
Fixpoint decimal (acc : Z) (s : string) : option Z :=
  match s with
  | EmptyString => Some acc
  | String c rest =>
      let n := (Z.of_nat (nat_of_ascii c) - 48)%Z in
      if ((0 <=? n)%Z && (n <=? 9)%Z)%bool then decimal (10 * acc + n) rest else None
  end.

#[local] Instance decimal_numbers : NumberOps (option Z) := {|
  number_of_Z := Some;
  NaN := None;
  StringToNumber := decimal 0
|}.

(** A channel that keeps a record of what it was asked. *)
#[local] Instance recording_channel : Channel.Ops (option Z) (list string) := {|
  Channel.loadSource c _ lp preview :=
    Returns (is_Some_b (CmdLoadParams.url lp),
             c ++ [(if preview then "load " else "loadbg ")
                   +:+ default "" (CmdLoadParams.url lp)
                   +:+ (if default false (CmdLoadParams.loop lp) then " loop" else "")]);
  Channel.play c _ := Returns (true, c ++ ["play"]);
  Channel.pause c _ := Returns (c ++ ["pause"]);
  Channel.resume c _ := Returns (c ++ ["resume"]);
  Channel.stop c _ := Returns (c ++ ["stop"]);
  Channel.clear c _ := Returns []
|}.

(** Three channels, and the second of them, layer 10. *)
Definition three_channels : list (list string) := [["a"]; ["b"]; ["c"]].
Definition second_channel : ChanLayer.t := ChanLayer.mk true 2 10.

(** A converter that makes two source buffers for a frame and numbers the
    buffers it makes; its state is the next number. *)
#[local] Instance two_planes : ColourConverter nat := {|
  createSources next :=
    Returns (S (S next), [mkOpenCLBuffer next 0; mkOpenCLBuffer (S next) 0]);
  loadFrame next _ _ := Returns next;
  createDest next _ _ := Returns (S next, mkOpenCLBuffer next 0);
  convert_processFrame next _ _ := Returns next
|}.

(** Two audio streams and a video stream; the two audio packets that come
    first have different timestamps, neither of them 0. *)
Definition mismatched_audio : FFmpegProducer :=
  initialised (mkDemuxer (streams stereo_clip)
                 [Packet.mk 1 5; Packet.mk 2 7; Packet.mk 0 5]).

(** * Properties *)

(** Case analysis on every test of a conditional left in the goal. *)
Ltac case_ifs :=
  repeat match goal with
         | |- context [if ?b then _ else _] => destruct b
         end.

(** ** The registry *)

Section RegistryFacts.

Context {Producer : Type}.
Implicit Types (f g : @Registry.ProducerFactory Producer).
Implicit Types (fs pre post : list (@Registry.ProducerFactory Producer)).

Lemma last_cons_default {A : Type} (l : list A) (m d : A) :
  List.last (m :: l) d = List.last l m.
Proof.
  revert m d. induction l as [|x l IH]; intros m d; [reflexivity|].
  change (List.last (m :: x :: l) d) with (List.last (x :: l) d).
  rewrite (IH x d), (IH x m). reflexivity.
Qed.

Lemma last_message_cons e errs pe :
  last_message (e :: errs) pe = last_message errs (err_message e).
Proof. unfold last_message. cbn [map]. apply last_cons_default. Qed.

(** A run of factories that all fail as not recognized is stepped over:
    each is invoked once, in order, and only the last message is kept. *)
Lemma createSource_from_skip params cp pre errs rest i pe seen :
  Forall2 (not_recognized params cp) pre errs ->
  Registry.createSource_from (pre ++ rest) i pe seen params cp =
  Registry.createSource_from rest (i + length pre) (last_message errs pe)
    (seen ++ seq i (length pre)) params cp.
Proof.
  intros HF. revert i pe seen.
  induction HF as [|g e pre errs [Hg He] _ IH]; intros i pe seen.
  - cbn. rewrite Nat.add_0_r, app_nil_r. reflexivity.
  - cbn [app Registry.createSource_from]. rewrite Hg, He. cbn [negb].
    rewrite IH, last_message_cons. cbn [length seq].
    rewrite <- app_assoc. cbn [app].
    f_equal. lia.
Qed.

(** Every list of factories is, on a given input, of one of three kinds:
    a success preceded by not-recognized failures, a fatal failure preceded
    by not-recognized failures, or not-recognized failures only. *)
Lemma factories_cases params cp fs :
  (exists pre errs f post p,
      fs = pre ++ f :: post /\ Forall2 (not_recognized params cp) pre errs /\
      f params cp = Ok p) \/
  (exists pre errs f post e,
      fs = pre ++ f :: post /\ Forall2 (not_recognized params cp) pre errs /\
      f params cp = Throw e /\ instanceof_InvalidProducerError e = false) \/
  (exists errs, Forall2 (not_recognized params cp) fs errs).
Proof.
  induction fs as [|g fs IH].
  - right; right. exists []. constructor.
  - destruct (g params cp) as [p|e] eqn:Hg.
    + left. exists [], [], g, fs, p. repeat split; [constructor | assumption].
    + destruct (instanceof_InvalidProducerError e) eqn:He.
      * assert (Hn : not_recognized params cp g e) by (split; assumption).
        destruct IH as [(pre & errs & f & post & p & -> & HF & Hf)
                       |[(pre & errs & f & post & e' & -> & HF & Hf & He')
                        |(errs & HF)]].
        -- left. exists (g :: pre), (e :: errs), f, post, p.
           repeat split; [constructor; assumption | assumption].
        -- right; left. exists (g :: pre), (e :: errs), f, post, e'.
           repeat split; [constructor; assumption | assumption | assumption].
        -- right; right. exists (e :: errs). constructor; assumption.
      * right; left. exists [], [], g, fs, e.
        repeat split; [constructor | assumption | assumption].
Qed.

Lemma createSource_first_success params cp pre errs f post p :
  Forall2 (not_recognized params cp) pre errs ->
  f params cp = Ok p ->
  Registry.createSource (pre ++ f :: post) params cp =
  Registry.mkSourceRun (Ok (Some p)) (last_message errs "")
    (seq 0 (S (length pre))) [].
Proof.
  intros HF Hf. unfold Registry.createSource.
  rewrite (createSource_from_skip _ _ _ _ _ _ _ _ HF).
  cbn [Registry.createSource_from]. rewrite Hf.
  rewrite Nat.add_0_l, app_nil_l. f_equal.
  replace (S (length pre)) with (length pre + 1)%nat by lia.
  rewrite seq_app. reflexivity.
Qed.

Lemma createSource_fatal params cp pre errs f post e :
  Forall2 (not_recognized params cp) pre errs ->
  f params cp = Throw e -> instanceof_InvalidProducerError e = false ->
  Registry.createSource (pre ++ f :: post) params cp =
  Registry.mkSourceRun (Throw e) (err_message e) (seq 0 (S (length pre))) [].
Proof.
  intros HF Hf He. unfold Registry.createSource.
  rewrite (createSource_from_skip _ _ _ _ _ _ _ _ HF).
  cbn [Registry.createSource_from]. rewrite Hf, He. cbn [negb].
  rewrite Nat.add_0_l, app_nil_l. f_equal.
  replace (S (length pre)) with (length pre + 1)%nat by lia.
  rewrite seq_app. reflexivity.
Qed.

(** C1. [createSource] tries the factories in registration order. On the
    first factory whose producer initialises it returns that producer, and
    the factories after it are not invoked. A failure that is an
    [InvalidProducerError] has its message recorded and the next factory is
    tried. Any other failure is thrown to the caller at once. When every
    factory fails with an [InvalidProducerError] the result is [null], with
    the last message on the console. One of the three cases always
    applies. *)
Theorem createSource_ordered_fallback params cp fs :
  (forall pre errs f post p,
      fs = pre ++ f :: post -> Forall2 (not_recognized params cp) pre errs ->
      f params cp = Ok p ->
      Registry.createSource fs params cp =
      Registry.mkSourceRun (Ok (Some p)) (last_message errs "")
        (seq 0 (S (length pre))) []) /\
  (forall pre errs f post e,
      fs = pre ++ f :: post -> Forall2 (not_recognized params cp) pre errs ->
      f params cp = Throw e -> instanceof_InvalidProducerError e = false ->
      Registry.createSource fs params cp =
      Registry.mkSourceRun (Throw e) (err_message e) (seq 0 (S (length pre))) []) /\
  (forall errs,
      Forall2 (not_recognized params cp) fs errs ->
      Registry.createSource fs params cp =
      Registry.mkSourceRun (Ok None) (last_message errs "") (seq 0 (length fs))
        ((if String.eqb (last_message errs "") "" then []
          else [last_message errs ""]) ++
         ["Failed to find producer for params: '[object Object]'"])) /\
  (forall g e rest i pe seen,
      not_recognized params cp g e ->
      Registry.createSource_from (g :: rest) i pe seen params cp =
      Registry.createSource_from rest (S i) (err_message e) (seen ++ [i]) params cp) /\
  ((exists pre errs f post p,
      fs = pre ++ f :: post /\ Forall2 (not_recognized params cp) pre errs /\
      f params cp = Ok p) \/
   (exists pre errs f post e,
      fs = pre ++ f :: post /\ Forall2 (not_recognized params cp) pre errs /\
      f params cp = Throw e /\ instanceof_InvalidProducerError e = false) \/
   (exists errs, Forall2 (not_recognized params cp) fs errs)).
Proof.
  repeat split.
  - intros pre errs f post p -> HF Hf. apply createSource_first_success; assumption.
  - intros pre errs f post e -> HF Hf He. apply (createSource_fatal _ _ _ errs); assumption.
  - intros errs HF. unfold Registry.createSource.
    rewrite <- (app_nil_r fs) at 1.
    rewrite (createSource_from_skip _ _ _ _ _ _ _ _ HF).
    reflexivity.
  - intros g e rest i pe seen [Hg He].
    cbn [Registry.createSource_from]. rewrite Hg, He. reflexivity.
  - apply factories_cases.
Qed.

End RegistryFacts.

(** ** Stream discovery *)

Lemma gset_insert_left (X Y : gset Z) (i : Z) : {[i]} ∪ (X ∪ Y) = (X ∪ {[i]}) ∪ Y.
Proof. rewrite (comm_L (∪) X {[i]}), (assoc_L (∪)). reflexivity. Qed.

Lemma gset_insert_right (X Y : gset Z) (i : Z) : {[i]} ∪ (X ∪ Y) = X ∪ (Y ∪ {[i]}).
Proof. rewrite (comm_L (∪) {[i]} (X ∪ Y)), (assoc_L (∪)). reflexivity. Qed.

Section DiscoveryFacts.

Variable ext : Externals.

Lemma discovered_empty : discovered ext [] Discovery_empty.
Proof.
  split; try reflexivity.
  - intros i dec H. unfold Discovery_empty, decoders in H.
    rewrite lookup_empty in H. discriminate.
  - intros i s H. rewrite lookup_nil in H. discriminate.
Qed.

Lemma take_filter_snoc (P : Stream.t -> bool) (n : nat) (done : list Stream.t) (s : Stream.t) :
  take n (filter (fun s => Is_true (P s)) (done ++ [s])) =
  if P s && (length (take n (filter (fun s => Is_true (P s)) done)) <? n)%nat
  then take n (filter (fun s => Is_true (P s)) done) ++ [s]
  else take n (filter (fun s => Is_true (P s)) done).
Proof.
  rewrite filter_app, length_take.
  set (l := filter (fun s => Is_true (P s)) done).
  destruct (P s) eqn:HP.
  - rewrite filter_cons_True, filter_nil by (rewrite HP; exact I).
    cbn [andb]. destruct (Nat.ltb_spec (n `min` length l) n) as [Hlt|Hge].
    + rewrite take_app, (take_ge l) by lia.
      destruct (n - length l)%nat eqn:E; [lia|]. cbn [take].
      rewrite take_nil. reflexivity.
    + rewrite take_app_le by lia. reflexivity.
  - rewrite filter_cons_False, filter_nil by (rewrite HP; exact id).
    rewrite app_nil_r. reflexivity.
Qed.

Lemma ltb_length_take {A : Type} (l : list A) (n : nat) :
  (length (take n l) <? n)%nat = (length l <? n)%nat.
Proof.
  rewrite length_take.
  destruct (Nat.ltb_spec (length l) n), (Nat.ltb_spec (n `min` length l) n); lia || reflexivity.
Qed.

Lemma selected_at_snoc_old (done : list Stream.t) (s0 : Stream.t) (i : nat) (s : Stream.t) :
  done !! i = Some s ->
  discard_label (done ++ [s0]) i s = discard_label done i s.
Proof.
  intros H. apply lookup_lt_Some in H.
  unfold discard_label, selected_at. rewrite take_app_le by lia. reflexivity.
Qed.

Lemma discard_label_snoc_new (done : list Stream.t) (s : Stream.t) :
  discard_label (done ++ [s]) (length done) s =
  if (is_audio s && (length (first_audio done) <? numAudChannels)%nat)
     || (is_video s && (length (first_video done) <? numVidChannels)%nat)
  then "default" else "all".
Proof.
  unfold discard_label, selected_at, first_audio, first_video.
  rewrite take_app_length, !ltb_length_take. reflexivity.
Qed.

Lemma visited_snoc (done vis : list Stream.t) (s : Stream.t) (lab : string) :
  length vis = length done ->
  (forall i s0, done !! i = Some s0 ->
     vis !! i = Some (Stream.set_discard (discard_label done i s0) s0)) ->
  lab = discard_label (done ++ [s]) (length done) s ->
  forall i s0, (done ++ [s]) !! i = Some s0 ->
    (vis ++ [Stream.set_discard lab s]) !! i =
    Some (Stream.set_discard (discard_label (done ++ [s]) i s0) s0).
Proof.
  intros Hlen Hvis -> i s0 Hi.
  apply lookup_snoc_Some in Hi as [[Hlt Hi]|[-> <-]].
  - rewrite lookup_app_l by lia.
    rewrite (selected_at_snoc_old _ _ _ _ Hi). apply Hvis, Hi.
  - rewrite <- Hlen, list_lookup_middle by reflexivity.
    rewrite Hlen. reflexivity.
Qed.

Lemma is_audio_not_video (s : Stream.t) : is_audio s = true -> is_video s = false.
Proof.
  unfold is_audio, is_video. intros H. apply String.eqb_eq in H. rewrite H. reflexivity.
Qed.

(** One iteration of the loop keeps what was established. *)
Lemma discover_step_discovered (done : list Stream.t) (d d' : Discovery) (s : Stream.t) :
  discovered ext done d -> discover_step ext d s = Ok d' -> discovered ext (done ++ [s]) d'.
Proof.
  intros [Ha Hv Hai Hvi Hdom Hdec Hlen Hvis]. unfold discover_step.
  change (String.eqb (CodecPar.codec_type (Stream.codecpar s)) "audio") with (is_audio s).
  change (String.eqb (CodecPar.codec_type (Stream.codecpar s)) "video") with (is_video s).
  rewrite Ha, Hv, !length_fmap.
  pose proof (discard_label_snoc_new done s) as Hlab.
  pose proof (take_filter_snoc is_audio numAudChannels done s) as Hfa.
  pose proof (take_filter_snoc is_video numVidChannels done s) as Hfv.
  fold (first_audio done) (first_audio (done ++ [s])) in Hfa.
  fold (first_video done) (first_video (done ++ [s])) in Hfv.
  destruct (is_audio s && (length (first_audio done) <? numAudChannels)%nat) eqn:Ca.
  - apply andb_true_iff in Ca as [Cs _]. rewrite (is_audio_not_video _ Cs) in *.
    cbn [andb orb] in *.
    destruct (ext_decoder ext (Stream.index s)) as [dec|n m] eqn:Hext; [|discriminate].
    cbn. intros [= <-].
    split; cbn [audioStreams videoStreams audioIndexes videoIndexes decoders visited].
    + rewrite Hfa, fmap_app. reflexivity.
    + rewrite Hfv. reflexivity.
    + rewrite Hfa, fmap_app, Hai. reflexivity.
    + rewrite Hfv, Hvi. reflexivity.
    + rewrite dom_insert_L, Hdom, !list_to_set_app_L, list_to_set_singleton_L.
      apply gset_insert_left.
    + intros i dec0. rewrite lookup_insert. case_decide as E.
      * intros [= <-]. subst i. exact Hext.
      * apply Hdec.
    + rewrite !length_app, Hlen. reflexivity.
    + apply visited_snoc; [exact Hlen | exact Hvis | symmetry; exact Hlab].
  - cbn [orb] in Hlab.
    destruct (is_video s && (length (first_video done) <? numVidChannels)%nat) eqn:Cv.
    + cbn iota in Hfa, Hfv, Hlab.
      destruct (ext_decoder ext (Stream.index s)) as [dec|n m] eqn:Hext; [|discriminate].
      cbn. intros [= <-].
    split; cbn [audioStreams videoStreams audioIndexes videoIndexes decoders visited].
      * rewrite Hfa. reflexivity.
      * rewrite Hfv, fmap_app. reflexivity.
      * rewrite Hfa, Hai. reflexivity.
      * rewrite Hfv, fmap_app, Hvi. reflexivity.
      * rewrite dom_insert_L, Hdom, !list_to_set_app_L, list_to_set_singleton_L.
        apply gset_insert_right.
      * intros i dec0. rewrite lookup_insert. case_decide as E.
        -- intros [= <-]. subst i. exact Hext.
        -- apply Hdec.
      * rewrite !length_app, Hlen. reflexivity.
      * apply visited_snoc; [exact Hlen | exact Hvis | symmetry; exact Hlab].
    + cbn iota in Hfa, Hfv, Hlab.
      intros [= <-].
      split; cbn [audioStreams videoStreams audioIndexes videoIndexes decoders visited].
      * rewrite Hfa. reflexivity.
      * rewrite Hfv. reflexivity.
      * rewrite Hfa, Hai. reflexivity.
      * rewrite Hfv, Hvi. reflexivity.
      * exact Hdom.
      * exact Hdec.
      * rewrite !length_app, Hlen. reflexivity.
      * apply visited_snoc; [exact Hlen | exact Hvis | symmetry; exact Hlab].
Qed.

Lemma discover_from_discovered (ss done : list Stream.t) (d d' : Discovery) :
  discovered ext done d -> discover_from ext d ss = Ok d' -> discovered ext (done ++ ss) d'.
Proof.
  revert done d. induction ss as [|s ss IH]; intros done d Hd.
  - cbn. intros [= <-]. rewrite app_nil_r. exact Hd.
  - cbn [discover_from]. destruct (discover_step ext d s) as [d1|e] eqn:Hstep; [|discriminate].
    intros Hrest. replace (done ++ s :: ss) with ((done ++ [s]) ++ ss)
      by (rewrite <- app_assoc; reflexivity).
    apply (IH _ d1); [|exact Hrest].
    apply (discover_step_discovered _ d); assumption.
Qed.

(** An iteration returns when the decoder of a stream it selects can be
    built. *)
Lemma discover_step_returns (done : list Stream.t) (d : Discovery) (s : Stream.t) :
  discovered ext done d ->
  (selected_at (done ++ [s]) (length done) s = true ->
   exists dec, ext_decoder ext (Stream.index s) = Returns dec) ->
  exists d', discover_step ext d s = Ok d'.
Proof.
  intros [Ha Hv _ _ _ _ _ _] Hsel. unfold discover_step.
  change (String.eqb (CodecPar.codec_type (Stream.codecpar s)) "audio") with (is_audio s).
  change (String.eqb (CodecPar.codec_type (Stream.codecpar s)) "video") with (is_video s).
  rewrite Ha, Hv, !length_fmap.
  pose proof (discard_label_snoc_new done s) as Hlab. unfold discard_label in Hlab.
  destruct (is_audio s && (length (first_audio done) <? numAudChannels)%nat) eqn:Ca;
    [|destruct (is_video s && (length (first_video done) <? numVidChannels)%nat) eqn:Cv].
  - cbn [orb] in Hlab. destruct (selected_at (done ++ [s]) (length done) s); [|discriminate].
    destruct (Hsel eq_refl) as [dec ->]. cbn. eexists. reflexivity.
  - cbn [orb] in Hlab. destruct (selected_at (done ++ [s]) (length done) s); [|discriminate].
    destruct (Hsel eq_refl) as [dec ->]. cbn. eexists. reflexivity.
  - eexists. reflexivity.
Qed.

Lemma discover_from_returns (ss done : list Stream.t) (d : Discovery) :
  discovered ext done d ->
  (forall i s, (done ++ ss) !! i = Some s -> selected_at (done ++ ss) i s = true ->
     exists dec, ext_decoder ext (Stream.index s) = Returns dec) ->
  exists d', discover_from ext d ss = Ok d'.
Proof.
  revert done d. induction ss as [|s ss IH]; intros done d Hd Hdec.
  - exists d. reflexivity.
  - destruct (discover_step_returns done d s Hd) as [d1 Hstep].
    { intros Hsel. apply (Hdec (length done)).
      - apply list_lookup_middle. reflexivity.
      - unfold selected_at in *. rewrite take_app_length in *. exact Hsel. }
    cbn [discover_from]. rewrite Hstep. cbn.
    apply (IH (done ++ [s])).
    + apply (discover_step_discovered _ d); assumption.
    + rewrite <- app_assoc. exact Hdec.
Qed.

Lemma NoDup_fmap_inj_on {A B : Type} (f : A -> B) (l : list A) (x y : A) :
  NoDup (f <$> l) -> x ∈ l -> y ∈ l -> f x = f y -> x = y.
Proof.
  induction l as [|a l IH]; intros Hnd Hx Hy Hf.
  - apply elem_of_nil in Hx. contradiction.
  - rewrite fmap_cons in Hnd. apply NoDup_cons in Hnd as [Hnot Hnd].
    apply elem_of_cons in Hx as [->|Hx]; apply elem_of_cons in Hy as [->|Hy].
    + reflexivity.
    + exfalso. apply Hnot. rewrite Hf. apply list_elem_of_fmap_2, Hy.
    + exfalso. apply Hnot. rewrite <- Hf. apply list_elem_of_fmap_2, Hx.
    + apply IH; assumption.
Qed.

Lemma first_audio_elem (ss : list Stream.t) (s : Stream.t) :
  s ∈ first_audio ss -> is_audio s = true /\ s ∈ ss.
Proof.
  intros H. apply subseteq_take in H. apply list_elem_of_filter in H as [H1 H2].
  split; [apply Is_true_eq_true, H1 | exact H2].
Qed.

Lemma first_video_elem (ss : list Stream.t) (s : Stream.t) :
  s ∈ first_video ss -> is_video s = true /\ s ∈ ss.
Proof.
  intros H. apply subseteq_take in H. apply list_elem_of_filter in H as [H1 H2].
  split; [apply Is_true_eq_true, H1 | exact H2].
Qed.

(** Distinct stream indexes stay distinct among the selected streams. *)
Lemma selected_indexes_NoDup (ss : list Stream.t) :
  NoDup (Stream.index <$> ss) ->
  NoDup ((Stream.index <$> first_audio ss) ++ (Stream.index <$> first_video ss)).
Proof.
  intros Hnd. apply NoDup_app. split; [|split].
  - apply (sublist_NoDup _ (Stream.index <$> ss)); [exact Hnd|]. apply fmap_sublist.
    etransitivity; [apply sublist_take | apply sublist_filter].
  - intros i Ha Hv.
    apply list_elem_of_fmap in Ha as (sa & -> & Ha).
    apply list_elem_of_fmap in Hv as (sv & Heq & Hv).
    apply first_audio_elem in Ha as [Ta Ha]. apply first_video_elem in Hv as [Tv Hv].
    assert (sa = sv) as -> by (eapply NoDup_fmap_inj_on; eassumption).
    rewrite (is_audio_not_video _ Ta) in Tv. discriminate.
  - apply (sublist_NoDup _ (Stream.index <$> ss)); [exact Hnd|]. apply fmap_sublist.
    etransitivity; [apply sublist_take | apply sublist_filter].
Qed.

Lemma size_list_to_set_le (l : list Z) : (size (list_to_set l : gset Z) <= length l)%nat.
Proof.
  induction l as [|x l IH]; [rewrite list_to_set_nil, size_empty; cbn; lia|].
  rewrite list_to_set_cons, size_union_alt, size_singleton. cbn [length].
  pose proof (subseteq_size (list_to_set l ∖ {[x]}) (list_to_set l : gset Z)) as Hs.
  assert (list_to_set l ∖ {[x]} ⊆ (list_to_set l : gset Z)) as Hsub.
  { intros y Hy. apply elem_of_difference in Hy as [Hy _]. exact Hy. }
  specialize (Hs Hsub). lia.
Qed.

Lemma first_video_one (ss : list Stream.t) :
  length (first_video ss) = 1%nat <-> exists s, s ∈ ss /\ is_video s = true.
Proof.
  unfold first_video. rewrite length_take.
  destruct (filter (fun s => Is_true (is_video s)) ss) as [|s l] eqn:E.
  - split; [cbn; intros H; discriminate|].
    intros (s & Hs & Hv). exfalso.
    assert (s ∈ filter (fun s => Is_true (is_video s)) ss) as Hin
      by (apply list_elem_of_filter; split; [rewrite Hv; exact I | exact Hs]).
    rewrite E in Hin. apply elem_of_nil in Hin. exact Hin.
  - split; [intros _|intros _; cbn; unfold numVidChannels; lia].
    exists s. assert (s ∈ filter (fun s => Is_true (is_video s)) ss) as Hin
      by (rewrite E; apply elem_of_cons; left; reflexivity).
    apply list_elem_of_filter in Hin as [Hv Hs].
    split; [exact Hs | apply Is_true_eq_true, Hv].
Qed.

(** C7 (amended). Provided the decoder of each stream it selects can be
    built, stream discovery returns, having selected the first eight audio
    streams of the source (all of them when there are fewer) and its first
    video stream if it has one: at most eight audio streams and at most one
    video stream, exactly one precisely when the source declares a video
    stream. The selected streams are marked [discard = 'default'], every
    other stream [discard = 'all']. The decoders are keyed by the indexes
    of the selected streams, each built for its index; there are never
    more than nine, and exactly one per selected stream when the stream
    indexes are distinct. *)
Theorem discover_selects_capped (ss : list Stream.t) :
  (forall i s, ss !! i = Some s -> selected_at ss i s = true ->
     exists dec, ext_decoder ext (Stream.index s) = Returns dec) ->
  exists d, discover ext ss = Ok d /\
    audioStreams d = Stream.set_discard "default" <$> first_audio ss /\
    videoStreams d = Stream.set_discard "default" <$> first_video ss /\
    audioIndexes d = Stream.index <$> first_audio ss /\
    videoIndexes d = Stream.index <$> first_video ss /\
    (length (audioStreams d) <= 8)%nat /\
    (length (videoStreams d) <= 1)%nat /\
    (length (videoStreams d) = 1%nat <-> exists s, s ∈ ss /\ is_video s = true) /\
    length (visited d) = length ss /\
    (forall i s, ss !! i = Some s ->
       visited d !! i =
       Some (Stream.set_discard (if selected_at ss i s then "default" else "all") s)) /\
    (forall i, is_Some (decoders d !! i) <-> i ∈ audioIndexes d ++ videoIndexes d) /\
    (forall i dec, decoders d !! i = Some dec -> ext_decoder ext i = Returns dec) /\
    (size (decoders d) <= 9)%nat /\
    (NoDup (Stream.index <$> ss) ->
     size (decoders d) = (length (audioStreams d) + length (videoStreams d))%nat).
Proof.
  intros Hdec.
  destruct (discover_from_returns ss [] Discovery_empty discovered_empty Hdec) as [d Hd].
  exists d. split; [exact Hd|].
  destruct (discover_from_discovered ss [] _ _ discovered_empty Hd)
    as [Ha Hv Hai Hvi Hdom Hdecs Hlen Hvis].
  cbn [app] in *.
  assert (La : (length (audioStreams d) <= 8)%nat).
  { rewrite Ha, length_fmap. unfold first_audio. rewrite length_take.
    unfold numAudChannels. lia. }
  assert (Lv : (length (videoStreams d) <= 1)%nat).
  { rewrite Hv, length_fmap. unfold first_video. rewrite length_take.
    unfold numVidChannels. lia. }
  assert (Hsize : (size (decoders d) <= length (audioIndexes d ++ videoIndexes d))%nat).
  { rewrite <- size_dom, Hdom. apply size_list_to_set_le. }
  repeat split; try assumption.
  - rewrite Hv, length_fmap. apply first_video_one.
  - rewrite Hv, length_fmap. apply first_video_one.
  - intros Hi. apply elem_of_dom in Hi. rewrite Hdom in Hi.
    apply elem_of_list_to_set in Hi. exact Hi.
  - intros Hi. apply elem_of_dom. rewrite Hdom.
    apply elem_of_list_to_set. exact Hi.
  - rewrite length_app, Hai, Hvi, !length_fmap in Hsize.
    rewrite Ha, length_fmap in La. rewrite Hv, length_fmap in Lv. lia.
  - intros Hnd. rewrite <- size_dom, Hdom, size_list_to_set.
    + rewrite length_app, Hai, Hvi, Ha, Hv, !length_fmap. reflexivity.
    + rewrite Hai, Hvi. apply selected_indexes_NoDup, Hnd.
Qed.

End DiscoveryFacts.

(** ** The audio filter graph *)

Lemma allMono_true (audioStreams : list Stream.t) :
  allMono audioStreams = true <->
  Forall (fun s => CodecPar.channel_layout (Stream.codecpar s) = "mono") audioStreams.
Proof.
  unfold allMono. induction audioStreams as [|s l IH]; cbn [forallb].
  - split; [constructor | reflexivity].
  - rewrite andb_true_iff, Forall_cons, IH, String.eqb_eq. reflexivity.
Qed.

Lemma audChanNames_NoDup : NoDup audChanNames.
Proof. apply (bool_decide_unpack _). vm_compute. exact I. Qed.

Lemma audLayout_8c : audLayout = "8c".
Proof. vm_compute. reflexivity. Qed.

Lemma audio_inParams_lookup (audioStreams : list Stream.t) (audStream : Stream.t) (i : nat) :
  (ain_channelLayout <$> audio_inParams audioStreams audStream) !! i =
  (fun _ => if allMono audioStreams then audChanNames !! i
            else Some (CodecPar.channel_layout (Stream.codecpar audStream)))
  <$> audioStreams !! i.
Proof.
  unfold audio_inParams. rewrite list_lookup_fmap, list_lookup_imap.
  destruct (audioStreams !! i); reflexivity.
Qed.

(** When [initialise] has selected audio streams, its audio filter graph
    is the one [filterer] returns for [merge_filterer_options], and no
    silent frame is made. *)
Lemma initialise_audio_merge ext this dmx d sf af audStream :
  initialise_audio ext this = Ok (dmx, d, sf, af) ->
  audioStreams d !! 0%nat = Some audStream ->
  ext_filterer ext (merge_filterer_options (audioStreams d) audStream) = Returns af /\
  sf = None.
Proof.
  unfold initialise_audio.
  destruct (ext_demuxer ext _) as [dmx0|]; cbn; [|discriminate].
  destruct (if number_truthy _ then _ else _) as [rest|]; cbn; [|discriminate].
  destruct (discover ext (streams dmx0)) as [d0|]; cbn; [|discriminate].
  destruct (audioStreams d0 !! 0%nat) as [a|] eqn:Ha.
  - destruct (ext_filterer ext _) as [f|] eqn:Hf; cbn; [|discriminate].
    intros [= _ <- <- <-] Hhead. rewrite Ha in Hhead. injection Hhead as <-.
    split; [exact Hf | reflexivity].
  - destruct (ext_filterer ext _) as [f|]; cbn; [|discriminate].
    intros [= _ <- _ _] Hhead. rewrite Ha in Hhead. discriminate.
Qed.

(** C8. With between one and eight selected audio streams, all tagged
    mono, the inputs of the merging filter graph get the speaker positions
    FL, FR, FC, SL, SR, LFE, BL, BR in selection order, one each and all
    different; when some stream is not mono every input gets the channel
    layout of the first audio stream. In both cases there is one input per
    stream and the single output has the eight-channel layout [8c]. This
    is the graph [initialise] builds whenever these are the streams it
    selected. *)
Theorem merge_filterer_layouts (selected : list Stream.t) (audStream : Stream.t) :
  selected !! 0%nat = Some audStream ->
  (length selected <= 8)%nat ->
  exists inputs spec,
    merge_filterer_options selected audStream =
      AudioFilterer inputs [mkAudioOutputParam "out0:a" 48000 "s32" "8c"] spec /\
    (forall ext this dmx d sf af,
       initialise_audio ext this = Ok (dmx, d, sf, af) ->
       audioStreams d = selected ->
       ext_filterer ext (AudioFilterer inputs
         [mkAudioOutputParam "out0:a" 48000 "s32" "8c"] spec) = Returns af) /\
    length inputs = length selected /\
    (Forall (fun s => CodecPar.channel_layout (Stream.codecpar s) = "mono") selected ->
       ain_channelLayout <$> inputs = Some <$> take (length selected) audChanNames /\
       NoDup (ain_channelLayout <$> inputs)) /\
    (~ Forall (fun s => CodecPar.channel_layout (Stream.codecpar s) = "mono") selected ->
       Forall (fun p => ain_channelLayout p =
                 Some (CodecPar.channel_layout (Stream.codecpar audStream))) inputs).
Proof.
  intros Hhead Hlen.
  assert (Hopt : merge_filterer_options selected audStream =
            AudioFilterer (audio_inParams selected audStream)
              [mkAudioOutputParam "out0:a" 48000 "s32" "8c"]
              (audio_inStr selected +:+ " amerge=inputs="
                 +:+ pretty (length selected)
                 +:+ ", asetnsamples=n=1024:p=1 [out0:a]")).
  { unfold merge_filterer_options, audio_outputParams. rewrite audLayout_8c. reflexivity. }
  eexists _, _. split; [exact Hopt|]. split; [|split; [|split]].
  - intros ext this dmx d sf af Hinit Hd. rewrite <- Hopt, <- Hd.
    rewrite <- Hd in Hhead. apply (initialise_audio_merge ext this dmx d sf af); assumption.
  - unfold audio_inParams. apply length_imap.
  - intros Hmono. apply allMono_true in Hmono.
    assert (Heq : ain_channelLayout <$> audio_inParams selected audStream =
                  Some <$> take (length selected) audChanNames).
    { apply list_eq. intros i. rewrite audio_inParams_lookup, Hmono, list_lookup_fmap.
      destruct (selected !! i) as [s|] eqn:Hi.
      - apply lookup_lt_Some in Hi. rewrite lookup_take_lt by exact Hi.
        destruct (lookup_lt_is_Some_2 audChanNames i) as [c Hc];
          [cbn; lia | rewrite Hc; reflexivity].
      - apply lookup_ge_None in Hi. rewrite lookup_take_ge by exact Hi. reflexivity. }
    split; [exact Heq|]. rewrite Heq. apply NoDup_fmap_2; [apply _|].
    apply (sublist_NoDup _ audChanNames); [apply audChanNames_NoDup | apply sublist_take].
  - intros Hnot. assert (Hm : allMono selected = false).
    { destruct (allMono selected) eqn:E; [|reflexivity].
      exfalso. apply Hnot, allMono_true, E. }
    apply Forall_forall. intros p Hp. apply list_elem_of_lookup in Hp as [i Hp].
    pose proof (audio_inParams_lookup selected audStream i) as Hl.
    rewrite list_lookup_fmap, Hp, Hm in Hl. cbn in Hl.
    destruct (selected !! i); cbn in Hl; [|discriminate].
    injection Hl as ->. reflexivity.
Qed.

(** ** Pixel formats and the failures of [initialise] *)

Lemma append_cons (c : ascii) (s1 s2 : string) :
  String c s1 +:+ s2 = String c (s1 +:+ s2).
Proof. reflexivity. Qed.

Lemma prefix_append (needle hay : string) :
  String.prefix needle hay = true <-> exists post, hay = needle +:+ post.
Proof.
  revert hay. induction needle as [|a needle IH]; intros hay.
  - split; [intros _; exists hay; reflexivity | intros _; destruct hay; reflexivity].
  - destruct hay as [|b hay]; cbn [String.prefix].
    + split; [discriminate | intros [post Hp]; rewrite append_cons in Hp; discriminate].
    + destruct (ascii_dec a b) as [->|Hab].
      * rewrite IH. split; intros [post Hp]; exists post.
        -- rewrite append_cons. f_equal. exact Hp.
        -- rewrite append_cons in Hp. injection Hp as Hp. exact Hp.
      * split; [discriminate | intros [post Hp]].
        rewrite append_cons in Hp. injection Hp as Hb _. congruence.
Qed.

(** [includes] is the substring test of [String.prototype.includes]. *)
Lemma includes_spec (hay needle : string) :
  includes hay needle = true <-> exists pre post, hay = pre +:+ needle +:+ post.
Proof.
  induction hay as [|c hay IH]; cbn [includes].
  - rewrite orb_false_r, prefix_append. split.
    + intros [post Hp]. exists "", post. exact Hp.
    + intros [pre [post Hp]]. destruct pre; [|rewrite append_cons in Hp; discriminate].
      exists post. exact Hp.
  - rewrite orb_true_iff, prefix_append, IH. split.
    + intros [[post Hp]|[pre [post Hp]]].
      * exists "", post. exact Hp.
      * exists (String c pre), post. rewrite append_cons. f_equal. exact Hp.
    + intros [pre [post Hp]]. destruct pre as [|c' pre].
      * left. exists post. exact Hp.
      * right. rewrite append_cons in Hp. injection Hp as _ Hp.
        exists pre, post. exact Hp.
Qed.

Lemma native_formats_eqb (format : string) :
  format ∉ native_formats ->
  String.eqb format "yuv422p" = false /\ String.eqb format "yuv422p10le" = false /\
  String.eqb format "v210" = false /\ String.eqb format "rgba" = false /\
  String.eqb format "bgra" = false.
Proof.
  intros Hn. repeat split; apply String.eqb_neq; intros ->; apply Hn;
    unfold native_formats; repeat (apply elem_of_cons; (left; reflexivity) || right).
Qed.

Lemma select_loader_native (width height : Z) (format : string) :
  format ∈ native_formats ->
  exists r, native_reader width height format = Some r /\
    select_loader width height format = Ok (new_ToRGBA r, format).
Proof.
  unfold native_formats. intros H.
  repeat (apply elem_of_cons in H as [->|H]; [eexists; split; reflexivity|]).
  apply elem_of_nil in H. contradiction.
Qed.

Lemma select_loader_other (width height : Z) (format : string) :
  format ∉ native_formats ->
  select_loader width height format =
  if includes format "yuv" then Ok (new_ToRGBA (yuv422p10Reader width height), "yuv422p10le")
  else if includes format "rgb" then Ok (new_ToRGBA (rgba8Reader width height), "rgba")
  else Throw (unsupported_format_error format).
Proof.
  intros H. destruct (native_formats_eqb _ H) as (H1 & H2 & H3 & H4 & H5).
  unfold select_loader. rewrite H1, H2, H3, H4, H5. reflexivity.
Qed.

Lemma external_throw {A : Type} (c : Foreign A) (e : JsError) :
  external c = Throw e -> instanceof_InvalidProducerError e = false.
Proof. destruct c; cbn; [discriminate|]. intros [= <-]. reflexivity. Qed.

Lemma select_loader_throw (width height : Z) (format : string) (e : JsError) :
  select_loader width height format = Throw e -> instanceof_InvalidProducerError e = false.
Proof.
  unfold select_loader.
  case_ifs;
    try discriminate.
  intros [= <-]. reflexivity.
Qed.

Lemma discover_from_throw (ext : Externals) (ss : list Stream.t) (d : Discovery) (e : JsError) :
  discover_from ext d ss = Throw e -> instanceof_InvalidProducerError e = false.
Proof.
  revert d. induction ss as [|s ss IH]; intros d; cbn [discover_from]; [discriminate|].
  destruct (discover_step ext d s) as [d1|e1] eqn:Hstep; cbn.
  - apply IH.
  - intros [= <-]. revert Hstep. unfold discover_step.
    case_ifs;
      try discriminate;
      destruct (ext_decoder ext (Stream.index s)) eqn:Hd; cbn; try discriminate;
      intros [= <-]; reflexivity.
Qed.

(** The video half of [initialise] never fails as not recognized. *)
Lemma initialise_video_throw ext this cp dmx d sf af e :
  initialise_video ext this cp dmx d sf af = Throw e ->
  instanceof_InvalidProducerError e = false.
Proof.
  unfold initialise_video.
  destruct (videoStreams d !! 0%nat) as [v|]; [|intros [= <-]; reflexivity].
  destruct (select_loader _ _ _) as [[t fof]|e1] eqn:Hsel; cbn.
  - destruct (ext_toRGBA_init ext t) eqn:H1; cbn; [|intros [= <-]; reflexivity].
    destruct (ext_filterer ext _) eqn:H2; cbn; [|intros [= <-]; reflexivity].
    destruct (ext_yadif_init ext _) eqn:H3; cbn; [discriminate|intros [= <-]; reflexivity].
  - intros [= <-]. eapply select_loader_throw, Hsel.
Qed.

(** Once the demuxer has opened, no failure of the first half is a
    not-recognized one either. *)
Lemma initialise_audio_throw ext this dmx e :
  ext_demuxer ext (url (loadParams this)) = Returns dmx ->
  initialise_audio ext this = Throw e ->
  instanceof_InvalidProducerError e = false.
Proof.
  intros Hopen. unfold initialise_audio. rewrite Hopen. cbn.
  destruct (number_truthy _).
  - destruct (ext_seek ext dmx _) eqn:Hs; cbn; [|intros [= <-]; reflexivity].
    destruct (discover ext (streams dmx)) as [d|e1] eqn:Hd; cbn.
    + destruct (audioStreams d !! 0%nat); destruct (ext_filterer ext _); cbn;
        try discriminate; intros [= <-]; reflexivity.
    + intros [= <-]. eapply discover_from_throw, Hd.
  - destruct (discover ext (streams dmx)) as [d|e1] eqn:Hd; cbn.
    + destruct (audioStreams d !! 0%nat); destruct (ext_filterer ext _); cbn;
        try discriminate; intros [= <-]; reflexivity.
    + intros [= <-]. eapply discover_from_throw, Hd.
Qed.

(** A demuxer that fails to open is the one not-recognized failure. *)
Lemma initialise_not_opened ext this cp n m :
  ext_demuxer ext (url (loadParams this)) = Throws n m ->
  initialise ext this cp =
  Throw (InvalidProducerError (error_toString (ForeignError n m))).
Proof. intros H. unfold initialise, initialise_audio. rewrite H. reflexivity. Qed.

Lemma initialise_opened_throw ext this cp dmx e :
  ext_demuxer ext (url (loadParams this)) = Returns dmx ->
  initialise ext this cp = Throw e ->
  instanceof_InvalidProducerError e = false.
Proof.
  intros Hopen. unfold initialise.
  destruct (initialise_audio ext this) as [[[[dmx' d] sf] af]|e1] eqn:Ha; cbn.
  - apply initialise_video_throw.
  - intros [= <-]. eapply initialise_audio_throw; eassumption.
Qed.

Lemma as_Producer_throw {P Q : Type} (inj : P -> Q) (f : @Registry.ProducerFactory P)
    params cp e :
  f params cp = Throw e -> as_Producer inj f params cp = Throw e.
Proof. intros H. unfold as_Producer. rewrite H. reflexivity. Qed.

Lemma initialise_audio_discovered ext this dmx dmx' d sf af :
  ext_demuxer ext (url (loadParams this)) = Returns dmx ->
  initialise_audio ext this = Ok (dmx', d, sf, af) ->
  discover ext (streams dmx) = Ok d.
Proof.
  intros Hopen. unfold initialise_audio. rewrite Hopen. cbn.
  destruct (number_truthy _); [destruct (ext_seek ext dmx _); cbn; [|discriminate]|];
    (destruct (discover ext (streams dmx)) as [d0|] eqn:Hd; cbn; [|discriminate]);
    destruct (audioStreams d0 !! 0%nat); destruct (ext_filterer ext _); cbn;
    try discriminate; intros [= _ <- _ _]; reflexivity.
Qed.

Lemma discover_no_video ext (ss : list Stream.t) (d : Discovery) :
  (forall s, s ∈ ss -> is_video s = false) ->
  discover ext ss = Ok d -> videoStreams d = [].
Proof.
  intros Hno Hd.
  destruct (discover_from_discovered ext ss [] _ _ (discovered_empty ext) Hd)
    as [_ Hv _ _ _ _ _ _].
  rewrite Hv. cbn [app]. destruct (first_video ss) as [|s l] eqn:E; [reflexivity|].
  assert (Hin : s ∈ first_video ss) by (rewrite E; apply elem_of_cons; left; reflexivity).
  apply first_video_elem in Hin as [Hvid Hin]. rewrite (Hno _ Hin) in Hvid. discriminate.
Qed.

(** C3. For a recognized source (the demuxer opened and the first half of
    [initialise] completed) with a first video stream of pixel format
    [fmt]: a format of the native set yuv422p, yuv422p10le, v210, rgba,
    bgra gets its own reader and the filter output format stays [fmt];
    another format containing [yuv] gets the yuv422p10 reader with output
    format yuv422p10le, and one that contains [rgb] (and not [yuv]) gets
    the rgba8 reader with output format rgba; the options of the video
    filter graph name the stream's own format [fmt] as the pixel format
    of its one input and the output format as its one output pixel
    format; whenever [initialise] returns, the producer holds that
    converter and its video filter graph is the one the filterer made of
    those options. For any other format [initialise]
    throws the unsupported-format [Error], which is not an
    [InvalidProducerError]: a registry holding the FFmpeg factory after
    factories that did not recognize the source throws it to the caller
    and invokes no later factory. *)
Theorem initialise_pixel_format ext params cp dmx d sf af vidStream :
  initialise_audio ext (createProducer params) = Ok (dmx, d, sf, af) ->
  videoStreams d !! 0%nat = Some vidStream ->
  let fmt := CodecPar.format (Stream.codecpar vidStream) in
  let width := CodecPar.width (Stream.codecpar vidStream) in
  let height := CodecPar.height (Stream.codecpar vidStream) in
  (fmt ∈ native_formats ->
     exists r, native_reader width height fmt = Some r /\
       select_loader width height fmt = Ok (new_ToRGBA r, fmt)) /\
  (fmt ∉ native_formats -> includes fmt "yuv" = true ->
     select_loader width height fmt =
       Ok (new_ToRGBA (yuv422p10Reader width height), "yuv422p10le")) /\
  (fmt ∉ native_formats -> includes fmt "yuv" = false -> includes fmt "rgb" = true ->
     select_loader width height fmt =
       Ok (new_ToRGBA (rgba8Reader width height), "rgba")) /\
  (forall fof chanTb,
     video_filterer_options vidStream fof chanTb =
       VideoFilterer
         [mkVideoInputParam (Stream.time_base vidStream) width height fmt
            (CodecPar.sample_aspect_ratio (Stream.codecpar vidStream))]
         [fof] (fps_filterSpec chanTb)) /\
  (forall p, initialise ext (createProducer params) cp = Ok p ->
     exists t fof cl,
       select_loader width height fmt = Ok (t, fof) /\
       closure p = Some cl /\ toRGBA cl = Some t /\ filterOutputFormat cl = fof /\
       ext_filterer ext
         (VideoFilterer
            [mkVideoInputParam (Stream.time_base vidStream) width height fmt
               (CodecPar.sample_aspect_ratio (Stream.codecpar vidStream))]
            [fof] (fps_filterSpec (videoTimebase cp)))
         = Returns (vidFilterer cl)) /\
  (forall t fof f,
     select_loader width height fmt = Ok (t, fof) ->
     ext_toRGBA_init ext t = Returns tt ->
     ext_filterer ext
       (VideoFilterer
          [mkVideoInputParam (Stream.time_base vidStream) width height fmt
             (CodecPar.sample_aspect_ratio (Stream.codecpar vidStream))]
          [fof] (fps_filterSpec (videoTimebase cp)))
       = Returns f ->
     ext_yadif_init ext (new_Yadif width height) = Returns tt ->
     exists p, initialise ext (createProducer params) cp = Ok p) /\
  (fmt ∉ native_formats -> includes fmt "yuv" = false -> includes fmt "rgb" = false ->
     initialise ext (createProducer params) cp = Throw (unsupported_format_error fmt) /\
     instanceof_InvalidProducerError (unsupported_format_error fmt) = false /\
     forall (Q : Type) (inj : FFmpegProducer -> Q) pre errs post,
       Forall2 (not_recognized params cp) pre errs ->
       Registry.createSource
         (pre ++ as_Producer inj (FFmpegProducerFactory ext) :: post) params cp =
       Registry.mkSourceRun (Throw (unsupported_format_error fmt))
         (err_message (unsupported_format_error fmt)) (seq 0 (S (length pre))) []).
Proof.
  intros Haud Hvid fmt width height.
  assert (Hinit : initialise ext (createProducer params) cp =
            initialise_video ext (createProducer params) cp dmx d sf af).
  { unfold initialise. rewrite Haud. reflexivity. }
  split; [|split; [|split; [|split; [|split; [|split]]]]].
  - apply select_loader_native.
  - intros Hn Hy. rewrite select_loader_other, Hy by exact Hn. reflexivity.
  - intros Hn Hy Hr. rewrite select_loader_other, Hy, Hr by exact Hn. reflexivity.
  - intros fof chanTb. reflexivity.
  - intros p. rewrite Hinit. unfold initialise_video. rewrite Hvid.
    fold fmt width height.
    destruct (select_loader width height fmt) as [[t fof]|e] eqn:Hsel; cbn; [|discriminate].
    destruct (ext_toRGBA_init ext t); cbn; [|discriminate].
    destruct (ext_filterer ext _) as [f|] eqn:Hf; cbn; [|discriminate].
    destruct (ext_yadif_init ext _); cbn; [|discriminate].
    intros [= <-]. exists t, fof. eexists. repeat split. exact Hf.
  - intros t fof f Hsel Ht Hf Hy. rewrite Hinit.
    unfold initialise_video, video_filterer_options. rewrite Hvid.
    fold fmt width height. rewrite Hsel. cbn. rewrite Ht. cbn.
    fold fmt width height. rewrite Hf. cbn.
    rewrite Hy. cbn. eexists. reflexivity.
  - intros Hn Hy Hr.
    assert (Hthrow : initialise ext (createProducer params) cp =
              Throw (unsupported_format_error fmt)).
    { rewrite Hinit. unfold initialise_video. rewrite Hvid. fold fmt width height.
      rewrite select_loader_other, Hy, Hr by exact Hn. reflexivity. }
    split; [exact Hthrow|]. split; [reflexivity|].
    intros Q inj pre errs post HF.
    apply (createSource_fatal _ _ _ errs); [exact HF | | reflexivity].
    apply as_Producer_throw. exact Hthrow.
Qed.

(** C9. When the demuxer opens but the source has no video stream,
    [initialise] does not return: it throws an error that is not an
    [InvalidProducerError]. Whenever the first half of [initialise]
    completes, that error is the TypeError of reading [codecpar] of the
    absent [videoStreams[0]]. A registry whose earlier factories did not
    recognize the source throws the error to the caller and invokes no
    factory after the FFmpeg one. *)
Theorem initialise_without_video ext params cp dmx :
  ext_demuxer ext (url params) = Returns dmx ->
  (forall s, s ∈ streams dmx -> is_video s = false) ->
  exists e,
    initialise ext (createProducer params) cp = Throw e /\
    instanceof_InvalidProducerError e = false /\
    (forall r, initialise_audio ext (createProducer params) = Ok r ->
       e = TypeError_undefined "codecpar") /\
    forall (Q : Type) (inj : FFmpegProducer -> Q) pre errs post,
      Forall2 (not_recognized params cp) pre errs ->
      Registry.createSource
        (pre ++ as_Producer inj (FFmpegProducerFactory ext) :: post) params cp =
      Registry.mkSourceRun (Throw e) (err_message e) (seq 0 (S (length pre))) [].
Proof.
  intros Hopen Hno.
  assert (Hthrow : exists e, initialise ext (createProducer params) cp = Throw e /\
            (forall r, initialise_audio ext (createProducer params) = Ok r ->
               e = TypeError_undefined "codecpar")).
  { unfold initialise.
    destruct (initialise_audio ext (createProducer params))
      as [[[[dmx' d] sf] af]|e1] eqn:Ha; cbn.
    - pose proof (initialise_audio_discovered ext (createProducer params)
                    dmx dmx' d sf af Hopen Ha) as Hd.
      pose proof (discover_no_video _ _ _ Hno Hd) as Hv.
      unfold initialise_video. rewrite Hv. cbn.
      eexists. split; [reflexivity|]. intros _ _. reflexivity.
    - exists e1. split; [reflexivity|]. intros r [=]. }
  destruct Hthrow as (e & Hthrow & Htype). exists e.
  assert (He : instanceof_InvalidProducerError e = false)
    by (eapply (initialise_opened_throw ext (createProducer params)); eassumption).
  repeat split; try assumption.
  intros Q inj pre errs post HF.
  apply (createSource_fatal _ _ _ errs); [exact HF | | exact He].
  apply as_Producer_throw. exact Hthrow.
Qed.

(** ** The demux stage *)

Section DemuxFacts.

Variables (audioIndexes videoIndexes : list Z) (expected : nat).

Local Abbreviation scanned := (scan audioIndexes videoIndexes).
Local Abbreviation step := (demux_packet audioIndexes videoIndexes).
Local Abbreviation stays_quiet := (quiet audioIndexes videoIndexes expected).
Local Abbreviation loop := (demux_loop audioIndexes videoIndexes expected).

Lemma scan_snoc (l : DemuxLocals) (pre : list Packet.t) (p : Packet.t) :
  scanned l (pre ++ [p]) = step (scanned l pre) p.
Proof. unfold scan. rewrite foldl_app. reflexivity. Qed.

Lemma quiet_nil (l : DemuxLocals) : stays_quiet l [].
Proof. intros pre1 q post1 H. destruct pre1; discriminate. Qed.

Lemma quiet_cons (l : DemuxLocals) (q : Packet.t) (pre : list Packet.t) :
  stays_quiet l (q :: pre) <->
  demux_done expected (step l q) = false /\
  stays_quiet (step l q) pre.
Proof.
  split.
  - intros H. split.
    + apply (H [] q pre). reflexivity.
    + intros pre1 q1 post1 ->. apply (H (q :: pre1) q1 post1). reflexivity.
  - intros [H0 H] pre1 q1 post1 E. destruct pre1 as [|a pre1].
    + injection E as <- _. exact H0.
    + injection E as <- E. apply (H pre1 q1 post1 E).
Qed.

Lemma demux_packet_packets (l : DemuxLocals) (p : Packet.t) :
  packets (step l p) =
  packets l ++ (if selected_packet audioIndexes videoIndexes p then [p] else []).
Proof.
  unfold demux_packet, selected_packet.
  destruct (array_includes audioIndexes _); cbn [orb];
    [|destruct (array_includes videoIndexes _)];
    case_ifs;
    cbn [packets]; rewrite ?app_nil_r; reflexivity.
Qed.

Lemma scan_packets (l : DemuxLocals) (pre : list Packet.t) :
  packets (scanned l pre) =
  packets l ++ filter (fun p => Is_true (selected_packet audioIndexes videoIndexes p)) pre.
Proof.
  revert l. induction pre as [|p pre IH]; intros l.
  - cbn. rewrite app_nil_r. reflexivity.
  - change (scanned l (p :: pre)) with (scanned (step l p) pre).
    rewrite IH, demux_packet_packets, <- app_assoc. f_equal.
    destruct (selected_packet audioIndexes videoIndexes p) eqn:E.
    + rewrite filter_cons_True by (rewrite E; exact I). reflexivity.
    + rewrite filter_cons_False by (rewrite E; exact id). reflexivity.
Qed.

Lemma demux_packet_doBreak (l : DemuxLocals) (p : Packet.t) :
  doBreak (step l p) =
  doBreak l || timestamp_mismatch audioIndexes videoIndexes l p.
Proof.
  unfold demux_packet, timestamp_mismatch.
  destruct (array_includes audioIndexes _);
    [|destruct (array_includes videoIndexes _)];
    try destruct (number_truthy (lastAudTimestamp l));
    try destruct (number_truthy (lastVidTimestamp l));
    try destruct (bool_decide (Some (Packet.pts p) = lastAudTimestamp l));
    try destruct (bool_decide (Some (Packet.pts p) = lastVidTimestamp l));
    cbn [doBreak andb negb]; rewrite ?orb_false_r, ?orb_true_r; reflexivity.
Qed.

Lemma demux_done_iff (l : DemuxLocals) :
  demux_done expected l = true <->
  doBreak l = true \/ length (packets l) = expected.
Proof.
  unfold demux_done. rewrite orb_true_iff, Nat.eqb_eq. reflexivity.
Qed.

(** The loop ends with a batch at the first read that makes [demux_done]
    true. *)
Lemma demux_loop_emits (l : DemuxLocals) (pre : list Packet.t) (p : Packet.t)
    (rest : list Packet.t) :
  stays_quiet l pre ->
  demux_done expected (scanned l (pre ++ [p])) = true ->
  loop l (pre ++ p :: rest) =
  mkDemuxRun (value (packets (scanned l (pre ++ [p])))) rest
    (if doBreak (scanned l (pre ++ [p]))
     then [mismatch_message (length (packets (scanned l (pre ++ [p])))) expected]
     else []).
Proof.
  revert l. induction pre as [|q pre IH]; intros l Hq Hd.
  - cbn [app demux_loop]. cbn in Hd. rewrite Hd. reflexivity.
  - apply quiet_cons in Hq as [H0 Hq]. cbn [app demux_loop]. rewrite H0.
    apply IH; assumption.
Qed.

Lemma demux_loop_value (l : DemuxLocals) (src batch : list Packet.t) :
  demux_result (loop l src) = value batch ->
  exists pre p,
    src = pre ++ p :: demux_unread (loop l src) /\
    stays_quiet l pre /\
    demux_done expected (scanned l (pre ++ [p])) = true /\
    batch = packets (scanned l (pre ++ [p])).
Proof.
  revert l. induction src as [|q src IH]; intros l; cbn [demux_loop]; [discriminate|].
  destruct (demux_done expected (step l q)) eqn:Hd.
  - cbn. intros [= <-]. exists [], q. repeat split; [apply quiet_nil | exact Hd].
  - intros H. destruct (IH _ H) as (pre & p & Hsrc & Hq & Hdone & Hb).
    exists (q :: pre), p. repeat split.
    + cbn [app]. f_equal. exact Hsrc.
    + apply quiet_cons. split; assumption.
    + exact Hdone.
    + exact Hb.
Qed.

Lemma demux_loop_end (l : DemuxLocals) (src : list Packet.t) :
  demux_result (loop l src) = redio_end <->
  stays_quiet l src.
Proof.
  revert l. induction src as [|q src IH]; intros l; cbn [demux_loop].
  - split; [intros _; apply quiet_nil | reflexivity].
  - rewrite quiet_cons.
    destruct (demux_done expected (step l q)) eqn:Hd.
    + cbn. split; [discriminate | intros [[=] _]].
    + rewrite IH. split; [intros H; split; [reflexivity | exact H] | intros [_ H]; exact H].
Qed.

Lemma demux_loop_not_nil (l : DemuxLocals) (src : list Packet.t) :
  demux_result (loop l src) <> redio_nil.
Proof.
  revert l. induction src as [|q src IH]; intros l; cbn [demux_loop]; [discriminate|].
  destruct (demux_done expected _); [discriminate | apply IH].
Qed.

End DemuxFacts.

(** The loop, one read at a time. *)
Lemma demux_loop_read (aI vI : list Z) (expected : nat) (l : DemuxLocals) (dmx : Demuxer) :
  demux_loop aI vI expected l (unread dmx) =
  match Demuxer_read dmx with
  | (None, _) => mkDemuxRun redio_end [] []
  | (Some packet, dmx') =>
      let l' := demux_packet aI vI l packet in
      if demux_done expected l' then
        mkDemuxRun (value (packets l')) (unread dmx')
          (if doBreak l' then [mismatch_message (length (packets l')) expected] else [])
      else demux_loop aI vI expected l' (unread dmx')
  end.
Proof. unfold Demuxer_read. destruct (unread dmx); reflexivity. Qed.

(** ** What the demux loop records, in terms of the packets read *)

Lemma recorded_timestamp_snoc (leg : list Packet.t) (p : Packet.t) :
  recorded_timestamp (leg ++ [p]) =
  if number_truthy (recorded_timestamp leg) then recorded_timestamp leg
  else Some (Packet.pts p).
Proof.
  unfold recorded_timestamp. rewrite filter_app.
  destruct (filter (fun q => Packet.pts q <> 0) leg) as [|q rest] eqn:Hnz; cbn [app].
  - assert (Hfalsy : number_truthy match leg with [] => None | _ :: _ => Some 0 end = false)
      by (destruct leg; reflexivity).
    rewrite Hfalsy. rewrite filter_cons, filter_nil.
    destruct (decide (Packet.pts p <> 0)) as [Hp|Hp]; [reflexivity|].
    assert (Hz : Packet.pts p = 0) by (destruct (decide (Packet.pts p = 0)); tauto).
    rewrite Hz. destruct leg; reflexivity.
  - assert (Hq : Packet.pts q <> 0).
    { assert (Hin : q ∈ filter (fun q => Packet.pts q <> 0) leg)
        by (rewrite Hnz; constructor).
      now apply list_elem_of_filter in Hin as [Hq _]. }
    cbn [number_truthy]. apply Z.eqb_neq in Hq. rewrite Hq. reflexivity.
Qed.

Lemma leg_mismatch_recorded (leg : list Packet.t) (p : Packet.t) :
  number_truthy (recorded_timestamp leg)
  && negb (bool_decide (Some (Packet.pts p) = recorded_timestamp leg))
  = leg_mismatch leg p.
Proof.
  unfold recorded_timestamp, leg_mismatch.
  destruct (filter (fun q => Packet.pts q <> 0) leg) as [|q rest] eqn:Hnz.
  - destruct leg; reflexivity.
  - assert (Hq : Packet.pts q <> 0).
    { assert (Hin : q ∈ filter (fun q => Packet.pts q <> 0) leg)
        by (rewrite Hnz; constructor).
      now apply list_elem_of_filter in Hin as [Hq _]. }
    cbn [number_truthy]. apply Z.eqb_neq in Hq. rewrite Hq. cbn [negb andb].
    f_equal. destruct (Z.eqb_spec (Packet.pts p) (Packet.pts q)) as [->|Hne].
    + apply bool_decide_eq_true. reflexivity.
    + apply bool_decide_eq_false. congruence.
Qed.

Lemma scan_recorded (audioIndexes videoIndexes : list Z) (pre : list Packet.t) :
  lastAudTimestamp (scan audioIndexes videoIndexes DemuxLocals_init pre)
    = recorded_timestamp (audio_leg audioIndexes pre)
  /\ lastVidTimestamp (scan audioIndexes videoIndexes DemuxLocals_init pre)
    = recorded_timestamp (video_leg audioIndexes videoIndexes pre).
Proof.
  induction pre as [|p pre [IHa IHv]] using rev_ind; [split; reflexivity|].
  rewrite scan_snoc. unfold audio_leg, video_leg in *. rewrite !filter_app.
  rewrite !filter_cons, !filter_nil.
  unfold demux_packet.
  destruct (array_includes audioIndexes (Packet.stream_index p)) eqn:Ha; cbn [negb andb].
  - rewrite decide_True by exact I. rewrite decide_False by (exact id).
    rewrite app_nil_r, recorded_timestamp_snoc, <- IHa, <- IHv.
    destruct (number_truthy (lastAudTimestamp _)); cbn [negb];
      [destruct (bool_decide _)|]; split; reflexivity.
  - rewrite decide_False by (exact id). rewrite app_nil_r.
    destruct (array_includes videoIndexes (Packet.stream_index p)) eqn:Hv.
    + rewrite decide_True by exact I.
      rewrite recorded_timestamp_snoc, <- IHa, <- IHv.
      destruct (number_truthy (lastVidTimestamp _)); cbn [negb];
        [destruct (bool_decide _)|]; split; reflexivity.
    + rewrite decide_False by (exact id). rewrite app_nil_r. split; assumption.
Qed.

Lemma scan_mismatch (audioIndexes videoIndexes : list Z) (pre : list Packet.t)
    (p : Packet.t) :
  timestamp_mismatch audioIndexes videoIndexes
    (scan audioIndexes videoIndexes DemuxLocals_init pre) p
  = mismatch_after audioIndexes videoIndexes pre p.
Proof.
  unfold timestamp_mismatch, mismatch_after.
  destruct (scan_recorded audioIndexes videoIndexes pre) as [-> ->].
  rewrite !leg_mismatch_recorded. reflexivity.
Qed.

Lemma scan_doBreak (audioIndexes videoIndexes : list Z) (pre : list Packet.t) :
  doBreak (scan audioIndexes videoIndexes DemuxLocals_init pre) = true <->
  exists pre1 q post,
    pre = pre1 ++ q :: post /\ mismatch_after audioIndexes videoIndexes pre1 q = true.
Proof.
  induction pre as [|p pre IH] using rev_ind.
  - split; [discriminate|]. intros (pre1 & q & post & Habs & _). now destruct pre1.
  - rewrite scan_snoc, demux_packet_doBreak, scan_mismatch, orb_true_iff, IH. split.
    + intros [(pre1 & q & post & -> & Hm) | Hm].
      * exists pre1, q, (post ++ [p]). split; [|exact Hm].
        rewrite <- app_assoc. reflexivity.
      * exists pre, p, []. split; [reflexivity | exact Hm].
    + intros (pre1 & q & post & Heq & Hm).
      destruct post as [|r post _] using rev_ind.
      * apply app_inj_tail in Heq as [-> ->]. now right.
      * left. rewrite app_comm_cons, app_assoc in Heq.
        apply app_inj_tail in Heq as [-> _]. now exists pre1, q, post.
Qed.


(** C10. A recorded timestamp of 0 counts as no timestamp: when the
    timestamp recorded for the leg of a packet is 0 (as after a first
    packet of that leg with presentationTimestamp 0), the packet's own
    timestamp replaces it, the packet is kept, and no mismatch is flagged,
    whatever the packet's timestamp. So after an audio (video) packet with
    timestamp 0 opens a batch, the next audio (video) packet never causes
    the early flush. *)
Theorem demux_zero_timestamp_overwritten (aI vI : list Z) (l : DemuxLocals) (p : Packet.t) :
  (array_includes aI (Packet.stream_index p) = true ->
   lastAudTimestamp l = Some 0 ->
   demux_packet aI vI l p =
     mkDemuxLocals (Some (Packet.pts p)) (lastVidTimestamp l) (packets l ++ [p]) (doBreak l)
   /\ timestamp_mismatch aI vI l p = false) /\
  (array_includes aI (Packet.stream_index p) = false ->
   array_includes vI (Packet.stream_index p) = true ->
   lastVidTimestamp l = Some 0 ->
   demux_packet aI vI l p =
     mkDemuxLocals (lastAudTimestamp l) (Some (Packet.pts p)) (packets l ++ [p]) (doBreak l)
   /\ timestamp_mismatch aI vI l p = false) /\
  (forall p0,
     array_includes aI (Packet.stream_index p0) = true ->
     array_includes aI (Packet.stream_index p) = true ->
     Packet.pts p0 = 0 ->
     scan aI vI DemuxLocals_init [p0; p] =
       mkDemuxLocals (Some (Packet.pts p)) None [p0; p] false) /\
  (forall p0,
     array_includes aI (Packet.stream_index p0) = false ->
     array_includes vI (Packet.stream_index p0) = true ->
     array_includes aI (Packet.stream_index p) = false ->
     array_includes vI (Packet.stream_index p) = true ->
     Packet.pts p0 = 0 ->
     scan aI vI DemuxLocals_init [p0; p] =
       mkDemuxLocals None (Some (Packet.pts p)) [p0; p] false).
Proof.
  split; [|split; [|split]].
  - intros Ha Hl. unfold demux_packet, timestamp_mismatch. rewrite Ha, Hl. cbn.
    split; reflexivity.
  - intros Ha Hv Hl. unfold demux_packet, timestamp_mismatch. rewrite Ha, Hv, Hl. cbn.
    split; reflexivity.
  - intros p0 H0 Hp Hz. unfold scan. cbn [foldl]. unfold demux_packet.
    rewrite H0, Hp. cbn. rewrite Hz. cbn. reflexivity.
  - intros p0 Ha0 Hv0 Ha Hv Hz. unfold scan. cbn [foldl]. unfold demux_packet.
    rewrite Ha0, Hv0, Ha, Hv. cbn. rewrite Hz. cbn. reflexivity.
Qed.

(** ** release *)

(** [release] is idempotent. *)
Lemma release_idempotent (this : FFmpegProducer) :
  release (release this) = release this.
Proof. reflexivity. Qed.

(** [release] changes the [running] flag, which it sets to false,
    and nothing else. *)
Lemma release_only_running (this : FFmpegProducer) :
  release this =
  mkFFmpegProducer (loadParams this) (demuxer this) (audSource this)
    (vidSource this) false (paused this) (closure this).
Proof. reflexivity. Qed.

(** After [release], a call of [demux] reads nothing, drops the
    demuxer and returns the end marker. *)
Lemma demux_after_release (d : Discovery) (this : FFmpegProducer) :
  demux d (release this) =
  (redio_end,
   mkFFmpegProducer (loadParams this) None (audSource this) (vidSource this)
     false (paused this) (closure this),
   []).
Proof. unfold demux, release. cbn. destruct (demuxer this); reflexivity. Qed.

(** So does every later call. *)
Lemma demux_after_release_again (d : Discovery) (this : FFmpegProducer) :
  let this' := snd (fst (demux d (release this))) in
  demux d this' = (redio_end, this', []).
Proof. unfold demux, release. cbn. destruct (demuxer this); reflexivity. Qed.

(** The [silence] generator does not look at the producer: released or
    not, it returns the channel group of the silent frame. *)
Lemma silence_after_release (cl : Closure) (this : FFmpegProducer) :
  silence cl (release this) =
  (value [mkAudioChannel "in0:a" [silentFrame cl]], release this, []).
Proof. reflexivity. Qed.

(** ** The deinterlace stage *)

Section DeintFacts.

Context {Y : Type} `{Deinterlacer Y}.

Lemma vidDeint_value (s : DeintState Y) (y : Y) (frame : OpenCLBuffer) :
  deint_yadif s = Some y ->
  vidDeint s (value frame) =
  (if (1 <? length (snd (processFrame y frame)))%nat
   then value (snd (processFrame y frame)) else redio_nil,
   mkDeintState (Some (fst (processFrame y frame)))
     (deint_released s ++ [frame]) (deint_yadif_releases s)).
Proof.
  intros Hy. unfold vidDeint, deint_process. rewrite Hy.
  destruct (processFrame y frame) as [y' dests]. reflexivity.
Qed.

(** C4 (amended). For a video buffer given to the deinterlace stage while
    its deinterlacer is live, the deinterlacer appending at most two
    buffers: the stage forwards the appended buffers when there are two of
    them and forwards nothing when there is none or one, so one buffer in
    gives zero or two buffers out; the input buffer is released after the
    deinterlacer has processed it, and the deinterlacer is kept. On the
    end marker the stage releases the deinterlacer, drops it, and forwards
    the marker. *)
Theorem vidDeint_forwards_pairs (s : DeintState Y) (y : Y) (frame : OpenCLBuffer) :
  deint_yadif s = Some y ->
  (length (snd (processFrame y frame)) <= 2)%nat ->
  let appended := snd (processFrame y frame) in
  let out := fst (vidDeint s (value frame)) in
  let s' := snd (vidDeint s (value frame)) in
  (length appended = 2%nat -> out = value appended /\ forwarded out = appended) /\
  (length appended = 0%nat -> out = redio_nil /\ forwarded out = appended) /\
  (length appended = 1%nat -> out = redio_nil /\ forwarded out = []) /\
  (length (forwarded out) = 0%nat \/ length (forwarded out) = 2%nat) /\
  deint_released s' = deint_released s ++ [frame] /\
  deint_yadif s' = Some (fst (processFrame y frame)) /\
  deint_yadif_releases s' = deint_yadif_releases s /\
  vidDeint s redio_end =
    (redio_end, mkDeintState None (deint_released s) (deint_yadif_releases s + 1)).
Proof.
  intros Hy Hle appended out s'. subst out s'.
  rewrite (vidDeint_value s y frame Hy). fold appended. cbn [fst snd].
  assert (Hcases : length appended = 0%nat \/ length appended = 1%nat
                   \/ length appended = 2%nat) by (subst appended; lia).
  split; [|split; [|split; [|split; [|split; [|split; [|split]]]]]].
  - intros E. rewrite E. split; reflexivity.
  - intros E. rewrite E. split; [reflexivity|].
    destruct appended; [reflexivity | discriminate].
  - intros E. rewrite E. split; reflexivity.
  - destruct Hcases as [E|[E|E]]; rewrite E; cbn; auto.
  - reflexivity.
  - reflexivity.
  - reflexivity.
  - unfold vidDeint. rewrite Hy. reflexivity.
Qed.

End DeintFacts.

(** ** The silent audio leg *)

Lemma make_silentFrame_eq :
  make_silentFrame = Frame.mk 1024 "s32" 0 48000 8 "8c" [Buffer_alloc 32768].
Proof. unfold make_silentFrame. rewrite audLayout_8c. reflexivity. Qed.

(** X2. A producer [initialise] returns for a source without audio streams
    holds the silent frame template (1024 samples of 8 channels, s32, at
    48000 Hz, all zero bytes), its audio pipe is the [silence] generator
    followed by [audFilter], and its audio filter graph was built as the
    pass-through graph at that same layout. *)
Lemma initialise_silent_template ext params cp p :
  initialise ext (createProducer params) cp = Ok p ->
  audioStreams (discovery_of p) = [] ->
  exists cl f,
    closure p = Some cl /\
    silentFrame cl = Some (Frame.mk 1024 "s32" 0 48000 8 "8c" [Buffer_alloc 32768]) /\
    audSource p = Some [stage_silence; stage_audFilter] /\
    audFilterer cl = Some f /\
    ext_filterer ext
      (AudioFilterer [mkAudioInputParam "in0:a" (1, 48000) 48000 "s32" (Some "8c")]
         [mkAudioOutputParam "out0:a" 48000 "s32" "8c"]
         "[in0:a] asetpts=N/SR/TB [out0:a]") = Returns f.
Proof.
  assert (Hopts : silence_filterer_options =
            AudioFilterer [mkAudioInputParam "in0:a" (1, 48000) 48000 "s32" (Some "8c")]
              [mkAudioOutputParam "out0:a" 48000 "s32" "8c"]
              "[in0:a] asetpts=N/SR/TB [out0:a]").
  { unfold silence_filterer_options, audio_outputParams. rewrite audLayout_8c. reflexivity. }
  rewrite <- Hopts, <- make_silentFrame_eq. clear Hopts.
  unfold initialise, initialise_audio.
  destruct (ext_demuxer ext _) as [dmx|]; cbn; [|discriminate].
  destruct (if number_truthy _ then _ else _) as [rest|]; cbn; [|discriminate].
  destruct (discover ext (streams dmx)) as [d|]; cbn; [|discriminate].
  destruct (audioStreams d !! 0%nat) as [a|] eqn:Ha.
  - destruct (ext_filterer ext _) as [f|]; cbn; [|discriminate].
    unfold initialise_video. destruct (videoStreams d !! 0%nat) as [v|]; [|discriminate].
    destruct (select_loader _ _ _) as [[t fof]|]; cbn; [|discriminate].
    destruct (ext_toRGBA_init ext t); cbn; [|discriminate].
    destruct (ext_filterer ext (video_filterer_options _ _ _)); cbn; [|discriminate].
    destruct (ext_yadif_init ext _); cbn; [|discriminate].
    intros [= <-]. unfold discovery_of. cbn. intros Hnil. rewrite Hnil in Ha. discriminate.
  - destruct (ext_filterer ext silence_filterer_options) as [f|] eqn:Hf; cbn; [|discriminate].
    unfold initialise_video. destruct (videoStreams d !! 0%nat) as [v|]; [|discriminate].
    destruct (select_loader _ _ _) as [[t fof]|]; cbn; [|discriminate].
    destruct (ext_toRGBA_init ext t); cbn; [|discriminate].
    destruct (ext_filterer ext (video_filterer_options _ _ _)); cbn; [|discriminate].
    destruct (ext_yadif_init ext _); cbn; [|discriminate].
    intros [= <-]. unfold discovery_of. cbn. intros Hnil.
    eexists _, f. rewrite Hnil. cbn. repeat split.
Qed.

(** C5 (the code at the failing input). A pull of the audio leg of a
    source without audio streams, made after [release], still calls the
    generator and runs the silent channel group through the filter graph:
    the frames the graph gives are handed on, and the producer is as
    [release] left it. *)
Theorem silent_leg_ignores_release {G : Type} `{AudioFilterGraph G}
    (cl : Closure) (this : FFmpegProducer) (g : G) :
  silent_leg_pull cl (release this) (Some g) =
  (aud_filtered
     (if (0 <? length (snd (graph_filter g [mkAudioChannel "in0:a" [silentFrame cl]])))%nat
      then value (snd (graph_filter g [mkAudioChannel "in0:a" [silentFrame cl]]))
      else redio_nil),
   Some (fst (graph_filter g [mkAudioChannel "in0:a" [silentFrame cl]])),
   release this).
Proof.
  unfold silent_leg_pull, silence, audFilter.
  destruct (graph_filter g _) as [g' out]. reflexivity.
Qed.

(** ** Static configuration *)

Lemma VideoFormats_new_lookup (name : string) :
  VideoFormats.new !! name =
    if bool_decide (name = "1080p5000")
    then Some (VideoFormat.mk "1080p5000" 1 1920 1080 1920 1080 50 1 48000)
    else if bool_decide (name = "1080i5000")
    then Some (VideoFormat.mk "1080i5000" 2 1920 1080 1920 1080 50 1 48000)
    else None.
Proof.
  unfold VideoFormats.new.
  case_bool_decide as H1.
  - subst. now rewrite lookup_insert_eq.
  - rewrite lookup_insert_ne by congruence.
    case_bool_decide as H2.
    + subst. now rewrite lookup_insert_eq.
    + rewrite lookup_insert_ne by congruence. apply lookup_empty.
Qed.

(** X3. [VideoFormats.get] on the formats the constructor registers: for
    one of the two registered names it returns the format that carries
    that name; for every other name it throws the error "Video format
    <name> not found". *)
Theorem VideoFormats_get_registered (name : string) :
  match VideoFormats.get VideoFormats.new name with
  | Ok format =>
      VideoFormat.name format = name /\ name ∈ ["1080i5000"; "1080p5000"]
  | Throw e =>
      e = PlainError ("Video format " +:+ name +:+ " not found")
      /\ name ∉ ["1080i5000"; "1080p5000"]
  end.
Proof.
  unfold VideoFormats.get. rewrite VideoFormats_new_lookup.
  case_bool_decide as H1; [subst; split; [reflexivity | repeat constructor]|].
  case_bool_decide as H2; [subst; split; [reflexivity | repeat constructor]|].
  split; [reflexivity|].
  rewrite !not_elem_of_cons. repeat split; try assumption. apply not_elem_of_nil.
Qed.

Lemma Config_consumer_device (formats : gmap string VideoFormat.t)
    (deviceIndex : Z) (c : ConsumerConfig.t) (key : string) :
  Config.consumer formats deviceIndex = Ok c ->
  ConsumerConfig.device c !! key =
    if bool_decide (key = "deviceIndex") then Some (JsNumber deviceIndex)
    else if bool_decide (key = "embeddedAudio") then Some (JsBoolean true)
    else decklinkDefaults !! key.
Proof.
  unfold Config.consumer, VideoFormats.get.
  destruct (formats !! "1080i5000") as [format|]; [|discriminate].
  cbn. intros [= <-]. cbn. unfold Object_assign.
  case_bool_decide as H1.
  - subst. reflexivity.
  - case_bool_decide as H2.
    + subst. reflexivity.
    + apply lookup_union_r. cbn.
      rewrite lookup_insert_ne by congruence.
      rewrite lookup_insert_ne by congruence.
      apply lookup_empty.
Qed.

(** The [Config] constructor does not throw, and sets up four
    consumers: the one at position [i] (from 0) has the format
    1080i5000, two fields per frame, and a device configuration that is
    [decklinkDefaults] with [deviceIndex] set to [i + 1] and
    [embeddedAudio] set to [true], every other key being as in the
    defaults. *)
Theorem Config_new_consumers :
  exists config, Config.new = Ok config
    /\ length (Config.consumers config) = 4%nat
    /\ forall (i : nat) c, Config.consumers config !! i = Some c ->
         VideoFormats.get (Config.videoFormats config) "1080i5000"
           = Ok (ConsumerConfig.format c)
         /\ VideoFormat.fields (ConsumerConfig.format c) = 2
         /\ forall key, ConsumerConfig.device c !! key =
              if bool_decide (key = "deviceIndex") then Some (JsNumber (Z.of_nat i + 1))
              else if bool_decide (key = "embeddedAudio") then Some (JsBoolean true)
              else decklinkDefaults !! key.
Proof.
  unfold Config.new.
  pose proof (Config_consumer_device VideoFormats.new) as Hdev.
  assert (Hfmt : forall n, exists c, Config.consumer VideoFormats.new n = Ok c
            /\ VideoFormats.get VideoFormats.new "1080i5000" = Ok (ConsumerConfig.format c)
            /\ VideoFormat.fields (ConsumerConfig.format c) = 2).
  { intros n. unfold Config.consumer, VideoFormats.get.
    rewrite VideoFormats_new_lookup. cbn. eexists. repeat split. }
  destruct (Hfmt 1) as (c1 & E1 & F1 & G1). destruct (Hfmt 2) as (c2 & E2 & F2 & G2).
  destruct (Hfmt 3) as (c3 & E3 & F3 & G3). destruct (Hfmt 4) as (c4 & E4 & F4 & G4).
  rewrite E1, E2, E3, E4. cbn.
  eexists. split; [reflexivity|]. split; [reflexivity|].
  intros i c Hi. cbn in Hi.
  destruct i as [|[|[|[|i]]]]; cbn in Hi; try discriminate;
    injection Hi as <-; (split; [assumption|]); (split; [assumption|]);
    intros key; eapply (Hdev _ _ key); eassumption.
Qed.

(** ** The basic AMCP commands *)

Section BasicCmdsFacts.

Context {N C : Type} `{NumberOps N} `{Channel.Ops N C}.

Lemma Array_find_includes (w : string) (l : list string) (i : nat) :
  is_Some_b (fst (Array_find (fun (s : unit) param (_ : nat) => (s, String.eqb param w))
                    tt l i))
  = bool_decide (w ∈ l).
Proof.
  revert i. induction l as [|x rest IH]; intros i; cbn.
  - symmetry. apply bool_decide_eq_false. apply not_elem_of_nil.
  - destruct (String.eqb_spec x w) as [->|Hne]; cbn.
    + symmetry. apply bool_decide_eq_true. constructor.
    + rewrite IH. apply bool_decide_ext. rewrite elem_of_cons.
      split; [tauto | intros [E|E]; [congruence | exact E]].
Qed.

Lemma Array_find_first (w : string) (l : list string) (s i0 : nat) :
  match list_find (fun p => p = w) l with
  | Some (i, x) =>
      Array_find (fun (_ : nat) param i => (i, String.eqb param w)) s l i0
        = (Some x, (i0 + i)%nat)
  | None =>
      fst (Array_find (fun (_ : nat) param i => (i, String.eqb param w)) s l i0)
        = None
  end.
Proof.
  revert s i0. induction l as [|x rest IH]; intros s i0; cbn; [reflexivity|].
  destruct (String.eqb_spec x w) as [->|Hne].
  - rewrite decide_True by reflexivity. cbn. f_equal. lia.
  - rewrite decide_False by assumption.
    specialize (IH i0 (S i0)).
    destruct (list_find (fun p => p = w) rest) as [[i y]|]; cbn.
    + rewrite IH. f_equal. lia.
    + exact IH.
Qed.

Lemma on_channel_frame {A : Type} (channels : list C) (chanLay : ChanLayer.t)
    (prop : string) (m : C -> Foreign (A * C)) (a : A) (channels' : list C) :
  BasicCmds.on_channel channels chanLay prop m = Ok (a, channels') ->
  length channels' = length channels
  /\ forall j, j <> Z.to_nat (ChanLayer.channel chanLay - 1) ->
       channels' !! j = channels !! j.
Proof.
  unfold BasicCmds.on_channel.
  destruct (BasicCmds.channel_at channels (ChanLayer.channel chanLay - 1)) as [c|]; [|discriminate].
  destruct (m c) as [[a' c']|n msg]; cbn; [|discriminate].
  intros [= <- <-]. split.
  - apply length_insert.
  - intros j Hj. apply list_lookup_insert_ne. congruence.
Qed.

Lemma on_channel_undefined {A : Type} (channels : list C) (chanLay : ChanLayer.t)
    (prop : string) (m : C -> Foreign (A * C)) :
  BasicCmds.channel_at channels (ChanLayer.channel chanLay - 1) = None ->
  BasicCmds.on_channel channels chanLay prop m = Throw (TypeError_undefined prop).
Proof. unfold BasicCmds.on_channel. now intros ->. Qed.

Lemma on_channel_again {A : Type} (channels : list C) (chanLay : ChanLayer.t)
    (c c' : C) (prop : string) (m : C -> Foreign (A * C)) :
  BasicCmds.channel_at channels (ChanLayer.channel chanLay - 1) = Some c ->
  BasicCmds.on_channel (<[Z.to_nat (ChanLayer.channel chanLay - 1) := c']> channels)
    chanLay prop m
  = '(a, c'') ← external (m c');
    Ok (a, <[Z.to_nat (ChanLayer.channel chanLay - 1) := c'']> channels).
Proof.
  unfold BasicCmds.on_channel, BasicCmds.channel_at.
  destruct (ChanLayer.channel chanLay - 1 <? 0)%Z; [discriminate|].
  intros Hc. rewrite list_lookup_insert_eq by (eapply lookup_lt_Some; eassumption).
  destruct (m c') as [[a c'']|n msg]; cbn; [|reflexivity].
  now rewrite list_insert_insert_eq.
Qed.

Lemma loadbg_frame (channels : list C) (chanLay : ChanLayer.t)
    (params : list string) (ok : bool) (channels' : list C) :
  BasicCmds.loadbg channels chanLay params = Ok (ok, channels') ->
  length channels' = length channels
  /\ forall j, j <> Z.to_nat (ChanLayer.channel chanLay - 1) ->
       channels' !! j = channels !! j.
Proof.
  unfold BasicCmds.loadbg.
  destruct (Array_find (fun (_ : nat) param i => (i, String.eqb param "SEEK"))
              0%nat params 0) as [found curParam].
  destruct (ChanLayer.valid chanLay); cbn [negb].
  - apply on_channel_frame.
  - intros [= <- <-]. now split.
Qed.

Lemma loadbg_undefined (channels : list C) (chanLay : ChanLayer.t)
    (params : list string) :
  BasicCmds.channel_at channels (ChanLayer.channel chanLay - 1) = None ->
  BasicCmds.loadbg channels chanLay params =
    if ChanLayer.valid chanLay then Throw (TypeError_undefined "loadSource")
    else Ok (false, channels).
Proof.
  intros Hnone. unfold BasicCmds.loadbg.
  destruct (Array_find (fun (_ : nat) param i => (i, String.eqb param "SEEK"))
              0%nat params 0) as [found curParam].
  destruct (ChanLayer.valid chanLay); cbn [negb]; [|reflexivity].
  now apply on_channel_undefined.
Qed.

Lemma loadbg_eq (channels : list C) (chanLay : ChanLayer.t) (params : list string) :
  BasicCmds.loadbg channels chanLay params =
    if ChanLayer.valid chanLay then
      BasicCmds.on_channel channels chanLay "loadSource"
        (fun c => Channel.loadSource c (ChanLayer.layer chanLay)
                    (loadbg_words params) false)
    else Ok (false, channels).
Proof.
  unfold BasicCmds.loadbg, loadbg_words.
  destruct (ChanLayer.valid chanLay); cbn [negb]; [|reflexivity].
  rewrite !Array_find_includes.
  pose proof (Array_find_first "SEEK" params 0 0) as Hfind.
  destruct (Array_find (fun (_ : nat) param i => (i, String.eqb param "SEEK"))
              0%nat params 0) as [found curParam].
  destruct (list_find (fun p => p = "SEEK") params) as [[i x]|].
  - injection Hfind as -> ->. cbn [is_Some_b].
    replace (i + 1)%nat with (S i) by lia. reflexivity.
  - cbn in Hfind. subst found. reflexivity.
Qed.

(** X4. What LOADBG asks of the channel, read off the words of the
    command: for an invalid channel/layer it returns [false] and calls
    nothing; otherwise it calls [loadSource] (not as a preview) on channel
    [chanLay.channel - 1] with the first word as url, [loop] and
    [autoPlay] true exactly when the word LOOP, respectively AUTO, occurs
    anywhere among the words (the first included), [seek] the number made
    of the word after the first SEEK (0 without SEEK, NaN when SEEK is
    the last word), and [channel] the number made of the second word when
    the first is DECKLINK, else 0. *)
Theorem loadbg_request (channels : list C) (chanLay : ChanLayer.t)
    (params : list string) :
  BasicCmds.loadbg channels chanLay params =
    if ChanLayer.valid chanLay then
      BasicCmds.on_channel channels chanLay "loadSource"
        (fun c => Channel.loadSource c (ChanLayer.layer chanLay)
           (CmdLoadParams.mk
              (params !! 0%nat)
              (Some (if bool_decide (params !! 0%nat = Some "DECKLINK")
                     then unary_plus (params !! 1%nat) else number_of_Z 0))
              (Some (bool_decide ("LOOP" ∈ params)))
              (Some (bool_decide ("AUTO" ∈ params)))
              (Some (match list_find (fun p => p = "SEEK") params with
                     | Some (i, _) => unary_plus (params !! S i)
                     | None => number_of_Z 0
                     end)))
           false)
    else Ok (false, channels).
Proof.
  unfold BasicCmds.loadbg.
  destruct (ChanLayer.valid chanLay); cbn [negb]; [|reflexivity].
  rewrite !Array_find_includes.
  pose proof (Array_find_first "SEEK" params 0 0) as Hfind.
  destruct (Array_find (fun (_ : nat) param i => (i, String.eqb param "SEEK"))
              0%nat params 0) as [found curParam].
  destruct (list_find (fun p => p = "SEEK") params) as [[i x]|].
  - injection Hfind as -> ->. cbn [is_Some_b].
    replace (i + 1)%nat with (S i) by lia. reflexivity.
  - cbn in Hfind. subst found. reflexivity.
Qed.

(** X5. Every command of the list acts on one channel only. For an
    invalid channel/layer it returns [false] and leaves every channel
    alone. For a valid one that names no channel of the array
    ([chanLay.channel - 1] out of range) it throws a TypeError. And when
    it returns, the array has as many channels as before, all of them
    unchanged but the one at [chanLay.channel - 1]. *)
Theorem command_addresses_one_channel (cmd : string)
    (fn : list C -> ChanLayer.t -> list string -> Result (bool * list C))
    (channels : list C) (chanLay : ChanLayer.t) (params : list string) :
  (cmd, fn) ∈ BasicCmds.entries ->
  (ChanLayer.valid chanLay = false -> fn channels chanLay params = Ok (false, channels))
  /\ (ChanLayer.valid chanLay = true ->
      BasicCmds.channel_at channels (ChanLayer.channel chanLay - 1) = None ->
      exists prop, fn channels chanLay params = Throw (TypeError_undefined prop))
  /\ (forall ok channels', fn channels chanLay params = Ok (ok, channels') ->
      length channels' = length channels
      /\ forall j, j <> Z.to_nat (ChanLayer.channel chanLay - 1) ->
           channels' !! j = channels !! j).
Proof.
  intros Hin. unfold BasicCmds.entries in Hin.
  assert (Hpass : forall a b (Heq : a = b :> list C),
            length a = length b /\ forall j : nat,
              j <> Z.to_nat (ChanLayer.channel chanLay - 1) -> a !! j = b !! j)
    by (intros a b ->; split; reflexivity).
  repeat (apply elem_of_cons in Hin as [Hin|Hin]; [injection Hin as -> ->|]);
    [..|now apply elem_of_nil in Hin].
  - (* LOADBG *)
    unfold BasicCmds.loadbg.
    destruct (Array_find (fun (_ : nat) param i => (i, String.eqb param "SEEK"))
                0%nat params 0) as [found curParam].
    destruct (ChanLayer.valid chanLay); cbn [negb].
    + split; [discriminate|]. split.
      * intros _ Hnone. eexists. now apply on_channel_undefined.
      * intros ok channels'. apply on_channel_frame.
    + split; [reflexivity|]. split; [discriminate|].
      intros ok channels' [= <- <-]. now apply Hpass.
  - (* LOAD *)
    unfold BasicCmds.load.
    destruct (ChanLayer.valid chanLay); cbn [negb].
    + split; [discriminate|]. split.
      * intros _ Hnone. eexists. now apply on_channel_undefined.
      * intros ok channels'. apply on_channel_frame.
    + split; [reflexivity|]. split; [discriminate|].
      intros ok channels' [= <- <-]. now apply Hpass.
  - (* PLAY *)
    unfold BasicCmds.play.
    destruct (ChanLayer.valid chanLay); cbn [negb].
    + split; [discriminate|]. split.
      * intros _ Hnone.
        destruct (negb (length params =? 0)%nat).
        -- rewrite (loadbg_undefined _ _ _ Hnone).
           destruct (ChanLayer.valid chanLay); cbn; eexists; try reflexivity.
           now rewrite on_channel_undefined.
        -- cbn. eexists. now apply on_channel_undefined.
      * intros ok channels'.
        destruct (negb (length params =? 0)%nat); [|cbn; apply on_channel_frame].
        destruct (BasicCmds.loadbg channels chanLay params) as [[bgOK channels1]|e] eqn:Hbg;
          cbn; [|discriminate].
        intros Hplay. apply on_channel_frame in Hplay as [Hlen Hother].
        apply loadbg_frame in Hbg as [Hlen1 Hother1].
        split; [congruence|]. intros j Hj. now rewrite Hother, Hother1.
    + split; [reflexivity|]. split; [discriminate|].
      intros ok channels' [= <- <-]. now apply Hpass.
  - (* PAUSE *)
    unfold BasicCmds.pause.
    destruct (ChanLayer.valid chanLay); cbn [negb].
    + split; [discriminate|]. split.
      * intros _ Hnone. rewrite on_channel_undefined by assumption. now eexists.
      * intros ok channels'.
        destruct (BasicCmds.on_channel _ _ _ _) as [[u channels1]|e] eqn:Hm;
          cbn; [|discriminate].
        intros [= <- <-]. eapply on_channel_frame, Hm.
    + split; [reflexivity|]. split; [discriminate|].
      intros ok channels' [= <- <-]. now apply Hpass.
  - (* RESUME *)
    unfold BasicCmds.resume.
    destruct (ChanLayer.valid chanLay); cbn [negb].
    + split; [discriminate|]. split.
      * intros _ Hnone. rewrite on_channel_undefined by assumption. now eexists.
      * intros ok channels'.
        destruct (BasicCmds.on_channel _ _ _ _) as [[u channels1]|e] eqn:Hm;
          cbn; [|discriminate].
        intros [= <- <-]. eapply on_channel_frame, Hm.
    + split; [reflexivity|]. split; [discriminate|].
      intros ok channels' [= <- <-]. now apply Hpass.
  - (* STOP *)
    unfold BasicCmds.stop.
    destruct (ChanLayer.valid chanLay); cbn [negb].
    + split; [discriminate|]. split.
      * intros _ Hnone. rewrite on_channel_undefined by assumption. now eexists.
      * intros ok channels'.
        destruct (BasicCmds.on_channel _ _ _ _) as [[u channels1]|e] eqn:Hm;
          cbn; [|discriminate].
        intros [= <- <-]. eapply on_channel_frame, Hm.
    + split; [reflexivity|]. split; [discriminate|].
      intros ok channels' [= <- <-]. now apply Hpass.
  - (* CLEAR *)
    unfold BasicCmds.clear.
    destruct (ChanLayer.valid chanLay); cbn [negb].
    + split; [discriminate|]. split.
      * intros _ Hnone. rewrite on_channel_undefined by assumption. now eexists.
      * intros ok channels'.
        destruct (BasicCmds.on_channel _ _ _ _) as [[u channels1]|e] eqn:Hm;
          cbn; [|discriminate].
        intros [= <- <-]. eapply on_channel_frame, Hm.
    + split; [reflexivity|]. split; [discriminate|].
      intros ok channels' [= <- <-]. now apply Hpass.
Qed.

(** X6. PLAY on a valid channel/layer that names the channel in state
    [c]. With words, it first has the channel load in the background what
    LOADBG makes of the words, and then plays on the channel as the load
    left it: the command's result is that of [play], whatever the load
    returned, and a load that throws keeps [play] from being called.
    Without words it plays on the channel as it is. Only that channel's
    entry of the array changes. *)
Theorem play_loads_then_plays (channels : list C) (chanLay : ChanLayer.t)
    (params : list string) (c : C) :
  ChanLayer.valid chanLay = true ->
  BasicCmds.channel_at channels (ChanLayer.channel chanLay - 1) = Some c ->
  BasicCmds.play channels chanLay params =
    match params with
    | [] =>
        match Channel.play c (ChanLayer.layer chanLay) with
        | Throws n msg => Throw (ForeignError n msg)
        | Returns (fgOK, c2) =>
            Ok (fgOK, <[Z.to_nat (ChanLayer.channel chanLay - 1) := c2]> channels)
        end
    | _ :: _ =>
        match Channel.loadSource c (ChanLayer.layer chanLay) (loadbg_words params) false with
        | Throws n msg => Throw (ForeignError n msg)
        | Returns (_, c1) =>
            match Channel.play c1 (ChanLayer.layer chanLay) with
            | Throws n msg => Throw (ForeignError n msg)
            | Returns (fgOK, c2) =>
                Ok (fgOK, <[Z.to_nat (ChanLayer.channel chanLay - 1) := c2]> channels)
            end
        end
    end.
Proof.
  intros Hvalid Hc. unfold BasicCmds.play. rewrite loadbg_eq, Hvalid. cbn [negb].
  destruct params as [|w params]; cbn [length Nat.eqb negb].
  - cbn. unfold BasicCmds.on_channel. rewrite Hc.
    destruct (Channel.play c (ChanLayer.layer chanLay)) as [[fgOK c2]|n msg]; reflexivity.
  - unfold BasicCmds.on_channel at 2. rewrite Hc.
    destruct (Channel.loadSource c (ChanLayer.layer chanLay) (loadbg_words (w :: params))
                false) as [[bgOK c1]|n msg]; cbn; [|reflexivity].
    rewrite (on_channel_again _ _ c c1 _ _ Hc).
    destruct (Channel.play c1 (ChanLayer.layer chanLay)) as [[fgOK c2]|n msg]; reflexivity.
Qed.

End BasicCmdsFacts.

(** ** The decode stages *)

Lemma array_includes_elem (indexes : list Z) (i : Z) :
  array_includes indexes i = true <-> i ∈ indexes.
Proof.
  unfold array_includes. rewrite existsb_exists. split.
  - intros (x & Hin & Heq). apply Z.eqb_eq in Heq. subst x.
    now apply list_elem_of_In.
  - intros Hin. exists i. split; [now apply list_elem_of_In | apply Z.eqb_refl].
Qed.

Section DecodeFacts.

Context {W : Type} `{CodecLibrary W}.
Variable ext : Externals.

(** Every stream selected by the discovery loop has its decoder in the
    map. *)
Lemma discovered_decoder (done : list Stream.t) (d : Discovery) (i : Z) :
  discovered ext done d ->
  i ∈ audioIndexes d ++ videoIndexes d ->
  exists dec, decoders d !! i = Some dec /\ ext_decoder ext i = Returns dec.
Proof.
  intros Hd Hi.
  assert (Hdom : i ∈ dom (decoders d)).
  { rewrite (disc_dom _ _ _ Hd). now apply elem_of_list_to_set. }
  apply elem_of_dom in Hdom as [dec Hdec].
  exists dec. split; [exact Hdec|]. exact (disc_dec _ _ _ Hd i dec Hdec).
Qed.

Lemma start_decodes_started (decoders : gmap Z Decoder) (w : W)
    (packets : list Packet.t) :
  Forall (fun p => is_Some (decoders !! Packet.stream_index p)) packets ->
  exists promises,
    start_decodes decoders w packets = (codecs_after decoders w packets, Ok promises)
    /\ length promises = length packets
    /\ forall i r, promises !! i = Some r ->
         exists p dec,
           packets !! i = Some p
           /\ decoders !! Packet.stream_index p = Some dec
           /\ r = snd (codec_decode (codecs_after decoders w (take i packets)) dec p).
Proof.
  intros Hall. revert w. induction Hall as [|p rest [dec Hdec] _ IH]; intros w.
  - exists []. cbn. repeat split. intros i r Hi. now rewrite lookup_nil in Hi.
  - cbn [start_decodes codecs_after]. rewrite Hdec.
    destruct (codec_decode w dec p) as [w1 r0] eqn:Hcall. cbn [fst].
    destruct (IH w1) as (rs & Hrs & Hlen & Hat). rewrite Hrs.
    exists (r0 :: rs). split; [reflexivity|]. split; [cbn; congruence|].
    intros [|i] r Hi.
    + injection Hi as <-. exists p, dec. cbn. rewrite Hcall. repeat split. exact Hdec.
    + destruct (Hat i r Hi) as (q & dec' & Hq & Hdec' & ->).
      exists q, dec'. split; [exact Hq|]. split; [exact Hdec'|].
      cbn [take codecs_after]. rewrite Hdec, Hcall. reflexivity.
Qed.

Lemma Promise_all_cases {A : Type} (promises : list (Foreign A)) :
  match Promise_all promises with
  | Ok values =>
      length values = length promises
      /\ forall i a, values !! i = Some a -> promises !! i = Some (Returns a)
  | Throw e => err_class e = ForeignErrorClass
  end.
Proof.
  induction promises as [|c rest IH]; cbn.
  - split; [reflexivity|]. intros i a Hi. now rewrite lookup_nil in Hi.
  - destruct c as [a0|n msg]; cbn; [|reflexivity].
    destruct (Promise_all rest) as [vs|e]; cbn; [|exact IH].
    destruct IH as [Hlen Hat]. split; [cbn; congruence|].
    intros [|i] a Hi; [injection Hi as <-; reflexivity | apply Hat, Hi].
Qed.

(** X7. [audDecode] behind [audPacketFilter], after a discovery that
    went through. Every packet the filter lets through has a decoder, so
    the stage never fails on a missing one: each audio packet of the
    batch is handed, in batch order, to the decoder made for its stream,
    and the stage fails only with an error of a decoder's own. When it
    returns, it returns one group for each audio packet of the batch: the
    group at position [i] holds the frames its decoder gave for the [i]th
    audio packet and is named [in<i>:a] by its position, whichever stream
    the packet is from. That is the name of an input of the audio filter
    graph only for [i] below the number of selected audio streams; a batch
    may hold more audio packets than that. *)
Theorem audDecode_behind_filter (done : list Stream.t) (d : Discovery) (w : W)
    (batch : list Packet.t) (audStream : Stream.t) :
  discovered ext done d ->
  let ps := filter (fun p => Packet.stream_index p ∈ audioIndexes d) batch in
  fst (audDecode d w (audPacketFilter d (value batch)))
    = codecs_after (decoders d) w ps
  /\ match snd (audDecode d w (audPacketFilter d (value batch))) with
     | Throw e => err_class e = ForeignErrorClass
     | Ok (value groups) =>
         length groups = length ps
         /\ forall i g, groups !! i = Some g ->
              name g = "in" +:+ pretty i +:+ ":a"
              /\ (exists p dec fr,
                    ps !! i = Some p
                    /\ ext_decoder ext (Packet.stream_index p) = Returns dec
                    /\ snd (codec_decode (codecs_after (decoders d) w (take i ps)) dec p)
                         = Returns fr
                    /\ frames g = Some <$> fr)
              /\ (ain_name <$> audio_inParams (audioStreams d) audStream) !! i
                   = if (i <? length (audioStreams d))%nat then Some (name g) else None
     | Ok _ => False
     end.
Proof.
  intros Hd ps. cbn [audPacketFilter audDecode].
  assert (Hps : filter (fun p => Is_true (array_includes (audioIndexes d)
                                            (Packet.stream_index p))) batch = ps).
  { subst ps. apply list_filter_iff. intros p.
    rewrite Is_true_true. apply array_includes_elem. }
  rewrite Hps.
  assert (Hall : Forall (fun p => is_Some (decoders d !! Packet.stream_index p)) ps).
  { apply Forall_forall. intros p Hp. subst ps.
    apply list_elem_of_filter in Hp as [Hsel _].
    destruct (discovered_decoder done d (Packet.stream_index p) Hd) as (dec & Hdec & _).
    - apply elem_of_app. now left.
    - now exists dec. }
  destruct (start_decodes_started (decoders d) w ps Hall) as (promises & Hst & Hpl & Hat).
  rewrite Hst. cbn [fst snd]. split; [reflexivity|].
  cbn. pose proof (Promise_all_cases promises) as Hall'.
  destruct (Promise_all promises) as [frs|e]; cbn; [|exact Hall'].
  destruct Hall' as [Hlen Hret]. split.
  - rewrite length_imap. congruence.
  - intros i g Hg. rewrite list_lookup_imap in Hg.
    destruct (frs !! i) as [f|] eqn:Hf; [|discriminate]. injection Hg as <-.
    cbn [name frames]. split; [reflexivity|]. split.
    + destruct (Hat i (Returns f) (Hret i f Hf)) as (p & dec & Hp & Hdec & Hr).
      exists p, dec, f. split; [exact Hp|].
      split; [exact (disc_dec _ _ _ Hd _ _ Hdec)|]. split; [now rewrite <- Hr | reflexivity].
    + unfold audio_inParams. rewrite list_lookup_fmap, list_lookup_imap.
      change (match length (audioStreams d) with
              | O => false
              | S m' => (i <=? m')%nat
              end) with (i <? length (audioStreams d))%nat.
      destruct (Nat.ltb_spec i (length (audioStreams d))) as [Hlt|Hge].
      * destruct (lookup_lt_is_Some_2 (audioStreams d) i Hlt) as [s0 ->]. reflexivity.
      * rewrite lookup_ge_None_2 by lia. reflexivity.
Qed.

(** X8. [vidDecode] behind [vidPacketFilter], after a discovery that
    went through. A batch without a packet of the selected video stream
    makes the stage throw a TypeError (it reads [packets[0].stream_index]
    of an empty array) before any decoder is called. Otherwise the first
    video packet of the batch, and only that one, is decoded by the
    decoder made for its stream; the stage hands on the frames, or [nil]
    when the decoder gave none, and fails when the decoder does. *)
Theorem vidDecode_behind_filter (done : list Stream.t) (d : Discovery) (w : W)
    (batch : list Packet.t) :
  discovered ext done d ->
  match filter (fun p => Packet.stream_index p ∈ videoIndexes d) batch with
  | [] =>
      vidDecode d w (vidPacketFilter d (value batch))
        = (w, Throw (TypeError_undefined "stream_index"))
  | p0 :: _ =>
      exists dec, ext_decoder ext (Packet.stream_index p0) = Returns dec
        /\ vidDecode d w (vidPacketFilter d (value batch)) =
             (fst (codec_decode w dec p0),
              match snd (codec_decode w dec p0) with
              | Returns [] => Ok redio_nil
              | Returns frames => Ok (value frames)
              | Throws n msg => Throw (ForeignError n msg)
              end)
  end.
Proof.
  intros Hd. cbn [vidPacketFilter vidDecode].
  assert (Hf : filter (fun p => Is_true (array_includes (videoIndexes d) (Packet.stream_index p)))
                 batch
               = filter (fun p => Packet.stream_index p ∈ videoIndexes d) batch).
  { apply list_filter_iff. intros p. rewrite Is_true_true. apply array_includes_elem. }
  rewrite Hf.
  destruct (filter (fun p => Packet.stream_index p ∈ videoIndexes d) batch)
    as [|p0 rest] eqn:Hps; [reflexivity|].
  assert (Hp0 : p0 ∈ filter (fun p => Packet.stream_index p ∈ videoIndexes d) batch)
    by (rewrite Hps; constructor).
  apply list_elem_of_filter in Hp0 as [Hsel _].
  destruct (discovered_decoder done d (Packet.stream_index p0) Hd) as (dec & Hdec & Hext).
  { apply elem_of_app. now right. }
  exists dec. split; [exact Hext|]. cbn. rewrite Hdec.
  destruct (codec_decode w dec p0) as [w' [frames|n msg]]; cbn; [|reflexivity].
  destruct frames; reflexivity.
Qed.

End DecodeFacts.

(** ** The colour conversion stages *)

Section ConvertFacts.

Context {T : Type} `{ColourConverter T}.

(** X9. One frame through [vidLoader] and then [vidProcess]. With a
    converter, when the two stages return, the destination buffer handed
    on carries the frame's [pts], the source buffers made for the frame,
    each stamped with that [pts], are released, in order and after
    everything released before, and the converter is kept; they fail only
    with an error of the converter's own, or with the TypeError of reading
    [clSources[0].timestamp] when the converter made no source buffer.
    Once [vidProcess] has been handed something that is not a value, the
    converter is gone, nothing more is released, and a frame that reaches
    [vidLoader] afterwards makes it throw the TypeError of a call on
    [null]. *)
Theorem vidLoader_vidProcess_frame (width height : Z) (st : ConvState T)
    (frame : Frame.t) :
  match conv_toRGBA st with
  | Some convert =>
      match r ← vidLoader st (value frame);
            vidProcess width height (snd r) (fst r) with
      | Ok (value clDest, st') =>
          timestamp clDest = Frame.pts frame
          /\ is_Some (conv_toRGBA st')
          /\ exists convert1 clSources,
               createSources convert = Returns (convert1, clSources)
               /\ conv_released st' =
                    conv_released st ++ (set_timestamp (Frame.pts frame) <$> clSources)
      | Ok _ => False
      | Throw e =>
          err_class e = ForeignErrorClass
          \/ (e = TypeError_undefined "timestamp"
              /\ exists convert1, createSources convert = Returns (convert1, []))
      end
  | None => vidLoader st (value frame) = Throw (TypeError_null "createSources")
  end
  /\ forall other, (forall clSources, other <> value clSources) ->
       exists out st', vidProcess width height st other = Ok (out, st')
         /\ (forall clDest, out <> value clDest)
         /\ conv_released st' = conv_released st
         /\ vidLoader st' (value frame) = Throw (TypeError_null "createSources").
Proof.
  split.
  - unfold vidLoader.
    destruct (conv_toRGBA st) as [convert|]; [|reflexivity].
    destruct (createSources convert) as [[convert1 sources]|n msg] eqn:Hsrc; cbn;
      [|now left].
    destruct (loadFrame convert1 _ _) as [convert2|n msg]; cbn; [|now left].
    destruct (createDest convert2 width height) as [[convert3 clDest]|n msg]; cbn;
      [|now left].
    destruct sources as [|s0 sources]; cbn.
    + right. split; [reflexivity|]. now exists convert1.
    + destruct (convert_processFrame convert3 _ _) as [convert4|n msg]; cbn; [|now left].
      split; [reflexivity|]. split; [now eexists|].
      exists convert1, (s0 :: sources). split; reflexivity.
  - intros other Hother.
    destruct other as [clSources| |]; [now destruct (Hother clSources)| |];
      do 2 eexists; (split; [reflexivity|]); (split; [discriminate|]);
      split; reflexivity.
Qed.

End ConvertFacts.

(** ** Batches of the demux stage *)

Section DemuxBatchFacts.

Variables (audioIndexes videoIndexes : list Z) (expected : nat).

Lemma demux_packet_sizes (l : DemuxLocals) (p : Packet.t) :
  recorded_with_packet l ->
  let l' := demux_packet audioIndexes videoIndexes l p in
  recorded_with_packet l'
  /\ (length (packets l) <= length (packets l') <= S (length (packets l)))%nat
  /\ (doBreak l = false -> doBreak l' = true -> (2 <= length (packets l'))%nat).
Proof.
  unfold recorded_with_packet. intros Hinv. unfold demux_packet.
  destruct (array_includes audioIndexes (Packet.stream_index p)).
  - destruct (number_truthy (lastAudTimestamp l)) eqn:Ha; cbn [negb].
    + destruct (bool_decide (Some (Packet.pts p) = lastAudTimestamp l)); cbn;
        rewrite length_app; cbn; (split; [lia|]); (split; [lia|]);
        intros; try congruence; assert (1 <= length (packets l))%nat by tauto; lia.
    + cbn. rewrite length_app. cbn. split; [lia|]. split; [lia | congruence].
  - destruct (array_includes videoIndexes (Packet.stream_index p)).
    + destruct (number_truthy (lastVidTimestamp l)) eqn:Hv; cbn [negb].
      * destruct (bool_decide (Some (Packet.pts p) = lastVidTimestamp l)); cbn;
          rewrite length_app; cbn; (split; [lia|]); (split; [lia|]);
          intros; try congruence; assert (1 <= length (packets l))%nat by tauto; lia.
      * cbn. rewrite length_app. cbn. split; [lia|]. split; [lia | congruence].
    + cbn. split; [exact Hinv|]. split; [lia | congruence].
Qed.

Lemma demux_loop_batch_size (l : DemuxLocals) (src batch : list Packet.t) :
  recorded_with_packet l ->
  doBreak l = false ->
  (length (packets l) < expected)%nat ->
  demux_result (demux_loop audioIndexes videoIndexes expected l src) = value batch ->
  (1 <= length batch <= expected)%nat
  /\ (demux_console (demux_loop audioIndexes videoIndexes expected l src) <> [] ->
      (2 <= length batch)%nat).
Proof.
  revert l. induction src as [|p rest IH]; intros l Hinv Hbreak Hlt; cbn; [discriminate|].
  destruct (demux_packet_sizes l p Hinv) as (Hinv' & Hlen & Htwo).
  specialize (Htwo Hbreak).
  set (l' := demux_packet audioIndexes videoIndexes l p) in *.
  destruct (demux_done expected l') eqn:Hdone.
  - cbn. intros [= <-].
    unfold demux_done in Hdone. apply orb_true_iff in Hdone.
    destruct (doBreak l') eqn:Hb.
    + specialize (Htwo eq_refl). split; [lia|]. intros _. exact Htwo.
    + destruct Hdone as [Hdone|Hdone]; [discriminate|].
      apply Nat.eqb_eq in Hdone. split; [lia | congruence].
  - unfold demux_done in Hdone. apply orb_false_iff in Hdone as [Hb Hne].
    apply Nat.eqb_neq in Hne. apply IH; [exact Hinv' | exact Hb | lia].
Qed.

Lemma demux_loop_end_drained (l : DemuxLocals) (src : list Packet.t) :
  demux_result (demux_loop audioIndexes videoIndexes expected l src) = redio_end ->
  demux_unread (demux_loop audioIndexes videoIndexes expected l src) = [].
Proof.
  revert l. induction src as [|p rest IH]; intros l; cbn; [reflexivity|].
  destruct (demux_done expected (demux_packet audioIndexes videoIndexes l p));
    [discriminate | apply IH].
Qed.

End DemuxBatchFacts.

(** X10. The size of a batch. For a producer with at least one selected
    stream, a batch returned by [demux] is never empty and never holds
    more packets than there are selected streams; a batch sent on a
    timestamp mismatch (the call wrote to the console) holds at least
    two. *)
Theorem demux_batch_size (d : Discovery) (this : FFmpegProducer)
    (batch : list Packet.t) :
  (0 < length (audioStreams d) + length (videoStreams d))%nat ->
  fst (fst (demux d this)) = value batch ->
  (1 <= length batch <= length (audioStreams d) + length (videoStreams d))%nat
  /\ (snd (demux d this) <> [] -> (2 <= length batch)%nat).
Proof.
  intros Hpos. unfold demux.
  destruct (demuxer this) as [dmx|]; [|discriminate].
  destruct (running this); [|discriminate].
  cbn [fst snd]. apply demux_loop_batch_size.
  - intros [?|?]; discriminate.
  - reflexivity.
  - exact Hpos.
Qed.

(** X11. Successive calls of [demux] on a producer that is not released
    deliver the packets of the selected streams in the order the demuxer
    holds them, each at most once: the batches returned, put end to end,
    are the selected packets among those read, but for the packets [lost],
    and packets are lost only when the demuxer has run out (a last,
    incomplete batch is dropped for the end marker). *)
Theorem demux_calls_in_order (n : nat) (d : Discovery) (this : FFmpegProducer)
    (dmx : Demuxer) :
  demuxer this = Some dmx -> running this = true ->
  exists dmx' read lost,
    demuxer (snd (demux_calls n d this)) = Some dmx'
    /\ unread dmx = read ++ unread dmx'
    /\ filter (fun p => Is_true (selected_packet (audioIndexes d) (videoIndexes d) p)) read
       = concat (forwarded <$> fst (demux_calls n d this)) ++ lost
    /\ (lost = [] \/ unread dmx' = []).
Proof.
  revert this dmx. induction n as [|n IH]; intros this dmx Hdmx Hrun.
  - exists dmx, [], []. cbn. repeat split; try assumption. now left.
  - cbn [demux_calls]. unfold demux at 1 2. rewrite Hdmx, Hrun.
    set (expected := (length (audioStreams d) + length (videoStreams d))%nat).
    set (run := demux_loop (audioIndexes d) (videoIndexes d) expected DemuxLocals_init
                  (unread dmx)).
    set (this1 := mkFFmpegProducer (loadParams this)
                    (Some (mkDemuxer (streams dmx) (demux_unread run)))
                    (audSource this) (vidSource this) true (paused this) (closure this)).
    destruct (IH this1 (mkDemuxer (streams dmx) (demux_unread run)) eq_refl eq_refl)
      as (dmx' & read1 & lost1 & Hd' & Hread1 & Hsel1 & Hlost1).
    destruct (demux_calls n d this1) as [rs this2]. cbn [fst snd] in *.
    cbn [unread] in Hread1.
    destruct (demux_result run) as [batch| |] eqn:Hres.
    + destruct (demux_loop_value _ _ _ _ _ _ Hres) as (pre & p & Hsrc & _ & _ & Hbatch).
      fold run in Hsrc.
      exists dmx', ((pre ++ [p]) ++ read1), lost1. split; [exact Hd'|]. split.
      * rewrite Hsrc, Hread1, <- !app_assoc. reflexivity.
      * split; [|exact Hlost1].
        rewrite filter_app, Hsel1, Hbatch, scan_packets. cbn.
        rewrite <- app_assoc. reflexivity.
    + now destruct (demux_loop_not_nil _ _ _ _ _ Hres).
    + pose proof (demux_loop_end_drained _ _ _ _ _ Hres) as Hdrained. fold run in Hdrained.
      rewrite Hdrained in Hread1. symmetry in Hread1.
      apply app_eq_nil in Hread1 as [-> Hun].
      cbn in Hsel1. symmetry in Hsel1. apply app_eq_nil in Hsel1 as [Hnone ->].
      exists dmx', (unread dmx),
        (filter (fun p => Is_true (selected_packet (audioIndexes d) (videoIndexes d) p))
           (unread dmx)).
      split; [exact Hd'|]. split; [rewrite Hun, app_nil_r; reflexivity|].
      split; [cbn; rewrite Hnone; reflexivity | now right].
Qed.

(** ** The registry with its two factories *)

(** X12. [createSource] of the registry as its constructor fills it,
    for a source the Macadam factory does not recognize: the FFmpeg
    factory is tried next, and the call gives [null] exactly when the
    demuxer could not open the url, whatever error the demuxer threw;
    once the demuxer has opened it, the call gives the initialised FFmpeg
    producer, or throws to its caller the error that [initialise] failed
    with (it is never taken for a source that is not recognized). *)
Theorem ProducerRegistry_createSource {M : Type}
    (macadam : @Registry.ProducerFactory M) (ext : Externals)
    (params : LoadParams) (chanProperties : ChanProperties) (e0 : JsError) :
  macadam params chanProperties = Throw e0 ->
  instanceof_InvalidProducerError e0 = true ->
  let run := Registry.createSource (ProducerRegistry macadam ext) params chanProperties in
  Registry.invoked run = [0; 1]%nat
  /\ match ext_demuxer ext (url params) with
     | Throws n msg =>
         Registry.completion run = Ok None
         /\ Registry.recorded run = error_toString (ForeignError n msg)
     | Returns _ =>
         match initialise ext (createProducer params) chanProperties with
         | Ok p => Registry.completion run = Ok (Some (FFmpeg p))
         | Throw e =>
             Registry.completion run = Throw e
             /\ instanceof_InvalidProducerError e = false
         end
     end.
Proof.
  intros Hm He0 run. subst run.
  unfold Registry.createSource, ProducerRegistry. cbn [Registry.createSource_from].
  unfold as_Producer, FFmpegProducerFactory. rewrite Hm, He0. cbn [negb].
  destruct (ext_demuxer ext (url params)) as [dmx|n msg] eqn:Hopen.
  - destruct (initialise ext (createProducer params) chanProperties) as [p|e] eqn:Hinit.
    + split; reflexivity.
    + rewrite (initialise_opened_throw ext (createProducer params) chanProperties dmx e
                 Hopen Hinit).
      cbn. repeat split.
  - rewrite (initialise_not_opened ext (createProducer params) chanProperties n msg Hopen).
    cbn. repeat split.
Qed.

(** ** What a successful initialise leaves *)

Lemma initialise_audio_returns ext this dmx' d sf af :
  initialise_audio ext this = Ok (dmx', d, sf, af) ->
  exists dmx,
    ext_demuxer ext (url (loadParams this)) = Returns dmx
    /\ discover ext (streams dmx) = Ok d
    /\ streams dmx' = visited d
    /\ (if number_truthy (seek (loadParams this))
        then ext_seek ext dmx (default 0 (seek (loadParams this))) = Returns (unread dmx')
        else unread dmx' = unread dmx).
Proof.
  unfold initialise_audio.
  destruct (ext_demuxer ext (url (loadParams this))) as [dmx|n msg]; cbn; [|discriminate].
  intros Ha. exists dmx. split; [reflexivity|].
  destruct (number_truthy (seek (loadParams this))).
  - destruct (ext_seek ext dmx (default 0 (seek (loadParams this)))) as [rest|n msg];
      cbn in Ha; [|discriminate].
    destruct (discover ext (streams dmx)) as [d0|e]; cbn in Ha; [|discriminate].
    destruct (audioStreams d0 !! 0%nat) as [audStream|].
    + destruct (ext_filterer ext _) as [f|n msg]; cbn in Ha; [|discriminate].
      injection Ha as <- <- <- <-. repeat split.
    + destruct (ext_filterer ext _) as [f|n msg]; cbn in Ha; [|discriminate].
      injection Ha as <- <- <- <-. repeat split.
  - cbn in Ha.
    destruct (discover ext (streams dmx)) as [d0|e]; cbn in Ha; [|discriminate].
    destruct (audioStreams d0 !! 0%nat) as [audStream|].
    + destruct (ext_filterer ext _) as [f|n msg]; cbn in Ha; [|discriminate].
      injection Ha as <- <- <- <-. repeat split.
    + destruct (ext_filterer ext _) as [f|n msg]; cbn in Ha; [|discriminate].
      injection Ha as <- <- <- <-. repeat split.
Qed.

Lemma initialise_video_returns ext this cp dmx d sf af p :
  initialise_video ext this cp dmx d sf af = Ok p ->
  is_Some (videoStreams d !! 0%nat)
  /\ demuxer p = Some dmx
  /\ discovery_of p = d
  /\ loadParams p = loadParams this
  /\ running p = running this
  /\ paused p = paused this
  /\ getSourceAudio p =
       Some (if (0 <? length (audioStreams d))%nat
             then [stage_demux; stage_fork; stage_audPacketFilter;
                   stage_audDecode; stage_audFilter]
             else [stage_silence; stage_audFilter])
  /\ getSourceVideo p =
       Some [stage_demux; stage_fork; stage_vidPacketFilter; stage_vidDecode;
             stage_vidFilter; stage_vidLoader; stage_vidProcess; stage_vidDeint].
Proof.
  unfold initialise_video.
  destruct (videoStreams d !! 0%nat) as [vidStream|]; [|discriminate].
  destruct (select_loader _ _ _) as [[t fof]|e]; cbn; [|discriminate].
  destruct (ext_toRGBA_init ext t) as [[]|n msg]; cbn; [|discriminate].
  destruct (ext_filterer ext _) as [f|n msg]; cbn; [|discriminate].
  destruct (ext_yadif_init ext _) as [[]|n msg]; cbn; [|discriminate].
  intros [= <-]. cbn. repeat split. now eexists.
Qed.

(** X13. What holds when [initialise] returns. The demuxer opened the
    url; the producer reads from it the packets left after the seek, a
    seek being made only for a seek position that is given and not zero;
    the discovery loop went through all its streams and selected exactly
    one video stream, so that [demux] waits for one packet more than there
    are selected audio streams; both pipes are set, the audio pipe
    starting from [demux] when an audio stream was selected and from
    [silence] otherwise; and the load parameters and the [running] and
    [paused] flags are as they were before the call. *)
Theorem initialise_returns (ext : Externals) (this p : FFmpegProducer)
    (chanProperties : ChanProperties) :
  initialise ext this chanProperties = Ok p ->
  exists dmx dmx',
    ext_demuxer ext (url (loadParams this)) = Returns dmx
    /\ demuxer p = Some dmx'
    /\ (if number_truthy (seek (loadParams this))
        then ext_seek ext dmx (default 0 (seek (loadParams this))) = Returns (unread dmx')
        else unread dmx' = unread dmx)
    /\ discovered ext (streams dmx) (discovery_of p)
    /\ streams dmx' = visited (discovery_of p)
    /\ length (videoStreams (discovery_of p)) = 1%nat
    /\ getSourceAudio p =
         Some (if (0 <? length (audioStreams (discovery_of p)))%nat
               then [stage_demux; stage_fork; stage_audPacketFilter;
                     stage_audDecode; stage_audFilter]
               else [stage_silence; stage_audFilter])
    /\ getSourceVideo p =
         Some [stage_demux; stage_fork; stage_vidPacketFilter; stage_vidDecode;
               stage_vidFilter; stage_vidLoader; stage_vidProcess; stage_vidDeint]
    /\ loadParams p = loadParams this
    /\ running p = running this
    /\ paused p = paused this.
Proof.
  unfold initialise.
  destruct (initialise_audio ext this) as [[[[dmx' d] sf] af]|e] eqn:Ha; cbn; [|discriminate].
  intros Hv.
  destruct (initialise_audio_returns _ _ _ _ _ _ Ha) as (dmx & Hopen & Hdisc & Hstreams & Hseek).
  destruct (initialise_video_returns _ _ _ _ _ _ _ _ Hv)
    as (Hvid & Hdmx & Hd & Hlp & Hrun & Hpaused & Haud & Hvideo).
  assert (Hdiscovered : discovered ext (streams dmx) d).
  { apply (discover_from_discovered ext (streams dmx) [] Discovery_empty d).
    - apply discovered_empty.
    - exact Hdisc. }
  exists dmx, dmx'. rewrite Hd.
  repeat (split; [assumption|]).
  split; [|repeat (split; [assumption|]); assumption].
  rewrite (disc_video _ _ _ Hdiscovered), length_fmap.
  destruct Hvid as [vs Hvs]. rewrite (disc_video _ _ _ Hdiscovered) in Hvs.
  apply first_video_one.
  rewrite list_lookup_fmap in Hvs.
  destruct (first_video (streams dmx) !! 0%nat) as [s|] eqn:Hs; [|discriminate].
  unfold first_video in Hs. apply lookup_take_Some in Hs as [Hs _].
  apply list_elem_of_lookup_2 in Hs. apply list_elem_of_filter in Hs as [Hv' Hin].
  exists s. split; [exact Hin | now apply Is_true_true].
Qed.

(** ** The fork behind demux *)

Lemma filter_either_length {A : Type} (P Q : A -> Prop)
    `{forall x, Decision (P x)} `{forall x, Decision (Q x)} (l : list A) :
  Forall (fun x => (P x /\ ~ Q x) \/ (Q x /\ ~ P x)) l ->
  (length (filter P l) + length (filter Q l))%nat = length l.
Proof.
  induction 1 as [|x l Hx _ IH]; [reflexivity|].
  rewrite !filter_cons.
  destruct (decide (P x)) as [HP|HP], (decide (Q x)) as [HQ|HQ]; cbn; try lia; tauto.
Qed.

(** X14. The two legs share out a batch. For a source whose streams have
    distinct indexes, each packet of a batch returned by [demux] passes
    exactly one of [audPacketFilter] and [vidPacketFilter]: what the two
    filters let through adds up to the batch, and no packet goes down
    both legs. *)
Theorem demux_batch_legs (ext : Externals) (done : list Stream.t) (d : Discovery)
    (this : FFmpegProducer) (batch : list Packet.t) :
  discovered ext done d ->
  NoDup (Stream.index <$> done) ->
  fst (fst (demux d this)) = value batch ->
  (forall p, p ∈ batch ->
     array_includes (audioIndexes d) (Packet.stream_index p)
       = negb (array_includes (videoIndexes d) (Packet.stream_index p)))
  /\ (length (forwarded (audPacketFilter d (value batch)))
      + length (forwarded (vidPacketFilter d (value batch))))%nat = length batch.
Proof.
  intros Hd Hnd Hbatch.
  assert (Hsel : forall p, p ∈ batch ->
            selected_packet (audioIndexes d) (videoIndexes d) p = true).
  { unfold demux in Hbatch.
    destruct (demuxer this) as [dmx|]; [|discriminate].
    destruct (running this); [|discriminate]. cbn [fst] in Hbatch.
    destruct (demux_loop_value _ _ _ _ _ _ Hbatch) as (pre & q & _ & _ & _ & ->).
    intros p Hp. rewrite scan_packets in Hp. cbn in Hp.
    apply list_elem_of_filter in Hp as [Hp _]. now apply Is_true_true. }
  assert (Hdisj : forall i, i ∈ audioIndexes d -> i ∉ videoIndexes d).
  { pose proof (selected_indexes_NoDup done Hnd) as Hnd'.
    rewrite <- (disc_aidx _ _ _ Hd), <- (disc_vidx _ _ _ Hd) in Hnd'.
    apply NoDup_app in Hnd' as (_ & Hdisj & _). exact Hdisj. }
  assert (Hone : forall p, p ∈ batch ->
            array_includes (audioIndexes d) (Packet.stream_index p)
              = negb (array_includes (videoIndexes d) (Packet.stream_index p))).
  { intros p Hp. specialize (Hsel p Hp). unfold selected_packet in Hsel.
    destruct (array_includes (audioIndexes d) (Packet.stream_index p)) eqn:Ha.
    - apply array_includes_elem, Hdisj in Ha.
      destruct (array_includes (videoIndexes d) (Packet.stream_index p)) eqn:Hv;
        [|reflexivity].
      now apply array_includes_elem in Hv.
    - cbn in Hsel. now rewrite Hsel. }
  split; [exact Hone|].
  cbn [audPacketFilter vidPacketFilter forwarded].
  apply filter_either_length. apply Forall_forall. intros p Hp.
  specialize (Hone p Hp).
  destruct (array_includes (audioIndexes d) (Packet.stream_index p)),
           (array_includes (videoIndexes d) (Packet.stream_index p));
    cbn in *; try discriminate; [left | right]; split; auto.
Qed.

(** ** When stream discovery fails *)

Lemma selected_at_middle (done : list Stream.t) (s : Stream.t) (rest : list Stream.t) :
  selected_at (done ++ s :: rest) (length done) s
  = selected_at (done ++ [s]) (length done) s.
Proof. unfold selected_at. rewrite !take_app_length. reflexivity. Qed.

Lemma discover_step_outcome (ext : Externals) (done : list Stream.t) (d : Discovery)
    (s : Stream.t) :
  discovered ext done d ->
  match discover_step ext d s with
  | Ok _ =>
      selected_at (done ++ [s]) (length done) s = true ->
      exists dec, ext_decoder ext (Stream.index s) = Returns dec
  | Throw e =>
      selected_at (done ++ [s]) (length done) s = true
      /\ exists n msg, ext_decoder ext (Stream.index s) = Throws n msg
           /\ e = ForeignError n msg
  end.
Proof.
  intros [Ha Hv _ _ _ _ _ _]. unfold discover_step.
  change (String.eqb (CodecPar.codec_type (Stream.codecpar s)) "audio") with (is_audio s).
  change (String.eqb (CodecPar.codec_type (Stream.codecpar s)) "video") with (is_video s).
  rewrite Ha, Hv, !length_fmap.
  pose proof (discard_label_snoc_new done s) as Hlab. unfold discard_label in Hlab.
  destruct (is_audio s && (length (first_audio done) <? numAudChannels)%nat) eqn:Ca;
    [|destruct (is_video s && (length (first_video done) <? numVidChannels)%nat) eqn:Cv];
    cbn [orb] in Hlab.
  - destruct (selected_at (done ++ [s]) (length done) s); [|discriminate].
    destruct (ext_decoder ext (Stream.index s)) as [dec|n msg]; cbn.
    + intros _. now eexists.
    + split; [reflexivity|]. now exists n, msg.
  - destruct (selected_at (done ++ [s]) (length done) s); [|discriminate].
    destruct (ext_decoder ext (Stream.index s)) as [dec|n msg]; cbn.
    + intros _. now eexists.
    + split; [reflexivity|]. now exists n, msg.
  - destruct (selected_at (done ++ [s]) (length done) s); [discriminate|].
    intros [=].
Qed.

Lemma discover_from_fails (ext : Externals) (ss done : list Stream.t) (d : Discovery)
    (e : JsError) :
  discovered ext done d ->
  discover_from ext d ss = Throw e <->
  exists pre s post n msg,
    ss = pre ++ s :: post
    /\ selected_at (done ++ ss) (length done + length pre) s = true
    /\ ext_decoder ext (Stream.index s) = Throws n msg
    /\ e = ForeignError n msg
    /\ forall i s', pre !! i = Some s' ->
         selected_at (done ++ ss) (length done + i) s' = true ->
         exists dec, ext_decoder ext (Stream.index s') = Returns dec.
Proof.
  revert done d. induction ss as [|s ss IH]; intros done d Hd.
  - split; [discriminate|].
    intros (pre & s & post & _ & _ & Habs & _). now destruct pre.
  - cbn [discover_from].
    pose proof (discover_step_outcome ext done d s Hd) as Hstep.
    destruct (discover_step ext d s) as [d1|e1] eqn:Hds; cbn.
    + pose proof (discover_step_discovered ext done d d1 s Hd Hds) as Hkeep.
      rewrite (IH (done ++ [s]) d1 Hkeep). rewrite <- !app_assoc. cbn [app].
      rewrite length_app. cbn [length]. split.
      * intros (pre & s1 & post & n & msg & -> & Hsel & Hthrows & -> & Hpre).
        exists (s :: pre), s1, post, n, msg. split; [reflexivity|].
        split; [cbn [length]; rewrite <- Hsel; f_equal; lia|].
        split; [exact Hthrows|]. split; [reflexivity|].
        intros [|i] s' Hi Hsel'.
        -- injection Hi as <-. apply Hstep.
           rewrite Nat.add_0_r, selected_at_middle in Hsel'. exact Hsel'.
        -- apply (Hpre i s' Hi). rewrite <- Hsel'. f_equal. lia.
      * intros (pre & s1 & post & n & msg & Hss & Hsel & Hthrows & -> & Hpre).
        destruct pre as [|s0 pre]; cbn in Hss; injection Hss as <- ->.
        -- exfalso. cbn [length] in Hsel.
           rewrite Nat.add_0_r, selected_at_middle in Hsel.
           destruct (Hstep Hsel) as [dec Hdec]. congruence.
        -- exists pre, s1, post, n, msg. split; [reflexivity|].
           split; [rewrite <- Hsel; cbn [length]; f_equal; lia|].
           split; [exact Hthrows|]. split; [reflexivity|].
           intros i s' Hi Hsel'. apply (Hpre (S i) s' Hi).
           rewrite <- Hsel'. f_equal. lia.
    + destruct Hstep as (Hsel & n & msg & Hthrows & ->). split.
      * intros [= <-]. exists [], s, ss, n, msg. split; [reflexivity|].
        split; [cbn [length]; rewrite Nat.add_0_r, selected_at_middle; exact Hsel|].
        split; [exact Hthrows|]. split; [reflexivity|].
        intros i s' Hi. now rewrite lookup_nil in Hi.
      * intros (pre & s1 & post & n' & msg' & Hss & Hsel' & Hthrows' & -> & Hpre).
        destruct pre as [|s0 pre]; cbn in Hss; injection Hss as <- ->.
        -- congruence.
        -- exfalso. destruct (Hpre 0%nat s eq_refl) as [dec Hdec]; [|congruence].
           rewrite Nat.add_0_r, selected_at_middle. exact Hsel.
Qed.

(** X15. Stream discovery fails exactly when the decoder of a stream it
    selects cannot be made: the error is the one thrown for the first such
    stream, in the demuxer's order, the decoders of the selected streams
    before it having been made. A stream that is not selected (one past
    the first eight audio streams or the first video stream, or of another
    kind) never makes it fail. *)
Theorem discover_fails_at_first (ext : Externals) (ss : list Stream.t) (e : JsError) :
  discover ext ss = Throw e <->
  exists pre s post n msg,
    ss = pre ++ s :: post
    /\ selected_at ss (length pre) s = true
    /\ ext_decoder ext (Stream.index s) = Throws n msg
    /\ e = ForeignError n msg
    /\ forall i s', pre !! i = Some s' -> selected_at ss i s' = true ->
         exists dec, ext_decoder ext (Stream.index s') = Returns dec.
Proof.
  unfold discover.
  rewrite (discover_from_fails ext ss [] Discovery_empty e (discovered_empty ext)).
  reflexivity.
Qed.

(** ** Repeated calls after release *)

Lemma demux_not_running (d : Discovery) (this : FFmpegProducer) :
  running this = false ->
  demux d this =
    (redio_end,
     mkFFmpegProducer (loadParams this) None (audSource this) (vidSource this)
       false (paused this) (closure this),
     []).
Proof.
  intros Hrun. unfold demux. rewrite Hrun. destruct (demuxer this); reflexivity.
Qed.

(** X1. After [release], every call of [demux] returns the end marker,
    however many are made and whatever the demuxer still holds; the first
    of them drops the demuxer, and the producer stays released. *)
Theorem demux_calls_after_release (n : nat) (d : Discovery) (this : FFmpegProducer) :
  fst (demux_calls n d (release this)) = replicate n redio_end
  /\ snd (demux_calls (S n) d (release this)) =
       mkFFmpegProducer (loadParams this) None (audSource this) (vidSource this)
         false (paused this) (closure this).
Proof.
  assert (Hall : forall m p, running p = false ->
            fst (demux_calls m d p) = replicate m redio_end
            /\ snd (demux_calls (S m) d p) =
                 mkFFmpegProducer (loadParams p) None (audSource p) (vidSource p)
                   false (paused p) (closure p)).
  { induction m as [|m IH]; intros p Hp.
    - split; [reflexivity|]. cbn [demux_calls]. rewrite (demux_not_running d p Hp).
      reflexivity.
    - cbn [demux_calls]. rewrite (demux_not_running d p Hp).
      set (p1 := mkFFmpegProducer (loadParams p) None (audSource p) (vidSource p)
                   false (paused p) (closure p)).
      destruct (IH p1 eq_refl) as [Hres Hlast].
      cbn [demux_calls] in Hlast. rewrite (demux_not_running d p1 eq_refl) in Hlast.
      fold p1 in Hlast.
      destruct (demux_calls m d p1) as [rs p2] eqn:Hcalls. cbn [fst snd] in *.
      split; [cbn; now rewrite Hres|].
      rewrite (demux_not_running d p1 eq_refl).
      destruct (demux_calls m d _) as [rs' p2'] eqn:Hcalls'. cbn [snd].
      exact Hlast. }
  apply (Hall n (release this)). reflexivity.
Qed.

(** * Worked inputs *)

(** ** The registry *)

(** C1 at a registry of three factories: the first does not recognize the
    source, the second opens it, the third is never invoked. *)
Lemma createSource_ordered_fallback_witness :
  Registry.createSource [device_absent; opens_as 7; breaks] clip_params pal =
  Registry.mkSourceRun (Ok (Some 7%nat)) "no such device" [0; 1]%nat [].
Proof.
  apply (proj1 (createSource_ordered_fallback clip_params pal
                  [device_absent; opens_as 7; breaks])
           [device_absent] [InvalidProducerError "no such device"]
           (opens_as 7) [breaks] 7%nat).
  - reflexivity.
  - repeat constructor.
  - reflexivity.
Defined.

(** A failure that is not an [InvalidProducerError] stops the registry. *)
Example createSource_fatal_example :
  Registry.createSource [device_absent; breaks; opens_as 7] clip_params pal =
  Registry.mkSourceRun (Throw (PlainError "out of memory")) "out of memory" [0; 1]%nat [].
Proof. reflexivity. Qed.

(** All factories fail to recognize the source: [null], and the last
    message on the console. *)
Example createSource_null_example :
  Registry.createSource
    (ProducerRegistry device_absent unopenable) clip_params pal =
  Registry.mkSourceRun (Ok None) "Error: Problem opening input format" [0; 1]%nat
    ["Error: Problem opening input format";
     "Failed to find producer for params: '[object Object]'"].
Proof. reflexivity. Qed.

(** ** Stream discovery *)

(** C7 as stated fails: a source without a video stream has none
    selected, not exactly one. *)
Lemma discover_no_video_selected :
  exists d, discover (returning audio_only_clip) (streams audio_only_clip) = Ok d /\
    length (videoStreams d) = 0%nat /\ length (videoStreams d) <> 1%nat.
Proof. eexists. split; [reflexivity|]. split; [reflexivity | discriminate]. Qed.

(** C7 (amended) at a source of nine audio, two video and one subtitle
    stream. *)
Lemma discover_selects_capped_witness :
  exists d, discover (returning stereo_clip) twelve_streams = Ok d /\
    length (audioStreams d) = 8%nat /\ length (videoStreams d) = 1%nat /\
    size (decoders d) = 9%nat /\
    Stream.discard <$> visited d =
      ["default"; "default"; "all"; "default"; "default"; "default"; "all";
       "default"; "default"; "default"; "default"; "all"].
Proof.
  destruct (discover_selects_capped (returning stereo_clip) twelve_streams)
    as (d & Hd & Ha & Hv & _ & _ & _ & _ & _ & _ & _ & _ & _ & _ & Hsize).
  - intros i s _ _. eexists. reflexivity.
  - exists d. split; [exact Hd|].
    assert (Hnd : NoDup (Stream.index <$> twelve_streams))
      by (apply (bool_decide_unpack _); vm_compute; exact I).
    specialize (Hsize Hnd). rewrite Hsize, Ha, Hv.
    vm_compute in Hd. injection Hd as <-.
    repeat split; reflexivity.
Defined.

(** ** The audio filter graph *)

(** C8 at three mono streams. *)
Lemma merge_filterer_layouts_witness :
  exists inputs spec,
    merge_filterer_options [audio_stream 1 "mono"; audio_stream 2 "mono"; audio_stream 3 "mono"]
      (audio_stream 1 "mono") =
      AudioFilterer inputs [mkAudioOutputParam "out0:a" 48000 "s32" "8c"] spec /\
    ain_channelLayout <$> inputs = [Some "FL"; Some "FR"; Some "FC"].
Proof.
  destruct (merge_filterer_layouts
              [audio_stream 1 "mono"; audio_stream 2 "mono"; audio_stream 3 "mono"]
              (audio_stream 1 "mono"))
    as (inputs & spec & Hopt & _ & _ & Hmono & _).
  - reflexivity.
  - cbn. lia.
  - exists inputs, spec. split; [exact Hopt|].
    destruct Hmono as [Hl _]; [repeat constructor | exact Hl].
Defined.

(** The options of the merging graph for two mono streams, in full. *)
Example merge_filterer_options_mono :
  merge_filterer_options [audio_stream 1 "mono"; audio_stream 2 "mono"]
    (audio_stream 1 "mono") =
  AudioFilterer
    [mkAudioInputParam "in0:a" (1, 48000) 48000 "fltp" (Some "FL");
     mkAudioInputParam "in1:a" (1, 48000) 48000 "fltp" (Some "FR")]
    [mkAudioOutputParam "out0:a" 48000 "s32" "8c"]
    "[in0:a][in1:a] amerge=inputs=2, asetnsamples=n=1024:p=1 [out0:a]".
Proof. vm_compute. reflexivity. Qed.

(** One stereo stream among them: every input keeps the layout of the
    first stream. *)
Example merge_filterer_options_mixed :
  merge_filterer_options [audio_stream 1 "mono"; audio_stream 2 "stereo"]
    (audio_stream 1 "mono") =
  AudioFilterer
    [mkAudioInputParam "in0:a" (1, 48000) 48000 "fltp" (Some "mono");
     mkAudioInputParam "in1:a" (1, 48000) 48000 "fltp" (Some "mono")]
    [mkAudioOutputParam "out0:a" 48000 "s32" "8c"]
    "[in0:a][in1:a] amerge=inputs=2, asetnsamples=n=1024:p=1 [out0:a]".
Proof. vm_compute. reflexivity. Qed.

(** ** Pixel formats *)

(** C3 at a clip whose video is in pixel format yuv420p, for which the
    filter graph is made to put out yuv422p10le, and at a clip whose video
    is in pixel format gray, through the registry as its constructor fills
    it. *)
Lemma initialise_pixel_format_witness :
  (exists cl,
     closure (initialised mute_clip) = Some cl /\
     toRGBA cl = Some (new_ToRGBA (yuv422p10Reader 1920 1080)) /\
     filterer_options (vidFilterer cl) =
       VideoFilterer [mkVideoInputParam (1, 25) 1920 1080 "yuv420p" (1, 1)]
         ["yuv422p10le"] "fps=fps=25/1") /\
  initialise (returning gray_clip) (createProducer clip_params) pal =
    Throw (unsupported_format_error "gray") /\
  Registry.createSource (ProducerRegistry device_absent (returning gray_clip))
    clip_params pal =
  Registry.mkSourceRun (Throw (unsupported_format_error "gray"))
    "Unsupported video format 'gray' from FFmpeg decoder" [0; 1]%nat [].
Proof.
  split.
  - destruct (initialise_audio (returning mute_clip) (createProducer clip_params))
      as [[[[dmx d] sf] af]|e] eqn:Ha; [|vm_compute in Ha; discriminate].
    assert (Hv : videoStreams d !! 0%nat = Some (video_stream 0 "yuv420p"))
      by (vm_compute in Ha; injection Ha as _ <- _ _; reflexivity).
    destruct (initialise_pixel_format (returning mute_clip) clip_params pal
                dmx d sf af (video_stream 0 "yuv420p") Ha Hv)
      as (_ & Hyuv & _ & _ & Hret & _).
    destruct (Hret (initialised mute_clip)) as (t & fof & cl & Hsel & Hcl & Ht & _ & Hf).
    { vm_compute. reflexivity. }
    rewrite Hyuv in Hsel.
    + injection Hsel as <- <-. exists cl. split; [exact Hcl|]. split; [exact Ht|].
      cbn in Hf. injection Hf as <-. reflexivity.
    + apply (bool_decide_unpack _). vm_compute. exact I.
    + reflexivity.
  - destruct (initialise_audio (returning gray_clip) (createProducer clip_params))
      as [[[[dmx d] sf] af]|e] eqn:Ha; [|vm_compute in Ha; discriminate].
    assert (Hv : videoStreams d !! 0%nat = Some (video_stream 0 "gray"))
      by (vm_compute in Ha; injection Ha as _ <- _ _; reflexivity).
    destruct (initialise_pixel_format (returning gray_clip) clip_params pal
                dmx d sf af (video_stream 0 "gray") Ha Hv)
      as (_ & _ & _ & _ & _ & _ & Hbad).
    destruct Hbad as (Hthrow & _ & Hreg).
    + apply (bool_decide_unpack _). vm_compute. exact I.
    + reflexivity.
    + reflexivity.
    + split; [exact Hthrow|].
      apply (Hreg (AnyProducer nat) FFmpeg [as_Producer Macadam device_absent]
               [InvalidProducerError "no such device"] []).
      repeat constructor.
Defined.

Example select_loader_yuv420p :
  select_loader 1920 1080 "yuv420p" =
  Ok (new_ToRGBA (yuv422p10Reader 1920 1080), "yuv422p10le").
Proof. reflexivity. Qed.

Example select_loader_rgb24 :
  select_loader 1920 1080 "rgb24" = Ok (new_ToRGBA (rgba8Reader 1920 1080), "rgba").
Proof. reflexivity. Qed.

Example select_loader_v210 :
  select_loader 1920 1080 "v210" = Ok (new_ToRGBA (v210Reader 1920 1080), "v210").
Proof. reflexivity. Qed.

(** ** A source without video *)

(** C9 at a clip with one audio stream only. *)
Lemma initialise_without_video_witness :
  initialise (returning audio_only_clip) (createProducer clip_params) pal =
    Throw (TypeError_undefined "codecpar") /\
  Registry.createSource (ProducerRegistry device_absent (returning audio_only_clip))
    clip_params pal =
  Registry.mkSourceRun (Throw (TypeError_undefined "codecpar"))
    "Cannot read property 'codecpar' of undefined" [0; 1]%nat [].
Proof.
  destruct (initialise_without_video (returning audio_only_clip) clip_params pal
              audio_only_clip)
    as (e & Hthrow & _ & Htype & Hreg).
  - reflexivity.
  - intros s Hs. apply list_elem_of_singleton in Hs. subst s. reflexivity.
  - assert (He : e = TypeError_undefined "codecpar").
    { destruct (initialise_audio (returning audio_only_clip) (createProducer clip_params))
        as [r|e1] eqn:Ha; [apply (Htype r); reflexivity | vm_compute in Ha; discriminate]. }
    subst e. split; [exact Hthrow|].
    apply (Hreg (AnyProducer nat) FFmpeg [as_Producer Macadam device_absent]
             [InvalidProducerError "no such device"] []).
    repeat constructor.
Defined.

(** ** The demux stage *)



(** A second audio packet with another non-zero timestamp flushes the
    batch, the packet included, with a diagnostic. *)
Example demux_flush_on_mismatch :
  demux_loop [1; 2] [0] 3 DemuxLocals_init
    [Packet.mk 1 5; Packet.mk 2 7; Packet.mk 0 5] =
  mkDemuxRun (value [Packet.mk 1 5; Packet.mk 2 7]) [Packet.mk 0 5]
    ["Timestamp mismatch - sending 2 packets, 3 expected"].
Proof. vm_compute. reflexivity. Qed.

(** Packets of streams that were not selected are read and dropped; the
    source running out gives the end marker. *)
Example demux_end_of_source :
  demux_loop [1; 2] [0] 3 DemuxLocals_init
    [Packet.mk 1 5; Packet.mk 9 5; Packet.mk 0 5] =
  mkDemuxRun redio_end [] [].
Proof. reflexivity. Qed.

(** C10 at the second audio packet of such a batch. *)
Lemma demux_zero_timestamp_overwritten_witness :
  demux_packet [1; 2] [0] (mkDemuxLocals (Some 0) None [Packet.mk 1 0] false)
    (Packet.mk 2 1024) =
  mkDemuxLocals (Some 1024) None [Packet.mk 1 0; Packet.mk 2 1024] false.
Proof.
  destruct (demux_zero_timestamp_overwritten [1; 2] [0]
              (mkDemuxLocals (Some 0) None [Packet.mk 1 0] false) (Packet.mk 2 1024))
    as (Haud & _).
  destruct Haud as [Hp _]; [reflexivity | reflexivity | exact Hp].
Defined.

(** ** The deinterlace stage *)

(** C4 as stated fails: the one buffer this deinterlacer appends is not
    forwarded. *)
Lemma vidDeint_drops_single_buffer :
  snd (processFrame tt (mkOpenCLBuffer 4 40)) = [mkOpenCLBuffer 5 40] /\
  vidDeint (mkDeintState (Some tt) [] 0) (value (mkOpenCLBuffer 4 40)) =
    (redio_nil, mkDeintState (Some tt) [mkOpenCLBuffer 4 40] 0) /\
  ~ forwards_all_appended tt (mkDeintState (Some tt) [] 0) (mkOpenCLBuffer 4 40).
Proof.
  split; [reflexivity|]. split; [reflexivity|].
  unfold forwards_all_appended. cbn. discriminate.
Qed.

(** C4 (amended) at a field-output deinterlacer that holds a buffer. *)
Lemma vidDeint_forwards_pairs_witness :
  vidDeint (mkDeintState (Some (Some (mkOpenCLBuffer 3 30))) [] 0)
    (value (mkOpenCLBuffer 4 40)) =
  (value [mkOpenCLBuffer 8 40; mkOpenCLBuffer 9 40],
   mkDeintState (Some (Some (mkOpenCLBuffer 4 40))) [mkOpenCLBuffer 4 40] 0).
Proof.
  destruct (vidDeint_forwards_pairs
              (mkDeintState (Some (Some (mkOpenCLBuffer 3 30))) [] 0)
              (Some (mkOpenCLBuffer 3 30)) (mkOpenCLBuffer 4 40))
    as (Htwo & _ & _ & _ & Hrel & Hy & Hn & _).
  - reflexivity.
  - cbn. lia.
  - destruct Htwo as [Hout _]; [reflexivity|].
    destruct (vidDeint _ _) as [out s']. cbn [fst snd] in *.
    destruct s' as [y' rel n]. cbn in Hrel, Hy, Hn. subst. reflexivity.
Defined.

(** The first buffer of a stream gives nothing, the end marker releases
    the deinterlacer. *)
Example vidDeint_first_and_end :
  vidDeint (mkDeintState (Some (@None OpenCLBuffer)) [] 0) (value (mkOpenCLBuffer 3 30)) =
    (redio_nil, mkDeintState (Some (Some (mkOpenCLBuffer 3 30))) [mkOpenCLBuffer 3 30] 0) /\
  vidDeint (mkDeintState (Some (Some (mkOpenCLBuffer 3 30))) [mkOpenCLBuffer 3 30] 0)
    redio_end =
    (redio_end, mkDeintState None [mkOpenCLBuffer 3 30] 1).
Proof. split; reflexivity. Qed.

(** ** release and the silent audio leg *)

(** C6 (the code at the failing input). The producer of a clip with a
    video stream and no audio stream is released; two pulls of its audio
    leg made afterwards each give a silent frame. *)
Theorem released_producer_still_emits_audio :
  audSource (initialised mute_clip) = Some [stage_silence; stage_audFilter] /\
  running (release (initialised mute_clip)) = false /\
  silent_leg_pull (closure_of (initialised mute_clip))
    (release (initialised mute_clip)) (Some 0) =
    (aud_filtered (value [make_silentFrame]), Some 1024,
     release (initialised mute_clip)) /\
  silent_leg_pull (closure_of (initialised mute_clip))
    (release (initialised mute_clip)) (Some 1024) =
    (aud_filtered
       (value [Frame.mk 1024 "s32" 1024 48000 8 "8c" [Buffer_alloc 32768]]),
     Some 2048, release (initialised mute_clip)).
Proof. repeat split; vm_compute; reflexivity. Qed.

(** X2 at the producer of a clip without audio. *)
Lemma initialise_silent_template_witness :
  exists cl,
    closure (initialised mute_clip) = Some cl /\
    silentFrame cl = Some (Frame.mk 1024 "s32" 0 48000 8 "8c" [Buffer_alloc 32768]).
Proof.
  destruct (initialise_silent_template (returning mute_clip) clip_params pal
              (initialised mute_clip))
    as (cl & f & Hcl & Hsf & _).
  - vm_compute. reflexivity.
  - vm_compute. reflexivity.
  - exists cl. split; assumption.
Defined.

(** ** The AMCP commands *)

(** X5 at PAUSE on the second of three channels. *)
Lemma command_addresses_one_channel_witness :
  exists after,
    BasicCmds.pause three_channels second_channel [] = Ok (true, after)
    /\ length after = 3%nat
    /\ after !! 0%nat = Some ["a"] /\ after !! 2%nat = Some ["c"].
Proof.
  exists [["a"]; ["b"; "pause"]; ["c"]].
  destruct (command_addresses_one_channel "PAUSE" BasicCmds.pause three_channels
              second_channel []) as (_ & _ & Hframe).
  - unfold BasicCmds.entries. repeat constructor.
  - destruct (Hframe true [["a"]; ["b"; "pause"]; ["c"]] eq_refl) as [Hlen Hother].
    split; [reflexivity|]. split; [exact Hlen|].
    split; (rewrite Hother; [reflexivity | cbn; lia]).
Defined.

(** X6 at PLAY with a clip name and LOOP on the second of three
    channels. *)
Lemma play_loads_then_plays_witness :
  BasicCmds.play three_channels second_channel ["AMB.mxf"; "LOOP"] =
  Ok (true, [["a"]; ["b"; "loadbg AMB.mxf loop"; "play"]; ["c"]]).
Proof.
  exact (play_loads_then_plays three_channels second_channel ["AMB.mxf"; "LOOP"] ["b"]
           eq_refl eq_refl).
Defined.

(** LOADBG reads the word after SEEK as a number, and takes a clip named
    LOOP for the LOOP flag as well. *)
Example loadbg_words_seek :
  loadbg_words ["AMB.mxf"; "SEEK"; "250"; "AUTO"] =
    CmdLoadParams.mk (Some "AMB.mxf") (Some (Some 0)) (Some false) (Some true)
      (Some (Some 250))
  /\ loadbg_words ["LOOP"; "SEEK"] =
    CmdLoadParams.mk (Some "LOOP") (Some (Some 0)) (Some true) (Some false)
      (Some None)
  /\ loadbg_words ["DECKLINK"; "2"] =
    CmdLoadParams.mk (Some "DECKLINK") (Some (Some 2)) (Some false) (Some false)
      (Some (Some 0)).
Proof. repeat split; vm_compute; reflexivity. Qed.

(** ** The decode stages *)

Lemma stereo_clip_discovered :
  discovered (returning stereo_clip) (streams stereo_clip)
    (discovery_of (initialised stereo_clip)).
Proof.
  apply (discover_from_discovered (returning stereo_clip) (streams stereo_clip) []
           Discovery_empty).
  - apply discovered_empty.
  - vm_compute. reflexivity.
Qed.

Lemma zero_start_audio_discovered :
  discovered (returning (av_clip [Packet.mk 1 0; Packet.mk 1 1024]))
    (streams (av_clip [Packet.mk 1 0; Packet.mk 1 1024]))
    (discovery_of zero_start_audio).
Proof.
  apply (discover_from_discovered (returning (av_clip [Packet.mk 1 0; Packet.mk 1 1024]))
           (streams (av_clip [Packet.mk 1 0; Packet.mk 1 1024])) [] Discovery_empty).
  - apply discovered_empty.
  - vm_compute. reflexivity.
Qed.

(** X7 at the batch [demux] returns for [zero_start_audio], two packets
    of its one audio stream: two groups, named in0:a and in1:a, each with
    the frame of its packet, for a filter graph whose one input is
    in0:a. *)
Lemma audDecode_behind_filter_witness :
  exists g0 g1,
    audDecode (discovery_of zero_start_audio) 0%nat
      (audPacketFilter (discovery_of zero_start_audio)
         (value [Packet.mk 1 0; Packet.mk 1 1024]))
      = (2%nat, Ok (value [g0; g1]))
    /\ name g0 = "in0:a" /\ name g1 = "in1:a"
    /\ frames g1 = [Some (Frame.mk 1024 "fltp" 1024 48000 2 "stereo" [])]
    /\ ain_name <$> audio_inParams (audioStreams (discovery_of zero_start_audio))
                     (audio_stream 1 "stereo")
       = ["in0:a"].
Proof.
  destruct (audDecode_behind_filter
              (returning (av_clip [Packet.mk 1 0; Packet.mk 1 1024]))
              (streams (av_clip [Packet.mk 1 0; Packet.mk 1 1024]))
              (discovery_of zero_start_audio) 0%nat
              [Packet.mk 1 0; Packet.mk 1 1024]
              (audio_stream 1 "stereo") zero_start_audio_discovered) as [Hw Hthm].
  destruct (audDecode _ _ _) as [w' [[groups| |]|e]] eqn:E;
    cbn [fst snd] in Hw, Hthm; try (vm_compute in E; discriminate).
  destruct Hthm as [Hlen Hgroups].
  destruct groups as [|g0 [|g1 [|g2 groups]]]; try (vm_compute in Hlen; discriminate).
  exists g0, g1.
  destruct (Hgroups 0%nat g0 eq_refl) as (Hn0 & _ & _).
  destruct (Hgroups 1%nat g1 eq_refl) as (Hn1 & (p & dec & fr & Hp & _ & Hfr & Hfrs) & _).
  split; [rewrite Hw; reflexivity|].
  split; [exact Hn0|]. split; [exact Hn1|]. split.
  - vm_compute in Hp. injection Hp as <-. vm_compute in Hfr. injection Hfr as <-.
    exact Hfrs.
  - vm_compute. reflexivity.
Defined.

(** X8 at a batch sent on a timestamp mismatch before any video packet
    was read: the video leg throws. *)
Lemma vidDecode_behind_filter_witness :
  vidDecode (discovery_of (initialised stereo_clip)) 0%nat
    (vidPacketFilter (discovery_of (initialised stereo_clip)) (value audio_only_batch))
  = (0%nat, Throw (TypeError_undefined "stream_index")).
Proof.
  pose proof (vidDecode_behind_filter (returning stereo_clip) (streams stereo_clip)
                (discovery_of (initialised stereo_clip)) 0%nat audio_only_batch
                stereo_clip_discovered) as Hthm.
  vm_compute in Hthm. vm_compute. exact Hthm.
Defined.

(** ** Batches of the demux stage *)

(** X10 at the first call on [stereo_clip]. *)
Lemma demux_batch_size_witness :
  (1 <= length (forwarded (fst (fst (demux (discovery_of (initialised stereo_clip))
                                       (initialised stereo_clip)))))
     <= 3)%nat.
Proof.
  destruct (demux_batch_size (discovery_of (initialised stereo_clip))
              (initialised stereo_clip)
              [Packet.mk 1 0; Packet.mk 2 1024; Packet.mk 0 0]) as [Hsize _].
  - vm_compute. lia.
  - vm_compute. reflexivity.
  - vm_compute in Hsize. vm_compute. exact Hsize.
Defined.

(** X11 at three calls on [stereo_clip]: a batch of three packets, then
    the end marker twice, the fourth packet being lost. *)
Lemma demux_calls_in_order_witness :
  fst (demux_calls 3 (discovery_of (initialised stereo_clip)) (initialised stereo_clip))
    = [value [Packet.mk 1 0; Packet.mk 2 1024; Packet.mk 0 0]; redio_end; redio_end]
  /\ exists dmx' read lost,
       demuxer (snd (demux_calls 3 (discovery_of (initialised stereo_clip))
                       (initialised stereo_clip))) = Some dmx'
       /\ unread stereo_clip = read ++ unread dmx'
       /\ filter (fun p => Is_true (selected_packet [1; 2] [0] p)) read
          = [Packet.mk 1 0; Packet.mk 2 1024; Packet.mk 0 0] ++ lost
       /\ (lost = [] \/ unread dmx' = []).
Proof.
  split; [vm_compute; reflexivity|].
  destruct (demux_calls_in_order 3 (discovery_of (initialised stereo_clip))
              (initialised stereo_clip)
              (mkDemuxer (streams stereo_clip) (unread stereo_clip)))
    as (dmx' & read & lost & Hdmx & Hread & Hsel & Hlost).
  - vm_compute. reflexivity.
  - reflexivity.
  - exists dmx', read, lost. repeat split; assumption.
Defined.

(** ** The registry with its two factories *)

(** X12 at a url that neither factory can open. *)
Lemma ProducerRegistry_createSource_witness :
  Registry.completion
    (Registry.createSource (ProducerRegistry device_absent unopenable) clip_params pal)
  = Ok None.
Proof.
  destruct (ProducerRegistry_createSource device_absent unopenable clip_params pal
              (InvalidProducerError "no such device") eq_refl eq_refl) as [_ Hnull].
  exact (proj1 Hnull).
Defined.

(** X13 at [stereo_clip]. *)
Lemma initialise_returns_witness :
  length (videoStreams (discovery_of (initialised stereo_clip))) = 1%nat
  /\ getSourceAudio (initialised stereo_clip) =
       Some [stage_demux; stage_fork; stage_audPacketFilter; stage_audDecode;
             stage_audFilter]
  /\ running (initialised stereo_clip) = true.
Proof.
  destruct (initialise_returns (returning stereo_clip) (createProducer clip_params)
              (initialised stereo_clip) pal)
    as (dmx & dmx' & _ & _ & _ & _ & _ & Hone & Haud & _ & _ & Hrun & _).
  - vm_compute. reflexivity.
  - split; [exact Hone|]. split; [|exact Hrun].
    rewrite Haud. vm_compute. reflexivity.
Defined.

(** ** The fork behind demux *)

(** X14 at the first batch of [stereo_clip]: two packets for the audio
    leg, one for the video leg. *)
Lemma demux_batch_legs_witness :
  length (forwarded (audPacketFilter (discovery_of (initialised stereo_clip))
                       (value [Packet.mk 1 0; Packet.mk 2 1024; Packet.mk 0 0])))
    = 2%nat
  /\ (length (forwarded (audPacketFilter (discovery_of (initialised stereo_clip))
                           (value [Packet.mk 1 0; Packet.mk 2 1024; Packet.mk 0 0])))
      + length (forwarded (vidPacketFilter (discovery_of (initialised stereo_clip))
                             (value [Packet.mk 1 0; Packet.mk 2 1024; Packet.mk 0 0]))))%nat
     = 3%nat.
Proof.
  split; [vm_compute; reflexivity|].
  destruct (demux_batch_legs (returning stereo_clip) (streams stereo_clip)
              (discovery_of (initialised stereo_clip)) (initialised stereo_clip)
              [Packet.mk 1 0; Packet.mk 2 1024; Packet.mk 0 0]) as [_ Hsum].
  - exact stereo_clip_discovered.
  - apply (bool_decide_unpack _). vm_compute. exact I.
  - vm_compute. reflexivity.
  - exact Hsum.
Defined.

(** ** The colour conversion stages *)

(** A frame with timestamp 40 through [vidLoader] and [vidProcess]: the
    two source buffers are released, the destination buffer is handed on,
    all three stamped 40. *)
Example vidLoader_vidProcess_two_planes :
  (r ← vidLoader (mkConvState (Some 7%nat) []) (value (Frame.mk 0 "yuv422p" 40 0 0 "" []));
   vidProcess 1920 1080 (snd r) (fst r))
  = Ok (value (mkOpenCLBuffer 9 40),
        mkConvState (Some 10%nat) [mkOpenCLBuffer 7 40; mkOpenCLBuffer 8 40]).
Proof. reflexivity. Qed.
